(** * payload-cms-collection-archiver: the backup service and its API client

    A shallow embedding of the classes [BackupService] (backupService.js),
    [FetchPayloadClient] (utils/fetchPayloadClient.js) and [FileManager]
    (utils/fileManager.js), and of config.js.

    The program is asynchronous but single-flow: every call is awaited before
    the next one is issued.  It is modelled by explicit state passing in a
    state-and-exception monad.  Everything the program obtains from outside
    (HTTP responses, the outcome of file-system calls, the clock) is given by a
    [World], an arbitrary deterministic environment with a state of its own;
    every interaction is recorded in a trace.

    - Numbers are integers ([Z]); a value that may be [undefined] or [null]
      is an [option].
    - A decoded response body is [null], a text, or an object given by the
      members the program reads.
    - A path is the list of the segments handed to [path.join].
    - Console and spinner output have no influence on control flow and are
      left out; the member reads made only for printing are kept where they
      can throw.
    - The [while] loop of [getAllCollectionData] is the only unbounded loop:
      it takes a fuel, and a run that exhausts it is [Diverge]. *)

From Stdlib Require Import String List ZArith Bool Lia Ascii DecimalString.
Import ListNotations.
Open Scope string_scope.
Open Scope Z_scope.

(* ================================================================== *)
(** * JavaScript values *)

(** Parsed JSON, the shape of a document. Numbers are integers here. *)
#[local] Set Warnings "-register-all".
Inductive Json : Type :=
| JNull
| JBool (b : bool)
| JNum (n : Z)
| JStr (s : string)
| JArr (items : list Json)
| JObj (members : list (string * Json)).
#[local] Set Warnings "register-all".

(** An [Error] object: its [name] and its [message]. *)
Record Exn : Type := mkExn { ename : string; message : string }.

Definition Error (msg : string) : Exn := mkExn "Error" msg.
Definition TypeError (msg : string) : Exn := mkExn "TypeError" msg.

(** [n.toString()] and the number in a template literal, for the integers
    JavaScript writes in plain digits: those of magnitude below 10^21 (from
    there on it writes an exponent). *)
Definition string_of_Z (z : Z) : string :=
  NilZero.string_of_int (Z.to_int z).

(** [s.includes(sub)]. *)
Fixpoint includes (sub s : string) : bool :=
  if String.prefix sub s then true
  else match s with
       | EmptyString => false
       | String _ rest => includes sub rest
       end.

(** [x || d] for a number or [undefined]/[NaN]: [0] is falsy too. *)
Definition orDefault (x : option Z) (d : Z) : Z :=
  match x with
  | Some n => if n =? 0 then d else n
  | None => d
  end.

(** Truthiness of a string that may be [undefined]/[null]. *)
Definition truthy_str (x : option string) : bool :=
  match x with
  | Some EmptyString => false
  | Some _ => true
  | None => false
  end.

(** [typeof v] for a parsed JSON value. *)
Definition typeof (v : Json) : string :=
  match v with
  | JNull => "object"
  | JBool _ => "boolean"
  | JNum _ => "number"
  | JStr _ => "string"
  | JArr _ => "object"
  | JObj _ => "object"
  end.

(** [l.join(sep)] *)
Fixpoint join (sep : string) (l : list string) : string :=
  match l with
  | [] => ""
  | [x] => x
  | x :: rest => x ++ sep ++ join sep rest
  end.

(** A destructuring default: it applies when the member is [undefined]. *)
Definition default {A : Type} (x : option A) (d : A) : A :=
  match x with
  | Some v => v
  | None => d
  end.

(** The characters of a string, each as a one-character string. *)
Fixpoint chars (s : string) : list string :=
  match s with
  | EmptyString => []
  | String c rest => String c EmptyString :: chars rest
  end.

(** Pairs every element with its index, rendered as a property key. *)
Fixpoint indexed {A : Type} (i : Z) (l : list A) : list (string * A) :=
  match l with
  | [] => []
  | x :: rest => (string_of_Z i, x) :: indexed (i + 1) rest
  end.

(** The own enumerable properties of a value, in [Object.keys] order; [None]
    for [null], on which [Object.keys] throws.  The members of a [JObj] are
    taken to be listed in that order. *)
Definition own_properties (v : Json) : option (list (string * Json)) :=
  match v with
  | JNull => None
  | JBool _ => Some []
  | JNum _ => Some []
  | JStr s => Some (indexed 0 (map JStr (chars s)))
  | JArr items => Some (indexed 0 items)
  | JObj members => Some members
  end.

(* ================================================================== *)
(** * HTTP *)

(** The body of a response once decoded, as the program reads it.  A JSON
    object is given by the members the program reads, typed as the API
    documents them; a member that is absent reads as [undefined]. [PText]
    stands for a body read as text (and for any JSON value that is neither an
    object nor [null]): every member read on it gives [undefined]. *)
Record RespObj : Type := mkRespObj {
  canAccessAdmin : bool;
  (** the keys of the [collections] object; [None] when absent or falsy *)
  access_collections : option (list string);
  (** [totalDocs], a number or [undefined] *)
  totalDocs : option Z;
  (** [docs], an array or [undefined] *)
  docs : option (list Json);
  (** truthiness of [hasNextPage] *)
  hasNextPage : bool;
  (** [nextPage], a number, or [None] for [null]/[undefined] *)
  nextPage : option Z
}.

Inductive Payload : Type :=
| PNull
| PText (s : string)
| PObject (o : RespObj).

(** What [fetch] resolves to: the status line, the content type header, and
    what [response.text()] and [response.json()] give when called. *)
Record Response : Type := mkResponse {
  status : Z;
  statusText : string;
  contentType : option string;
  text : Exn + string;
  json : Exn + Payload
}.

(** [response.ok] *)
Definition ok (r : Response) : bool :=
  (200 <=? status r) && (status r <=? 299).

(** [fetch] either rejects (a network failure, or an error named
    [AbortError] when the timeout timer aborts the request) or resolves. *)
Inductive FetchOutcome : Type :=
| Rejected (e : Exn)
| Resolved (r : Response).

(* ================================================================== *)
(** * The data model of the backup *)

Record Field : Type := mkField {
  field_name : string;
  field_type : string;
  hasValue : bool
}.

Record SchemaDescriptor : Type := mkSchema {
  schema_collection : string;
  fields : list Field;
  schema_totalDocs : Z;
  sampleDoc : option Json;
  schema_error : option string
}.

Record CollectionInfo : Type := mkInfo {
  name : string;
  count : option Z;
  schema : SchemaDescriptor;
  hasData : bool
}.

Record ErrorEntry : Type := mkEntry {
  collection : option string;
  phase : string;
  error : string
}.

(** [new Date()]: the time value and its [toISOString()] rendering. *)
Record Date : Type := mkDate { ms : Z; iso : string }.

Record BackupStats : Type := mkStats {
  startTime : option Date;
  endTime : option Date;
  totalCollections : Z;
  totalRecords : Z;
  successfulCollections : Z;
  failedCollections : Z;
  errors : list ErrorEntry
}.

Record CollectionResult : Type := mkCollectionResult {
  result_name : string;
  recordCount : option Z;
  backupSuccess : bool
}.

(** A path, as the list of the segments handed to [path.join]. *)
Definition Path : Type := list string.

(** [statistics] is the value of [this.stats] when the result is built (in
    the program the member aliases that object). *)
Record BackupResult : Type := mkResult {
  success : bool;
  environment : string;
  backupPath : option Path;
  statistics : BackupStats;
  collections : list CollectionResult
}.

(* ================================================================== *)
(** * Files *)

Record CollectionSummary : Type := mkCollectionSummary {
  summary_name : string;
  summary_recordCount : option Z;
  hasSchema : bool
}.

Record Metadata : Type := mkMetadata {
  meta_environment : string;
  meta_collections : list CollectionSummary;
  meta_statistics : BackupStats;
  meta_duration : string
}.

(** The object handed to [fs.writeJson]. *)
Inductive JsonFile : Type :=
| DataFile (coll timestamp : string) (total : Z) (data : list Json)
| SchemaFile (coll timestamp : string) (descriptor : SchemaDescriptor)
| MetadataFile (metadata : Metadata) (timestamp backupVersion : string).

(** The [extra] members of a log entry. *)
Inductive LogExtra : Type :=
| ExtraCollections (colls : list string)
| ExtraAnalysis (coll : string) (cnt : option Z) (fieldsCount : Z)
| ExtraError (coll err : string)
| ExtraBackedUp (coll : string) (recordsBackedUp : Z) (originalCount : option Z).

Record LogEntry : Type := mkLogEntry {
  log_timestamp : string;
  level : string;
  log_message : string;
  extra : LogExtra
}.

(** The values interpolated into the summary's text. *)
Record Summary : Type := mkSummary {
  sum_environment : string;
  sum_backupTime : string;
  sum_totalCollections : Z;
  sum_totalRecords : Z;
  sum_duration : string;
  sum_collections : list (string * Z);
  sum_backupDir : Path;
  sum_generatedAt : string
}.

(** The calls made on [fs-extra]. *)
Inductive FsOp : Type :=
| EnsureDir (p : Path)
| WriteJson (p : Path) (content : JsonFile)
| AppendFile (p : Path) (line : LogEntry)
| WriteFile (p : Path) (content : Summary).

(* ================================================================== *)
(** * The world and the state *)

(** Every interaction with the outside, in the order it happens. *)
Inductive Event : Type :=
| EvNow
| EvFetch (url : string)
| EvFs (op : FsOp).

(** The environment: how it answers a request, a file-system call ([None]
    when the call succeeds, the error it rejects with otherwise) and a read
    of the clock, and how its own state moves on. *)
Record World (W : Type) : Type := mkWorld {
  fetch : W -> string -> FetchOutcome * W;
  fsop : W -> FsOp -> option Exn * W;
  clock : W -> Date * W
}.
Arguments fetch {W}.
Arguments fsop {W}.
Arguments clock {W}.

(** The state of a run: [this.stats] of the [BackupService] instance, the
    interactions so far, and the state of the world. *)
Record State (W : Type) : Type := mkState {
  stats : BackupStats;
  trace : list Event;
  world : W
}.
Arguments mkState {W}.
Arguments stats {W}.
Arguments trace {W}.
Arguments world {W}.

(* ================================================================== *)
(** * The monad *)

(** A computation returns, throws, or runs out of fuel ([Diverge]: only the
    pagination loop can, the only unbounded loop of the program). *)
Inductive Res (A : Type) : Type :=
| Ret (a : A)
| Throw (e : Exn)
| Diverge.
Arguments Ret {A}.
Arguments Throw {A}.
Arguments Diverge {A}.

Definition M (W A : Type) : Type := State W -> Res A * State W.

Definition ret {W A : Type} (a : A) : M W A := fun s => (Ret a, s).

Definition throw {W A : Type} (e : Exn) : M W A := fun s => (Throw e, s).

Definition bind {W A B : Type} (m : M W A) (k : A -> M W B) : M W B :=
  fun s =>
    match m s with
    | (Ret a, s') => k a s'
    | (Throw e, s') => (Throw e, s')
    | (Diverge, s') => (Diverge, s')
    end.

(** [try { m } catch (e) { h e }] *)
Definition try_catch {W A : Type} (m : M W A) (h : Exn -> M W A) : M W A :=
  fun s =>
    match m s with
    | (Throw e, s') => h e s'
    | r => r
    end.

(** Runs [m] and hands back what it threw as a value: for a [try] block
    whose handler needs the local variables as they were at the throw. *)
Definition attempt {W A : Type} (m : M W A) : M W (Exn + A) :=
  fun s =>
    match m s with
    | (Ret a, s') => (Ret (inr a), s')
    | (Throw e, s') => (Ret (inl e), s')
    | (Diverge, s') => (Diverge, s')
    end.

(** A value or an exception computed without side effect. *)
Definition lift {W A : Type} (r : Exn + A) : M W A :=
  match r with
  | inl e => throw e
  | inr a => ret a
  end.

Definition modify_stats {W : Type} (f : BackupStats -> BackupStats) : M W unit :=
  fun s => (Ret tt, mkState (f (stats s)) (trace s) (world s)).

Definition get_stats {W : Type} : M W BackupStats :=
  fun s => (Ret (stats s), s).

Declare Scope monad_scope.
Delimit Scope monad_scope with monad.
Notation "x <- m ;; k" := (bind m (fun x => k))
  (at level 61, m at next level, right associativity) : monad_scope.
Notation "m ;;; k" := (bind m (fun _ => k))
  (at level 61, right associativity) : monad_scope.
Open Scope monad_scope.

Section Primitives.
Context {W : Type} (os : World W).

(** [new Date()] *)
Definition now : M W Date :=
  fun s =>
    let (d, w) := clock os (world s) in
    (Ret d, mkState (stats s) (trace s ++ [EvNow]) w).

(** [await fetch(url, ...)] *)
Definition do_fetch (url : string) : M W Response :=
  fun s =>
    let (r, w) := fetch os (world s) url in
    let s' := mkState (stats s) (trace s ++ [EvFetch url]) w in
    match r with
    | Rejected e => (Throw e, s')
    | Resolved resp => (Ret resp, s')
    end.

(** A call on [fs-extra] *)
Definition do_fs (op : FsOp) : M W unit :=
  fun s =>
    let (r, w) := fsop os (world s) op in
    let s' := mkState (stats s) (trace s ++ [EvFs op]) w in
    match r with
    | Some e => (Throw e, s')
    | None => (Ret tt, s')
    end.

End Primitives.

(* ================================================================== *)
(** * config.js *)

Module Config.

(** The environment variables the module reads when it is loaded. A numeric
    variable is given as [parseInt] reads it: [None] for [NaN] (unset, or no
    leading number). *)
Record ProcessEnv : Type := mkProcessEnv {
  TEST_API_BASE : option string;
  TEST_API_KEY : option string;
  PROD_API_BASE : option string;
  PROD_API_KEY : option string;
  RATE_LIMIT_CONCURRENCY : option Z;
  RATE_LIMIT_DELAY : option Z;
  RATE_LIMIT_BATCH_SIZE : option Z;
  RATE_LIMIT_TIMEOUT : option Z;
  BACKUP_OUTPUT_DIR : option string;
  BACKUP_DEPTH : option Z
}.

(** An entry of [CONFIG], and the same once [getEnvConfig] has checked it. *)
Record RawConfig : Type := mkRawConfig {
  raw_api_base : option string;
  raw_api_key : option string
}.

Record EnvConfig : Type := mkEnvConfig {
  api_base : string;
  api_key : string
}.

Definition CONFIG (penv : ProcessEnv) : list (string * RawConfig) :=
  [ ("test", mkRawConfig (TEST_API_BASE penv) (TEST_API_KEY penv));
    ("prod", mkRawConfig (PROD_API_BASE penv) (PROD_API_KEY penv)) ].

Record RateLimitConfig : Type := mkRateLimit {
  concurrency : Z;
  delay : Z;
  batchSize : Z;
  timeout : Z
}.

Definition RATE_LIMIT_CONFIG (penv : ProcessEnv) : RateLimitConfig :=
  {| concurrency := orDefault (RATE_LIMIT_CONCURRENCY penv) 6;
     delay := orDefault (RATE_LIMIT_DELAY penv) 500;
     batchSize := orDefault (RATE_LIMIT_BATCH_SIZE penv) 100;
     timeout := orDefault (RATE_LIMIT_TIMEOUT penv) 45000 |}.

Record BackupConfig : Type := mkBackupConfig {
  outputDir : string;
  saveCollectionSchema : bool;
  saveDetailedLogs : bool;
  depth : Z
}.

Definition BACKUP_CONFIG (penv : ProcessEnv) : BackupConfig :=
  {| outputDir := if truthy_str (BACKUP_OUTPUT_DIR penv)
                  then match BACKUP_OUTPUT_DIR penv with
                       | Some d => d
                       | None => "./backup"
                       end
                  else "./backup";
     saveCollectionSchema := true;
     saveDetailedLogs := true;
     depth := orDefault (BACKUP_DEPTH penv) 2 |}.

Fixpoint lookup {A : Type} (k : string) (l : list (string * A)) : option A :=
  match l with
  | [] => None
  | (k', v) :: rest => if String.eqb k k' then Some v else lookup k rest
  end.

(** The names [CONFIG[env]] finds on [Object.prototype]: truthy values with
    no [api_base]. *)
Definition inherited_names : list string :=
  [ "constructor"; "__proto__"; "hasOwnProperty"; "isPrototypeOf";
    "propertyIsEnumerable"; "toLocaleString"; "toString"; "valueOf";
    "__defineGetter__"; "__defineSetter__"; "__lookupGetter__";
    "__lookupSetter__" ].

Definition missing_variables (env : string) : Exn :=
  Error ("Missing required environment variables for " ++ env
         ++ " environment. Please check your .env file.").

Definition getEnvConfig (penv : ProcessEnv) (env : string) : Exn + EnvConfig :=
  match lookup env (CONFIG penv) with
  | None =>
      if existsb (String.eqb env) inherited_names
      then inl (missing_variables env)
      else inl (Error ("Unknown environment: " ++ env ++ ". Available: "
                       ++ join ", " (map fst (CONFIG penv))))
  | Some config =>
      match raw_api_base config, raw_api_key config with
      | Some base, Some key =>
          if negb (truthy_str (Some base)) || negb (truthy_str (Some key))
          then inl (missing_variables env)
          else inr (mkEnvConfig base key)
      | _, _ => inl (missing_variables env)
      end
  end.

Definition isProductionEnv (env : string) : bool := String.eqb env "prod".

End Config.

(* ================================================================== *)
(** * utils/fileManager.js *)

Module FileManager.

Record t : Type := mk {
  outputDir : string;
  backupTimestamp : string
}.

(** [s.replace(/[:.]/g, '-')] *)
Fixpoint replace_colon_dot (s : string) : string :=
  match s with
  | EmptyString => EmptyString
  | String c rest =>
      String (if (Ascii.eqb c ":" || Ascii.eqb c ".")%bool then "-"%char else c)
             (replace_colon_dot rest)
  end.

(** [path.join(a, b, ...)], [path.dirname(p)] on segments; a segment is
    taken to hold no separator (a collection name with a [/] in it would
    make several). *)
Definition path_join (p q : Path) : Path := (p ++ q)%list.
Definition dirname (p : Path) : Path := removelast p.

Definition getBackupDir (fm : t) (env : string) : Path :=
  path_join [outputDir fm; env] [backupTimestamp fm].

Definition getCollectionDataPath (fm : t) (env coll : string) : Path :=
  path_join (getBackupDir fm env) ["data"; coll ++ ".json"].

Definition getCollectionSchemaPath (fm : t) (env coll : string) : Path :=
  path_join (getBackupDir fm env) ["schemas"; coll ++ ".json"].

Definition getMetadataPath (fm : t) (env : string) : Path :=
  path_join (getBackupDir fm env) ["metadata.json"].

Definition getLogPath (fm : t) (env : string) : Path :=
  path_join (getBackupDir fm env) ["backup.log"].

Section Operations.
Context {W : Type} (os : World W) (penv : Config.ProcessEnv).

(** [new FileManager()] *)
Definition constructor : M W t :=
  d <- now os ;;
  ret (mk (Config.outputDir (Config.BACKUP_CONFIG penv))
          (replace_colon_dot (iso d))).

Definition ensureDir (dirPath : Path) : M W unit :=
  do_fs os (EnsureDir dirPath).

Definition saveCollectionData (fm : t) (env coll : string) (data : list Json)
  : M W Path :=
  let filePath := getCollectionDataPath fm env coll in
  ensureDir (dirname filePath) ;;;
  d <- now os ;;
  do_fs os (WriteJson filePath
              (DataFile coll (iso d) (Z.of_nat (length data)) data)) ;;;
  ret filePath.

Definition saveCollectionSchema (fm : t) (env coll : string)
  (sch : SchemaDescriptor) : M W (option Path) :=
  if negb (Config.saveCollectionSchema (Config.BACKUP_CONFIG penv))
  then ret None
  else
    let filePath := getCollectionSchemaPath fm env coll in
    ensureDir (dirname filePath) ;;;
    d <- now os ;;
    do_fs os (WriteJson filePath (SchemaFile coll (iso d) sch)) ;;;
    ret (Some filePath).

Definition saveMetadata (fm : t) (env : string) (metadata : Metadata)
  : M W Path :=
  let filePath := getMetadataPath fm env in
  ensureDir (dirname filePath) ;;;
  d <- now os ;;
  do_fs os (WriteJson filePath (MetadataFile metadata (iso d) "1.0.0")) ;;;
  ret filePath.

Definition addLog (fm : t) (env lvl msg : string) (ex : LogExtra) : M W unit :=
  if negb (Config.saveDetailedLogs (Config.BACKUP_CONFIG penv))
  then ret tt
  else
    let logPath := getLogPath fm env in
    ensureDir (dirname logPath) ;;;
    d <- now os ;;
    do_fs os (AppendFile logPath (mkLogEntry (iso d) lvl msg ex)).

Definition createBackupStructure (fm : t) (env : string) : M W Path :=
  let backupDir := getBackupDir fm env in
  ensureDir (path_join backupDir ["data"]) ;;;
  (if Config.saveCollectionSchema (Config.BACKUP_CONFIG penv)
   then ensureDir (path_join backupDir ["schemas"])
   else ret tt) ;;;
  ret backupDir.

Definition generateSummary (fm : t) (env : string)
  (colls : list CollectionInfo) (total : Z) (duration : string) : M W Path :=
  let backupDir := getBackupDir fm env in
  let summaryPath := path_join backupDir ["README.md"] in
  backupTime <- now os ;;
  generatedAt <- now os ;;
  do_fs os (WriteFile summaryPath
              {| sum_environment := env;
                 sum_backupTime := iso backupTime;
                 sum_totalCollections := Z.of_nat (length colls);
                 sum_totalRecords := orDefault (Some total) 0;
                 sum_duration := duration;
                 sum_collections :=
                   map (fun col => (name col, orDefault (count col) 0)) colls;
                 sum_backupDir := backupDir;
                 sum_generatedAt := iso generatedAt |}) ;;;
  ret summaryPath.

End Operations.

End FileManager.

(* ================================================================== *)
(** * utils/fetchPayloadClient.js *)

Module FetchPayloadClient.

Record t : Type := mk {
  config : Config.EnvConfig;
  baseURL : string;
  apiKey : string;
  (** the limit of the [p-limit] gate *)
  limit : Z
}.

(** The options of a data query, each member possibly absent. *)
Module Options.
Record t : Type := mk {
  page : option Z;
  limit : option Z;
  depth : option Z;
  sort : option string
}.
Definition empty : t := mk None None None None.
(** [{...options, page: p}] *)
Definition with_page (o : t) (p : Z) : t :=
  mk (Some p) (limit o) (depth o) (sort o).
End Options.

(** [new FetchPayloadClient(config)]; [pLimit] throws on a limit below 1. *)
Definition constructor (penv : Config.ProcessEnv) (cfg : Config.EnvConfig)
  : Exn + t :=
  let c := Config.concurrency (Config.RATE_LIMIT_CONFIG penv) in
  if c <? 1
  then inl (TypeError "Expected `concurrency` to be a number from 1 and up")
  else inr (mk cfg (Config.api_base cfg) (Config.api_key cfg) c).

(** Reading member [prop] of a decoded body. *)
Definition member {A : Type} (v : Payload) (prop : string)
  (read : RespObj -> A) (undefined : A) : Exn + A :=
  match v with
  | PNull =>
      inl (TypeError ("Cannot read properties of null (reading '" ++ prop ++ "')"))
  | PText _ => inr undefined
  | PObject o => inr (read o)
  end.

(** The bytes [URLSearchParams] leaves as they are. *)
Definition unreserved (c : ascii) : bool :=
  let n := nat_of_ascii c in
  (((48 <=? n) && (n <=? 57)) || ((65 <=? n) && (n <=? 90))
   || ((97 <=? n) && (n <=? 122))
   || (n =? 42) || (n =? 45) || (n =? 46) || (n =? 95))%nat.

Definition hex_digit (n : nat) : ascii :=
  nth n ["0"; "1"; "2"; "3"; "4"; "5"; "6"; "7"; "8"; "9";
         "A"; "B"; "C"; "D"; "E"; "F"]%char "0"%char.

Fixpoint urlencode (s : string) : string :=
  match s with
  | EmptyString => EmptyString
  | String c rest =>
      let n := nat_of_ascii c in
      if unreserved c then String c (urlencode rest)
      else if (n =? 32)%nat then String "+" (urlencode rest)
      else String "%" (String (hex_digit (n / 16))
                         (String (hex_digit (n mod 16)) (urlencode rest)))
  end.

(** [new URLSearchParams({...}).toString()] *)
Definition URLSearchParams (params : list (string * string)) : string :=
  join "&" (map (fun kv => urlencode (fst kv) ++ "=" ++ urlencode (snd kv)) params).

(** [data.hasNextPage || (data.nextPage && data.nextPage > currentPage)],
    as the [while] reads it *)
Definition more_pages (has : bool) (next : option Z) (currentPage : Z) : bool :=
  has || match next with
         | Some n => negb (n =? 0) && (n >? currentPage)
         | None => false
         end.

Definition is_null (v : Json) : bool :=
  match v with
  | JNull => true
  | _ => false
  end.

Section Operations.
Context {W : Type} (os : World W) (penv : Config.ProcessEnv).

(** The pacing delay: a timer, with no effect on the state. *)
Definition delay : M W unit := ret tt.

(** The program awaits every request before it issues the next, so the gate
    admits each at once. *)
Definition limitedRequest {A : Type} (requestFn : M W A) : M W A :=
  delay ;;; requestFn.

Definition request (cl : t) (path : string) : M W Payload :=
  let url := baseURL cl ++ path in
  try_catch
    (response <- do_fetch os url ;;
     if negb (ok response)
     then
       _ <- lift (text response) ;;
       throw (Error ("HTTP " ++ string_of_Z (status response) ++ ": "
                     ++ statusText response))
     else
       if truthy_str (contentType response)
          && includes "application/json" (default (contentType response) "")
       then lift (json response)
       else body <- lift (text response) ;; ret (PText body))
    (fun error =>
       if String.eqb (ename error) "AbortError"
       then throw (Error ("Request timeout: " ++ path))
       else throw error).

Definition testBasicConnection (cl : t) : M W (bool * option string) :=
  try_catch
    (request cl "/" ;;; ret (true, None))
    (fun error => ret (false, Some (message error))).

Definition getAccess (cl : t) : M W Payload :=
  limitedRequest (request cl "/access").

Definition discoverCollections (cl : t) : M W (list string) :=
  try_catch
    (access <- getAccess cl ;;
     cs <- lift (member access "collections" access_collections None) ;;
     let colls := default cs [] in
     if (length colls =? 0)%nat then ret [] else ret colls)
    (fun error =>
       throw (Error ("Failed to discover collections: " ++ message error))).

Definition getCollectionCount (cl : t) (coll : string) : M W (option Z) :=
  limitedRequest
    (response <- request cl ("/" ++ coll ++ "/count") ;;
     lift (member response "totalDocs" totalDocs None)).

Definition getCollectionData (cl : t) (coll : string) (options : Options.t)
  : M W Payload :=
  let page := default (Options.page options) 1 in
  let limit := default (Options.limit options)
                       (Config.batchSize (Config.RATE_LIMIT_CONFIG penv)) in
  let depth := default (Options.depth options) 2 in
  let sort := default (Options.sort options) "-createdAt" in
  limitedRequest
    (let params := URLSearchParams [ ("page", string_of_Z page);
                                     ("limit", string_of_Z limit);
                                     ("depth", string_of_Z depth);
                                     ("sort", sort) ] in
     request cl ("/" ++ coll ++ "?" ++ params)).

(** The [while (hasNextPage)] loop of [getAllCollectionData], entered with
    [hasNextPage] true.  Every round is one page; [fuel] bounds the rounds. *)
Fixpoint getAllCollectionData_loop (fuel : nat) (cl : t) (coll : string)
  (options : Options.t) (allDocs : list Json) (currentPage : Z)
  : M W (list Json) :=
  match fuel with
  | O => fun s => (Diverge, s)
  | S fuel' =>
      round <- try_catch
        (data <- getCollectionData cl coll (Options.with_page options currentPage) ;;
         d <- lift (member data "docs" docs None) ;;
         match d with
         | Some (doc :: rest) =>
             has <- lift (member data "hasNextPage" hasNextPage false) ;;
             next <- lift (member data "nextPage" nextPage None) ;;
             ret ((allDocs ++ doc :: rest)%list,
                  more_pages has next currentPage,
                  currentPage + 1)
         | _ => ret (allDocs, false, currentPage)
         end)
        (fun _ => ret (allDocs, false, currentPage)) ;;
      let '(allDocs', hasNext, currentPage') := round in
      if (hasNext : bool)
      then getAllCollectionData_loop fuel' cl coll options allDocs' currentPage'
      else ret allDocs'
  end.

Definition getAllCollectionData (fuel : nat) (cl : t) (coll : string)
  (options : Options.t) : M W (list Json) :=
  getAllCollectionData_loop fuel cl coll options [] 1.

Definition getCollectionSchema (cl : t) (coll : string) : M W SchemaDescriptor :=
  try_catch
    (data <- getCollectionData cl coll (Options.mk None (Some 1) None None) ;;
     d <- lift (member data "docs" docs None) ;;
     match d with
     | Some (sample :: _) =>
         props <- lift (match own_properties sample with
                        | Some ps => inr ps
                        | None => inl (TypeError
                                   "Cannot convert undefined or null to object")
                        end) ;;
         let flds := map (fun kv => mkField (fst kv) (typeof (snd kv))
                                            (negb (is_null (snd kv)))) props in
         total <- lift (member data "totalDocs" totalDocs None) ;;
         ret (mkSchema coll flds (orDefault total 0) (Some sample) None)
     | _ => ret (mkSchema coll [] 0 None None)
     end)
    (fun error => ret (mkSchema coll [] 0 None (Some (message error)))).

End Operations.

End FetchPayloadClient.

(* ================================================================== *)
(** * backupService.js *)

Module BackupService.

(** [this.stats] as the constructor leaves it. *)
Definition initial_stats : BackupStats :=
  {| startTime := None; endTime := None; totalCollections := 0;
     totalRecords := 0; successfulCollections := 0; failedCollections := 0;
     errors := [] |}.

(** [new BackupService()] in a world [w]. *)
Definition constructor {W : Type} (w : W) : State W :=
  mkState initial_stats [] w.

(** Assignments to the members of [this.stats]. *)
Definition set_startTime (d : Date) (st : BackupStats) : BackupStats :=
  mkStats (Some d) (endTime st) (totalCollections st) (totalRecords st)
          (successfulCollections st) (failedCollections st) (errors st).

Definition set_endTime (d : Date) (st : BackupStats) : BackupStats :=
  mkStats (startTime st) (Some d) (totalCollections st) (totalRecords st)
          (successfulCollections st) (failedCollections st) (errors st).

Definition set_totalCollections (n : Z) (st : BackupStats) : BackupStats :=
  mkStats (startTime st) (endTime st) n (totalRecords st)
          (successfulCollections st) (failedCollections st) (errors st).

Definition add_totalRecords (n : Z) (st : BackupStats) : BackupStats :=
  mkStats (startTime st) (endTime st) (totalCollections st)
          (totalRecords st + n)
          (successfulCollections st) (failedCollections st) (errors st).

Definition add_successfulCollections (n : Z) (st : BackupStats) : BackupStats :=
  mkStats (startTime st) (endTime st) (totalCollections st) (totalRecords st)
          (successfulCollections st + n) (failedCollections st) (errors st).

Definition add_failedCollections (n : Z) (st : BackupStats) : BackupStats :=
  mkStats (startTime st) (endTime st) (totalCollections st) (totalRecords st)
          (successfulCollections st) (failedCollections st + n) (errors st).

Definition push_errors (e : ErrorEntry) (st : BackupStats) : BackupStats :=
  mkStats (startTime st) (endTime st) (totalCollections st) (totalRecords st)
          (successfulCollections st) (failedCollections st)
          (errors st ++ [e]).

(** [count > 0] and [count === 0] for a number or [undefined] *)
Definition positive (cnt : option Z) : bool :=
  match cnt with
  | Some n => n >? 0
  | None => false
  end.

Definition is_zero (cnt : option Z) : bool :=
  match cnt with
  | Some n => n =? 0
  | None => false
  end.

(** [err.collection === col.name] *)
Definition names_collection (coll : string) (err : ErrorEntry) : bool :=
  match collection err with
  | Some c => String.eqb c coll
  | None => false
  end.

(** [`${Math.round(duration / 1000)}s`] *)
Definition seconds (duration : Z) : string :=
  string_of_Z ((duration + 500) / 1000) ++ "s".

Section Operations.
Context {W : Type} (os : World W) (penv : Config.ProcessEnv).

Definition validateConnection (client : FetchPayloadClient.t) : M W bool :=
  try_catch
    (access <- FetchPayloadClient.getAccess os client ;;
     _ <- lift (FetchPayloadClient.member access "canAccessAdmin"
                  (fun o => Some (canAccessAdmin o)) None) ;;
     _ <- lift (FetchPayloadClient.member access "collections"
                  access_collections None) ;;
     ret true)
    (fun _ => ret false).

(** The body of the [for] loop of [discoverCollections]: one collection is
    analysed, [collectionInfos] being the list built so far. *)
Definition analyzeCollection (client : FetchPayloadClient.t)
  (fileManager : FileManager.t) (env : string)
  (collectionInfos : list CollectionInfo) (coll : string)
  : M W (list CollectionInfo) :=
  let handler (infos : list CollectionInfo) (error : Exn) :=
    FileManager.addLog os penv fileManager env "WARN"
      ("Collection analysis failed: " ++ coll)
      (ExtraError coll (message error)) ;;;
    modify_stats (push_errors (mkEntry (Some coll) "discovery" (message error))) ;;;
    ret infos in
  probed <- attempt
    (cnt <- FetchPayloadClient.getCollectionCount os client coll ;;
     sch <- FetchPayloadClient.getCollectionSchema os penv client coll ;;
     ret (cnt, sch)) ;;
  match probed with
  | inl error => handler collectionInfos error
  | inr (cnt, sch) =>
      let infos := (collectionInfos ++ [mkInfo coll cnt sch (positive cnt)])%list in
      logged <- attempt
        (FileManager.addLog os penv fileManager env "INFO"
           ("Collection analysis complete: " ++ coll)
           (ExtraAnalysis coll cnt (orDefault (Some (Z.of_nat (length (fields sch)))) 0))) ;;
      match logged with
      | inl error => handler infos error
      | inr _ => ret infos
      end
  end.

Fixpoint analyzeCollections (client : FetchPayloadClient.t)
  (fileManager : FileManager.t) (env : string) (colls : list string)
  (collectionInfos : list CollectionInfo) : M W (list CollectionInfo) :=
  match colls with
  | [] => ret collectionInfos
  | coll :: rest =>
      infos <- analyzeCollection client fileManager env collectionInfos coll ;;
      analyzeCollections client fileManager env rest infos
  end.

Definition discoverCollections (client : FetchPayloadClient.t)
  (fileManager : FileManager.t) (env : string) : M W (list CollectionInfo) :=
  try_catch
    (colls <- FetchPayloadClient.discoverCollections os client ;;
     FileManager.addLog os penv fileManager env "INFO"
       ("Discovered " ++ string_of_Z (Z.of_nat (length colls)) ++ " collections")
       (ExtraCollections colls) ;;;
     analyzeCollections client fileManager env colls [])
    (fun error => throw error).

Definition backupCollection (fuel : nat) (client : FetchPayloadClient.t)
  (fileManager : FileManager.t) (env : string) (collectionInfo : CollectionInfo)
  : M W bool :=
  let coll := name collectionInfo in
  if is_zero (count collectionInfo) then ret true
  else
    try_catch
      (data <- FetchPayloadClient.getAllCollectionData os penv fuel client coll
                 FetchPayloadClient.Options.empty ;;
       FileManager.saveCollectionData os fileManager env coll data ;;;
       FileManager.saveCollectionSchema os penv fileManager env coll
         (schema collectionInfo) ;;;
       modify_stats (add_totalRecords (Z.of_nat (length data))) ;;;
       modify_stats (add_successfulCollections 1) ;;;
       FileManager.addLog os penv fileManager env "INFO"
         ("Collection backup successful: " ++ coll)
         (ExtraBackedUp coll (Z.of_nat (length data)) (count collectionInfo)) ;;;
       ret true)
      (fun error =>
         modify_stats (add_failedCollections 1) ;;;
         modify_stats (push_errors (mkEntry (Some coll) "backup" (message error))) ;;;
         FileManager.addLog os penv fileManager env "ERROR"
           ("Collection backup failed: " ++ coll)
           (ExtraError coll (message error)) ;;;
         ret false).

Definition getBackupResult (env : string) (fileManager : option FileManager.t)
  (colls : list CollectionInfo) : M W BackupResult :=
  st <- get_stats ;;
  ret {| success := (failedCollections st =? 0)
                    && (length (errors st) =? 0)%nat;
         environment := env;
         backupPath := match fileManager with
                       | Some fm => Some (FileManager.getBackupDir fm env)
                       | None => None
                       end;
         statistics := st;
         collections :=
           map (fun col =>
                  mkCollectionResult (name col) (count col)
                    (negb (existsb (names_collection (name col)) (errors st))))
               colls |}.

Definition generateFinalReport (env : string) (fileManager : FileManager.t)
  (colls : list CollectionInfo) : M W BackupResult :=
  d <- now os ;;
  modify_stats (set_endTime d) ;;;
  st <- get_stats ;;
  let duration := ms d - match startTime st with
                         | Some d0 => ms d0
                         | None => 0
                         end in
  let metadata :=
    {| meta_environment := env;
       meta_collections :=
         map (fun col => mkCollectionSummary (name col) (count col) true) colls;
       meta_statistics := st;
       meta_duration := seconds duration |} in
  FileManager.saveMetadata os fileManager env metadata ;;;
  FileManager.generateSummary os fileManager env colls (totalRecords st)
    (seconds duration) ;;;
  getBackupResult env (Some fileManager) colls.

Fixpoint backupCollections (fuel : nat) (client : FetchPayloadClient.t)
  (fileManager : FileManager.t) (env : string) (colls : list CollectionInfo)
  : M W unit :=
  match colls with
  | [] => ret tt
  | col :: rest =>
      backupCollection fuel client fileManager env col ;;;
      backupCollections fuel client fileManager env rest
  end.

Definition performBackup (fuel : nat) (env : string) : M W BackupResult :=
  d <- now os ;;
  modify_stats (set_startTime d) ;;;
  try_catch
    (cfg <- lift (Config.getEnvConfig penv env) ;;
     client <- lift (FetchPayloadClient.constructor penv cfg) ;;
     fileManager <- FileManager.constructor os penv ;;
     isConnected <- validateConnection client ;;
     if negb isConnected
     then throw (Error "API connection failed, cannot continue backup")
     else
       _ <- FileManager.createBackupStructure os penv fileManager env ;;
       colls <- discoverCollections client fileManager env ;;
       modify_stats (set_totalCollections (Z.of_nat (length colls))) ;;;
       if (length colls =? 0)%nat
       then getBackupResult env (Some fileManager) colls
       else
         backupCollections fuel client fileManager env colls ;;;
         generateFinalReport env fileManager colls)
    (fun error =>
       modify_stats (push_errors (mkEntry None "general" (message error))) ;;;
       getBackupResult env None []).

End Operations.

End BackupService.


(* ================================================================== *)
(** * utils/testConnection.js *)

Module TestConnection.

Section Operations.
Context {W : Type} (os : World W) (penv : Config.ProcessEnv).

(** The [for] loop over [collections.slice(0, 5)]: each count is asked for
    and printed, a failure is printed instead. *)
Fixpoint probeCounts (client : FetchPayloadClient.t) (colls : list string)
  : M W unit :=
  match colls with
  | [] => ret tt
  | coll :: rest =>
      try_catch
        (FetchPayloadClient.getCollectionCount os client coll ;;; ret tt)
        (fun _ => ret tt) ;;;
      probeCounts client rest
  end.

Definition testConnection (env : string) : M W bool :=
  try_catch
    (cfg <- lift (Config.getEnvConfig penv env) ;;
     client <- lift (FetchPayloadClient.constructor penv cfg) ;;
     access <- FetchPayloadClient.getAccess os client ;;
     _ <- lift (FetchPayloadClient.member access "canAccessAdmin"
                  (fun o => Some (canAccessAdmin o)) None) ;;
     cs <- lift (FetchPayloadClient.member access "collections"
                   access_collections None) ;;
     let colls := default cs [] in
     (if (0 <? length colls)%nat
      then probeCounts client (firstn 5 colls)
      else ret tt) ;;;
     ret true)
    (fun _ => ret false).

End Operations.

End TestConnection.

(* ================================================================== *)
(** * index.js *)

Module Index.

(** What [parseArguments] comes to: the help flag, an environment, or the
    end of the process through [process.exit]. *)
Inductive Parsed : Type :=
| ShowHelp
| Environment (env : string)
| Exited (code : Z).

(** Truthiness of [CONFIG[env]]: an entry of [CONFIG], or a member every
    object inherits. *)
Definition config_entry (penv : Config.ProcessEnv) (env : string) : bool :=
  match Config.lookup env (Config.CONFIG penv) with
  | Some _ => true
  | None => existsb (String.eqb env) Config.inherited_names
  end.

(** [args] is [process.argv.slice(2)]. *)
Definition parseArguments (penv : Config.ProcessEnv) (args : list string)
  : Parsed :=
  if existsb (String.eqb "--help") args || existsb (String.eqb "-h") args
  then ShowHelp
  else
    let env := match args with
               | arg :: _ => if truthy_str (Some arg) then arg else "test"
               | [] => "test"
               end in
    if negb (config_entry penv env) then Exited 1 else Environment env.

(** How [main] ends: with [process.exit(code)], or by returning. *)
Inductive Ending : Type :=
| Exit (code : Z)
| Returned.

(** The status the process ends with: the code given to [process.exit], and
    0 when [main] returns, nothing being left to run and no exit code set. *)
Definition exit_status (ending : Ending) : Z :=
  match ending with
  | Exit code => code
  | Returned => 0
  end.

Section Operations.
Context {W : Type} (os : World W) (penv : Config.ProcessEnv).

(** [main()], run in the state of the instance it creates right before
    [performBackup] (creating it touches nothing outside). *)
Definition main (fuel : nat) (args : list string) : M W Ending :=
  try_catch
    (match parseArguments penv args with
     | Exited code => ret (Exit code)
     | ShowHelp => ret Returned
     | Environment env =>
         result <- BackupService.performBackup os penv fuel env ;;
         if success result then ret (Exit 0) else ret (Exit 1)
     end)
    (fun _ => ret (Exit 1)).

End Operations.

End Index.
(* ================================================================== *)
(** * Vocabulary of the properties *)

(** Every run of [m] relates the state before to the state after by [R],
    whatever the outcome. *)
Definition steps {W A : Type} (R : State W -> State W -> Prop) (m : M W A)
  : Prop :=
  forall s, R s (snd (m s)).

(** Whenever [m] returns, [Q] holds of the value and the final state. *)
Definition returns {W A : Type} (Q : A -> State W -> Prop) (m : M W A) : Prop :=
  forall s a s', m s = (Ret a, s') -> Q a s'.

Definition never_throws {W A : Type} (m : M W A) : Prop :=
  forall s e s', m s <> (Throw e, s').

Definition never_diverges {W A : Type} (m : M W A) : Prop :=
  forall s s', m s <> (Diverge, s').

(** The statistics are left as they were. *)
Definition same_stats {W : Type} (s s' : State W) : Prop :=
  stats s' = stats s.

(** The counters have not decreased and the errors have only been added to. *)
Definition stats_le (a b : BackupStats) : Prop :=
  totalRecords a <= totalRecords b
  /\ successfulCollections a <= successfulCollections b
  /\ failedCollections a <= failedCollections b
  /\ exists added, errors b = (errors a ++ added)%list.

Definition grows {W : Type} (s s' : State W) : Prop :=
  stats_le (stats s) (stats s').

(** The success flag of a result against its statistics. *)
Definition success_matches (r : BackupResult) : Prop :=
  success r = true <->
  failedCollections (statistics r) = 0 /\ length (errors (statistics r)) = 0%nat.

(** A relation between states that only looks at the statistics, and is
    transitive. *)
Record stats_order {W : Type} (R : State W -> State W -> Prop) : Prop := {
  so_frame : forall s s', stats s' = stats s -> R s s';
  so_trans : forall a b c, R a b -> R b c -> R a c
}.

(** Case analysis on the outcome of the run a goal is stuck on. *)
Ltac run_cases :=
  match goal with
  | |- context [match ?m ?s with _ => _ end] =>
      let E := fresh "E" in
      destruct (m s) as [[?|?|] ?] eqn:E
  end.

(** A result reports the statistics of the state it is returned in. *)
Definition reflects_stats {W : Type} (r : BackupResult) (s : State W) : Prop :=
  success_matches r /\ statistics r = stats s.

(** The state with its statistics changed by [f]. *)
Definition with_stats {W : Type} (f : BackupStats -> BackupStats) (s : State W)
  : State W :=
  mkState (f (stats s)) (trace s) (world s).

(** [m] neither reads nor writes the statistics: it runs the same way
    whatever they are. *)
Definition oblivious {W A : Type} (m : M W A) : Prop :=
  forall f s, m (with_stats f s) = (fst (m s), with_stats f (snd (m s))).

(** The pagination of [coll] seen from page [p] and state [s]: the requests
    for pages [p], [p+1], ... are answered one after the other, each with a
    non-empty [docs] and the sign that more follows, until a request fails.
    [pages] lists the [docs] of the pages retrieved before the failure and
    [s'] is the state once the failing request has been answered. *)
Inductive pages_until_failure {W : Type} (os : World W)
  (penv : Config.ProcessEnv) (client : FetchPayloadClient.t) (coll : string)
  (options : FetchPayloadClient.Options.t)
  : Z -> State W -> list (list Json) -> State W -> Prop :=
| PageFails (p : Z) (s s' : State W) (e : Exn) :
    FetchPayloadClient.getCollectionData os penv client coll
      (FetchPayloadClient.Options.with_page options p) s = (Throw e, s') ->
    pages_until_failure os penv client coll options p s [] s'
| PageRetrieved (p : Z) (s s1 s' : State W) (o : RespObj) (doc : Json)
    (rest : list Json) (pages : list (list Json)) :
    FetchPayloadClient.getCollectionData os penv client coll
      (FetchPayloadClient.Options.with_page options p) s = (Ret (PObject o), s1) ->
    docs o = Some (doc :: rest) ->
    FetchPayloadClient.more_pages (hasNextPage o) (nextPage o) p = true ->
    pages_until_failure os penv client coll options (p + 1) s1 pages s' ->
    pages_until_failure os penv client coll options p s
      ((doc :: rest) :: pages) s'.

(** The state in which [performBackup], started in [s], calls
    [validateConnection]: the start time is recorded and the file manager
    constructed. *)
Definition at_validation {W : Type} (os : World W) (penv : Config.ProcessEnv)
  (s : State W) : State W :=
  snd ((d <- now os ;;
        modify_stats (BackupService.set_startTime d) ;;;
        FileManager.constructor os penv) s).

(** The log of the backup can be written: creating its directory and
    appending a line to it succeed whenever they are asked for. *)
Definition log_writes_succeed {W : Type} (os : World W) (fm : FileManager.t)
  (env : string) : Prop :=
  forall w,
    fst (fsop os w (EnsureDir (FileManager.dirname (FileManager.getLogPath fm env))))
    = None
    /\ forall line,
         fst (fsop os w (AppendFile (FileManager.getLogPath fm env) line)) = None.

(** The count probe of [coll] throws, or returns, whenever it is made. *)
Definition count_throws {W : Type} (os : World W) (client : FetchPayloadClient.t)
  (coll : string) : Prop :=
  forall s, exists e s',
    FetchPayloadClient.getCollectionCount os client coll s = (Throw e, s').

Definition count_returns {W : Type} (os : World W) (client : FetchPayloadClient.t)
  (coll : string) : Prop :=
  forall s, exists n s',
    FetchPayloadClient.getCollectionCount os client coll s = (Ret n, s').

(** The request of the schema probe of [coll] (one document of page 1)
    fails whenever it is made. *)
Definition schema_request_fails {W : Type} (os : World W)
  (penv : Config.ProcessEnv) (client : FetchPayloadClient.t) (coll : string)
  : Prop :=
  forall s, exists e s',
    FetchPayloadClient.getCollectionData os penv client coll
      (FetchPayloadClient.Options.mk None (Some 1) None None) s = (Throw e, s').

(** The event is a [writeJson] to the file at [p]. *)
Definition writes_to (p : Path) (ev : Event) : bool :=
  match ev with
  | EvFs (WriteJson q _) =>
      if list_eq_dec string_dec p q then true else false
  | _ => false
  end.

(** The URL of the data query [getCollectionData] makes. *)
Definition data_url (penv : Config.ProcessEnv) (client : FetchPayloadClient.t)
  (coll : string) (options : FetchPayloadClient.Options.t) : string :=
  FetchPayloadClient.baseURL client ++ "/" ++ coll ++ "?"
  ++ FetchPayloadClient.URLSearchParams
       [ ("page", string_of_Z (default (FetchPayloadClient.Options.page options) 1));
         ("limit", string_of_Z
                     (default (FetchPayloadClient.Options.limit options)
                        (Config.batchSize (Config.RATE_LIMIT_CONFIG penv))));
         ("depth", string_of_Z
                     (default (FetchPayloadClient.Options.depth options) 2));
         ("sort", default (FetchPayloadClient.Options.sort options) "-createdAt") ].

(** The integers JavaScript counts exactly and writes in plain digits. *)
Definition safe_integer (n : Z) : Prop := - 2 ^ 53 < n < 2 ^ 53.

(** The pagination of [coll] seen from page [p] and state [s] when no
    request fails: pages with documents follow one another as long as each
    says that more follows; the end is a page with documents that says
    nothing follows, or a page without documents. [pages] lists the [docs]
    of the pages with documents and [s'] is the state after the last
    request. *)
Inductive pages_until_end {W : Type} (os : World W)
  (penv : Config.ProcessEnv) (client : FetchPayloadClient.t) (coll : string)
  (options : FetchPayloadClient.Options.t)
  : Z -> State W -> list (list Json) -> State W -> Prop :=
| PageIsLast (p : Z) (s s' : State W) (o : RespObj) (doc : Json)
    (rest : list Json) :
    FetchPayloadClient.getCollectionData os penv client coll
      (FetchPayloadClient.Options.with_page options p) s = (Ret (PObject o), s') ->
    docs o = Some (doc :: rest) ->
    FetchPayloadClient.more_pages (hasNextPage o) (nextPage o) p = false ->
    pages_until_end os penv client coll options p s [doc :: rest] s'
| PageIsEmpty (p : Z) (s s' : State W) (payload : Payload) :
    FetchPayloadClient.getCollectionData os penv client coll
      (FetchPayloadClient.Options.with_page options p) s = (Ret payload, s') ->
    (FetchPayloadClient.member payload "docs" docs None = inr None
     \/ FetchPayloadClient.member payload "docs" docs None = inr (Some [])) ->
    pages_until_end os penv client coll options p s [] s'
| PageIsFollowed (p : Z) (s s1 s' : State W) (o : RespObj) (doc : Json)
    (rest : list Json) (pages : list (list Json)) :
    FetchPayloadClient.getCollectionData os penv client coll
      (FetchPayloadClient.Options.with_page options p) s = (Ret (PObject o), s1) ->
    docs o = Some (doc :: rest) ->
    FetchPayloadClient.more_pages (hasNextPage o) (nextPage o) p = true ->
    pages_until_end os penv client coll options (p + 1) s1 pages s' ->
    pages_until_end os penv client coll options p s ((doc :: rest) :: pages) s'.

(** The first document of a decoded body, if it has one. *)
Definition first_doc (payload : Payload) : option Json :=
  match payload with
  | PObject o =>
      match docs o with
      | Some (doc :: _) => Some doc
      | _ => None
      end
  | _ => None
  end.

(** An invariant of the statistics is kept from one state to the other. *)
Definition keeps {W : Type} (I : BackupStats -> Prop) (s s' : State W) : Prop :=
  I (stats s) -> I (stats s').

(** The entry was recorded by the [catch] of [backupCollection]. *)
Definition is_backup_entry (e : ErrorEntry) : bool :=
  String.eqb (phase e) "backup".

(** [failedCollections] counts the entries of phase [backup]. *)
Definition failures_match (st : BackupStats) : Prop :=
  failedCollections st
  = Z.of_nat (length (filter is_backup_entry (errors st))).

(** An entry as the service records them: of phase [discovery] or [backup]
    with the name of a collection, or of phase [general] without one. *)
Definition well_formed_entry (e : ErrorEntry) : Prop :=
  (exists coll, collection e = Some coll
                /\ (phase e = "discovery" \/ phase e = "backup"))
  \/ (collection e = None /\ phase e = "general").

(** What an invariant of the statistics has to survive: each assignment the
    service makes (the two of the [catch] of [backupCollection] together). *)
Record service_invariant (I : BackupStats -> Prop) : Prop := {
  inv_startTime : forall d st, I st -> I (BackupService.set_startTime d st);
  inv_endTime : forall d st, I st -> I (BackupService.set_endTime d st);
  inv_totalCollections :
    forall n st, I st -> I (BackupService.set_totalCollections n st);
  inv_totalRecords :
    forall n st, 0 <= n -> I st -> I (BackupService.add_totalRecords n st);
  inv_successfulCollections :
    forall st, I st -> I (BackupService.add_successfulCollections 1 st);
  inv_failure :
    forall coll msg st,
      I st ->
      I (BackupService.push_errors (mkEntry (Some coll) "backup" msg)
           (BackupService.add_failedCollections 1 st));
  inv_discovery :
    forall coll msg st,
      I st -> I (BackupService.push_errors (mkEntry (Some coll) "discovery" msg) st);
  inv_general :
    forall msg st,
      I st -> I (BackupService.push_errors (mkEntry None "general" msg) st)
}.

(** What [backupCollection] records of a failure: one more failed
    collection and one entry of phase [backup] naming the collection. *)
Definition failure_recorded (coll : string) (st st' : BackupStats) : Prop :=
  failedCollections st' = failedCollections st + 1 /\
  exists msg, errors st' = (errors st ++ [mkEntry (Some coll) "backup" msg])%list.

Definition no_failure_recorded (st st' : BackupStats) : Prop :=
  failedCollections st' = failedCollections st /\ errors st' = errors st.

(** At most one collection is added to the successful ones, with its
    records. *)
Definition at_most_one_success (st st' : BackupStats) : Prop :=
  (successfulCollections st' = successfulCollections st
   /\ totalRecords st' = totalRecords st)
  \/ (successfulCollections st' = successfulCollections st + 1
      /\ totalRecords st <= totalRecords st').

(** From statistics satisfying [P], [m] ends with statistics satisfying
    [Q a] when it returns [a] and [Qx] when it throws or does not end. *)
Definition hoare {W A : Type} (P : BackupStats -> Prop) (m : M W A)
  (Q : A -> BackupStats -> Prop) (Qx : BackupStats -> Prop) : Prop :=
  forall s,
    P (stats s) ->
    match m s with
    | (Ret a, s') => Q a (stats s')
    | (_, s') => Qx (stats s')
    end.

(** No collection has been backed up or has failed yet. *)
Definition nothing_backed_up (st : BackupStats) : Prop :=
  successfulCollections st = 0 /\ failedCollections st = 0
  /\ 0 <= totalCollections st.

(** [n] collections are to be backed up and at most [j] of them have been
    attempted. *)
Definition attempted (n j : Z) (st : BackupStats) : Prop :=
  totalCollections st = n
  /\ 0 <= successfulCollections st <= j /\ 0 <= failedCollections st <= j.

Definition counters_bounded (st : BackupStats) : Prop :=
  0 <= successfulCollections st <= totalCollections st
  /\ 0 <= failedCollections st <= totalCollections st.

(** The result reports the statistics [st], which are bounded, and lists as
    many collections as were counted when it has a path. *)
Definition consistent_result (r : BackupResult) (st : BackupStats) : Prop :=
  statistics r = st /\ counters_bounded st
  /\ (backupPath r <> None ->
      totalCollections st = Z.of_nat (length (collections r))).

(** The result of a run that was aborted: a failure that lists no
    collection and whose last error is the general one. *)
Definition aborted_result (r : BackupResult) : Prop :=
  success r = false /\ collections r = []
  /\ exists prev msg,
       errors (statistics r) = (prev ++ [mkEntry None "general" msg])%list.

Definition result_shape (env : string) (r : BackupResult) : Prop :=
  environment r = env /\ (backupPath r = None -> aborted_result r).

(** The statistics after the entries [es] have been pushed, in order. *)
Definition record_all (es : list ErrorEntry) (st : BackupStats) : BackupStats :=
  fold_left (fun st e => BackupService.push_errors e st) es st.

(** How the names listed by the API are dealt with by the discovery, in
    order: each is kept with what was found of it, or recorded as a
    discovery error, or both. *)
Inductive analysed : list string -> list CollectionInfo -> list ErrorEntry -> Prop :=
| analysed_none : analysed [] [] []
| analysed_kept coll colls cnt sch infos es :
    analysed colls infos es ->
    analysed (coll :: colls)
      (mkInfo coll cnt sch (BackupService.positive cnt) :: infos) es
| analysed_failed coll colls infos es msg :
    analysed colls infos es ->
    analysed (coll :: colls) infos (mkEntry (Some coll) "discovery" msg :: es)
| analysed_both coll colls cnt sch infos es msg :
    analysed colls infos es ->
    analysed (coll :: colls)
      (mkInfo coll cnt sch (BackupService.positive cnt) :: infos)
      (mkEntry (Some coll) "discovery" msg :: es).

(** The state after one [fetch] of [url]. *)
Definition fetched {W : Type} (os : World W) (url : string) (s : State W)
  : State W :=
  mkState (stats s) (trace s ++ [EvFetch url]) (snd (fetch os (world s) url)).

Definition access_url (client : FetchPayloadClient.t) : string :=
  FetchPayloadClient.baseURL client ++ "/access".

Definition count_url (client : FetchPayloadClient.t) (coll : string) : string :=
  FetchPayloadClient.baseURL client ++ "/" ++ coll ++ "/count".

(** The names an access document lists. *)
Definition listed (access : Payload) : list string :=
  match access with
  | PObject o => default (access_collections o) []
  | _ => []
  end.

(** The state after the counts of [colls] have been asked for, one after
    the other. *)
Fixpoint probed {W : Type} (os : World W) (client : FetchPayloadClient.t)
  (colls : list string) (s : State W) : State W :=
  match colls with
  | [] => s
  | coll :: rest =>
      probed os client rest (fetched os (count_url client coll) s)
  end.

(** [args.includes('--help') || args.includes('-h')] *)
Definition wants_help (args : list string) : bool :=
  existsb (String.eqb "--help") args || existsb (String.eqb "-h") args.

(** [args[0] || 'test'] *)
Definition requested_env (args : list string) : string :=
  match args with
  | arg :: _ => if truthy_str (Some arg) then arg else "test"
  | [] => "test"
  end.

(** No request and no call on the file system between [s] and [s']: at
    most the clock has been read. *)
Definition nothing_touched {W : Type} (s s' : State W) : Prop :=
  trace s' = trace s \/ trace s' = (trace s ++ [EvNow])%list.

(* ================================================================== *)
(** * The discovery, as it runs *)

(** The log lines of the discovery are appended: the call of [addLog] made
    in state [s] returns, leaving state [s']. *)
Definition names_logged {W : Type} (os : World W) (penv : Config.ProcessEnv)
  (fm : FileManager.t) (env : string) (colls : list string) (s s' : State W)
  : Prop :=
  FileManager.addLog os penv fm env "INFO"
    ("Discovered " ++ string_of_Z (Z.of_nat (length colls)) ++ " collections")
    (ExtraCollections colls) s = (Ret tt, s').

Definition analysis_logged {W : Type} (os : World W) (penv : Config.ProcessEnv)
  (fm : FileManager.t) (env coll : string) (cnt : option Z)
  (sch : SchemaDescriptor) (s s' : State W) : Prop :=
  FileManager.addLog os penv fm env "INFO"
    ("Collection analysis complete: " ++ coll)
    (ExtraAnalysis coll cnt
       (orDefault (Some (Z.of_nat (length (fields sch)))) 0)) s = (Ret tt, s').

Definition failure_logged {W : Type} (os : World W) (penv : Config.ProcessEnv)
  (fm : FileManager.t) (env coll : string) (e : Exn) (s s' : State W) : Prop :=
  FileManager.addLog os penv fm env "WARN"
    ("Collection analysis failed: " ++ coll)
    (ExtraError coll (message e)) s = (Ret tt, s').

(** The entry recorded for a collection whose analysis threw [e]. *)
Definition discovery_entry (thrown : string * Exn) : ErrorEntry :=
  mkEntry (Some (fst thrown)) "discovery" (message (snd thrown)).

(** The loop of the discovery over [colls], seen from state [s], as the
    world answers it: the count probe of each name, made in the state the
    run has reached, returns or throws. When it returns, the schema probe
    returns a descriptor and the log line of the analysis is appended; when
    it throws, the log line of the failure is appended and the entry
    recorded. [thrown] lists the names whose count probe threw, each with
    the exception, and [s'] is the state at the end. *)
Inductive probes_along {W : Type} (os : World W) (penv : Config.ProcessEnv)
  (client : FetchPayloadClient.t) (fm : FileManager.t) (env : string)
  : list string -> State W -> list (string * Exn) -> State W -> Prop :=
| ProbesDone (s : State W) :
    probes_along os penv client fm env [] s [] s
| ProbeReturns (coll : string) (rest : list string) (s s1 s2 s3 s' : State W)
    (cnt : option Z) (sch : SchemaDescriptor) (thrown : list (string * Exn)) :
    FetchPayloadClient.getCollectionCount os client coll s = (Ret cnt, s1) ->
    FetchPayloadClient.getCollectionSchema os penv client coll s1
    = (Ret sch, s2) ->
    analysis_logged os penv fm env coll cnt sch s2 s3 ->
    probes_along os penv client fm env rest s3 thrown s' ->
    probes_along os penv client fm env (coll :: rest) s thrown s'
| ProbeThrows (coll : string) (rest : list string) (s s1 s2 s' : State W)
    (e : Exn) (thrown : list (string * Exn)) :
    FetchPayloadClient.getCollectionCount os client coll s = (Throw e, s1) ->
    failure_logged os penv fm env coll e s1 s2 ->
    probes_along os penv client fm env rest
      (with_stats (BackupService.push_errors (discovery_entry (coll, e))) s2)
      thrown s' ->
    probes_along os penv client fm env (coll :: rest) s ((coll, e) :: thrown) s'.

(* ================================================================== *)
(** * Worlds to run the program in *)

Module Example.

(** A world given by tables: the answer to a request depends on its URL, the
    outcome of a file-system call on the call and on how many interactions
    came before, which is the state of this world. *)
Record Script : Type := mkScript {
  responses : string -> FetchOutcome;
  fs_result : nat -> FsOp -> option Exn;
  time : nat -> Date
}.

Definition scripted (sc : Script) : World nat :=
  {| fetch := fun n url => (responses sc url, S n);
     fsop := fun n op => (fs_result sc n op, S n);
     clock := fun n => (time sc n, S n) |}.

Definition penv : Config.ProcessEnv :=
  {| Config.TEST_API_BASE := Some "https://cms.test/api";
     Config.TEST_API_KEY := Some "k3y";
     Config.PROD_API_BASE := None;
     Config.PROD_API_KEY := None;
     Config.RATE_LIMIT_CONCURRENCY := None;
     Config.RATE_LIMIT_DELAY := None;
     Config.RATE_LIMIT_BATCH_SIZE := None;
     Config.RATE_LIMIT_TIMEOUT := None;
     Config.BACKUP_OUTPUT_DIR := None;
     Config.BACKUP_DEPTH := None |}.

Definition cfg : Config.EnvConfig :=
  Config.mkEnvConfig "https://cms.test/api" "k3y".

Definition client : FetchPayloadClient.t :=
  FetchPayloadClient.mk cfg "https://cms.test/api" "k3y" 6.

Definition fileManager : FileManager.t :=
  FileManager.mk "./backup" "2024-01-15T14-30-25-000Z".

Definition tick (n : nat) : Date :=
  mkDate (1705329025000 + 1000 * Z.of_nat n) "2024-01-15T14:30:25.000Z".

Definition json_ok (o : RespObj) : FetchOutcome :=
  Resolved (mkResponse 200 "OK" (Some "application/json; charset=utf-8")
              (inr "") (inr (PObject o))).

Definition http_error (code : Z) (reason : string) : FetchOutcome :=
  Resolved (mkResponse code reason (Some "application/json")
              (inr "{}") (inr PNull)).

Definition empty_object : RespObj := mkRespObj false None None None false None.

Definition access_to (colls : list string) : RespObj :=
  mkRespObj true (Some colls) None None false None.

Definition count_of (n : Z) : RespObj :=
  mkRespObj false None (Some n) None false None.

Definition page_of (ds : list Json) (total : Z) (has : bool) (next : option Z)
  : RespObj :=
  mkRespObj false None (Some total) (Some ds) has next.

Definition user (id : Z) (nm : string) : Json :=
  JObj [("id", JNum id); ("name", JStr nm); ("avatar", JNull)].

Definition article (id : Z) : Json := JObj [("id", JNum id)].

(** The API: [users] holds two documents, [posts] none; [articles] holds
    three, in pages of two, and its third page request is reset; [media]
    answers its count and fails every data query; [secret] refuses its count.
    [colls] are the collections the access descriptor lists. *)
Definition api (colls : list string) (url : string) : FetchOutcome :=
  let at_ (path : string) := String.eqb url ("https://cms.test/api" ++ path) in
  if at_ "/access" then json_ok (access_to colls)
  else if at_ "/users/count" then json_ok (count_of 2)
  else if at_ "/users?page=1&limit=1&depth=2&sort=-createdAt"
  then json_ok (page_of [user 1 "ann"] 2 true (Some 2))
  else if at_ "/users?page=1&limit=100&depth=2&sort=-createdAt"
  then json_ok (page_of [user 1 "ann"; user 2 "bob"] 2 false None)
  else if at_ "/posts/count" then json_ok (count_of 0)
  else if at_ "/posts?page=1&limit=1&depth=2&sort=-createdAt"
  then json_ok (page_of [] 0 false None)
  else if at_ "/articles/count" then json_ok (count_of 3)
  else if at_ "/articles?page=1&limit=1&depth=2&sort=-createdAt"
  then json_ok (page_of [article 1] 3 true (Some 2))
  else if at_ "/articles?page=1&limit=100&depth=2&sort=-createdAt"
  then json_ok (page_of [article 1; article 2] 3 true (Some 2))
  else if at_ "/articles?page=2&limit=100&depth=2&sort=-createdAt"
  then json_ok (page_of [article 3] 3 true (Some 3))
  else if at_ "/articles?page=3&limit=100&depth=2&sort=-createdAt"
  then Rejected (mkExn "FetchError" "socket hang up")
  else if at_ "/media/count" then json_ok (count_of 5)
  else if at_ "/media?page=1&limit=1&depth=2&sort=-createdAt"
  then http_error 500 "Internal Server Error"
  else if at_ "/media?page=1&limit=100&depth=2&sort=-createdAt"
  then http_error 500 "Internal Server Error"
  else if at_ "/secret/count" then http_error 403 "Forbidden"
  else http_error 404 "Not Found".

(** Every file-system call succeeds. *)
Definition sound_disk (n : nat) (op : FsOp) : option Exn := None.

(** The disk is full: nothing can be written or appended. *)
Definition full_disk (n : nat) (op : FsOp) : option Exn :=
  match op with
  | EnsureDir _ => None
  | _ => Some (Error "ENOSPC: no space left on device, write")
  end.

(** The file-system call made as interaction number [k] fails. *)
Definition failing_at (k : nat) (n : nat) (op : FsOp) : option Exn :=
  if (n =? k)%nat then Some (Error "EIO: i/o error, write") else None.

(** The data files cannot be written; everything else can. *)
Definition no_data_files (n : nat) (op : FsOp) : option Exn :=
  match op with
  | WriteJson _ (DataFile _ _ _ _) =>
      Some (Error "EACCES: permission denied, open")
  | _ => None
  end.

(** The server cannot be reached. *)
Definition unreachable (url : string) : FetchOutcome :=
  Rejected (mkExn "FetchError" "connect ECONNREFUSED").

Definition online (colls : list string) : World nat :=
  scripted (mkScript (api colls) sound_disk tick).

Definition disk_full : World nat :=
  scripted (mkScript (api ["users"]) full_disk tick).

Definition flaky_disk (k : nat) : World nat :=
  scripted (mkScript (api ["users"]) (failing_at k) tick).

Definition protected_disk : World nat :=
  scripted (mkScript (api ["users"]) no_data_files tick).

Definition offline : World nat :=
  scripted (mkScript unreachable sound_disk tick).

Definition users_info : CollectionInfo :=
  mkInfo "users" (Some 2)
    (mkSchema "users"
       [mkField "id" "number" true; mkField "name" "string" true;
        mkField "avatar" "object" false]
       2 (Some (user 1 "ann")) None)
    true.

Definition posts_info : CollectionInfo :=
  mkInfo "posts" (Some 0) (mkSchema "posts" [] 0 None None) false.

Definition fresh : State nat := BackupService.constructor 0%nat.

End Example.

(** More worlds. *)
Module Worlds.

(** Every request runs into the timeout: [fetch] rejects with the abort. *)
Definition aborted (url : string) : FetchOutcome :=
  Rejected (mkExn "AbortError" "The user aborted a request.").

Definition timing_out : World nat :=
  Example.scripted (Example.mkScript aborted Example.sound_disk Example.tick).

Definition note (id : Z) : Json := JObj [("id", JNum id); ("text", JNull)].

(** [notes] holds five documents in pages of two, the second page pointing
    to the third through [nextPage] alone; [logs] has one page, and says
    more follows, but its second page is empty. *)
Definition paged_api (url : string) : FetchOutcome :=
  let at_ (path : string) := String.eqb url ("https://cms.test/api" ++ path) in
  if at_ "/access"
  then Example.json_ok (Example.access_to ["notes"; "logs"])
  else if at_ "/notes?page=1&limit=100&depth=2&sort=-createdAt"
  then Example.json_ok (Example.page_of [note 1; note 2] 5 true (Some 2))
  else if at_ "/notes?page=2&limit=100&depth=2&sort=-createdAt"
  then Example.json_ok (Example.page_of [note 3; note 4] 5 false (Some 3))
  else if at_ "/notes?page=3&limit=100&depth=2&sort=-createdAt"
  then Example.json_ok (Example.page_of [note 5] 5 false None)
  else if at_ "/notes?page=1&limit=1&depth=2&sort=-createdAt"
  then Example.json_ok (Example.page_of [note 1] 5 true (Some 2))
  else if at_ "/logs?page=1&limit=100&depth=2&sort=-createdAt"
  then Example.json_ok (Example.page_of [note 9] 1 true (Some 2))
  else if at_ "/logs?page=2&limit=100&depth=2&sort=-createdAt"
  then Example.json_ok (Example.page_of [] 1 false None)
  else Example.http_error 404 "Not Found".

Definition paged : World nat :=
  Example.scripted (Example.mkScript paged_api Example.sound_disk Example.tick).

End Worlds.

(** Worlds in which something fails once. *)
Module Gaps.

(** The API lists [users], [secret] and [posts]; the file-system call made
    as interaction number [k] fails. *)
Definition log_gap (k : nat) : World nat :=
  Example.scripted
    (Example.mkScript (Example.api ["users"; "secret"; "posts"])
       (Example.failing_at k) Example.tick).

(** The API lists [users] and [posts]; the count of [posts] is refused when
    it is asked for as interaction number [k], and answered at any other
    time. *)
Definition once_refused (k : nat) : World nat :=
  {| fetch := fun n url =>
       (if ((n =? k)%nat
            && String.eqb url "https://cms.test/api/posts/count")%bool
        then Example.http_error 503 "Service Unavailable"
        else Example.api ["users"; "posts"] url, S n);
     fsop := fun n op => (None, S n);
     clock := fun n => (Example.tick n, S n) |}.

End Gaps.

(* ================================================================== *)
(** * Reasoning about runs *)

Section RunFacts.
Context {W : Type}.
Implicit Types s : State W.

Lemma same_stats_order : stats_order (@same_stats W).
Proof.
  split; unfold same_stats.
  - auto.
  - intros a b c Hab Hbc. congruence.
Qed.

Lemma stats_le_refl st : stats_le st st.
Proof.
  unfold stats_le. repeat split; try lia.
  exists []. now rewrite app_nil_r.
Qed.

Lemma stats_le_trans a b c : stats_le a b -> stats_le b c -> stats_le a c.
Proof.
  intros (H1 & H2 & H3 & l1 & E1) (H4 & H5 & H6 & l2 & E2).
  unfold stats_le. repeat split; try lia.
  exists (l1 ++ l2)%list. now rewrite E2, E1, app_assoc.
Qed.

Lemma grows_order : stats_order (@grows W).
Proof.
  split; unfold grows.
  - intros s s' E. rewrite E. apply stats_le_refl.
  - intros a b c. apply stats_le_trans.
Qed.

Lemma so_refl R : stats_order R -> forall s, R s s.
Proof. intros H s. now apply (so_frame R H). Qed.

Section Steps.
Variable R : State W -> State W -> Prop.
Hypothesis HR : stats_order R.

Lemma steps_ret {A} (a : A) : steps R (ret a).
Proof. intros s. apply (so_refl R HR). Qed.

Lemma steps_throw {A} e : steps R (@throw W A e).
Proof. intros s. apply (so_refl R HR). Qed.

Lemma steps_lift {A} (r : Exn + A) : steps R (lift r).
Proof. destruct r; [apply steps_throw | apply steps_ret]. Qed.

Lemma steps_get_stats : steps R (@get_stats W).
Proof. intros s. apply (so_refl R HR). Qed.

Lemma steps_bind {A B} (m : M W A) (k : A -> M W B) :
  steps R m -> (forall a, steps R (k a)) -> steps R (bind m k).
Proof.
  intros Hm Hk s. unfold bind. specialize (Hm s).
  run_cases; simpl in Hm; auto.
  eapply (so_trans R HR); [exact Hm | apply Hk].
Qed.

Lemma steps_try_catch {A} (m : M W A) h :
  steps R m -> (forall e, steps R (h e)) -> steps R (try_catch m h).
Proof.
  intros Hm Hh s. unfold try_catch. specialize (Hm s).
  run_cases; simpl in Hm; auto.
  eapply (so_trans R HR); [exact Hm | apply Hh].
Qed.

Lemma steps_attempt {A} (m : M W A) : steps R m -> steps R (attempt m).
Proof.
  intros Hm s. unfold attempt. specialize (Hm s).
  run_cases; simpl in Hm; auto.
Qed.

Lemma steps_now (os : World W) : steps R (now os).
Proof.
  intros s. unfold now. destruct (clock os (world s)).
  now apply (so_frame R HR).
Qed.

Lemma steps_do_fetch (os : World W) url : steps R (do_fetch os url).
Proof.
  intros s. unfold do_fetch. destruct (fetch os (world s) url) as [[e|r] w];
    now apply (so_frame R HR).
Qed.

Lemma steps_do_fs (os : World W) op : steps R (do_fs os op).
Proof.
  intros s. unfold do_fs. destruct (fsop os (world s) op) as [[e|] w];
    now apply (so_frame R HR).
Qed.

End Steps.

End RunFacts.

Section Outcomes.
Context {W : Type}.
Implicit Types s : State W.

Lemma returns_bind {A B} (Q : B -> State W -> Prop) (m : M W A) (k : A -> M W B) :
  (forall a, returns Q (k a)) -> returns Q (bind m k).
Proof.
  intros Hk s b s'. unfold bind. run_cases; try discriminate. apply Hk.
Qed.

Lemma returns_try_catch {A} (Q : A -> State W -> Prop) (m : M W A) h :
  returns Q m -> (forall e, returns Q (h e)) -> returns Q (try_catch m h).
Proof.
  intros Hm Hh s a s'. unfold try_catch. specialize (Hm s).
  run_cases; intros H; try discriminate.
  - apply Hm. exact H.
  - eapply Hh. exact H.
Qed.

Lemma returns_throw {A} (Q : A -> State W -> Prop) e : returns Q (throw e).
Proof. intros s a s'. discriminate. Qed.

Lemma never_throws_try_catch {A} (m : M W A) h :
  (forall e, never_throws (h e)) -> never_throws (try_catch m h).
Proof.
  intros Hh s e s'. unfold try_catch. run_cases; try discriminate. apply Hh.
Qed.

Lemma never_throws_bind {A B} (m : M W A) (k : A -> M W B) :
  never_throws m -> (forall a, never_throws (k a)) -> never_throws (bind m k).
Proof.
  intros Hm Hk s e s'. unfold bind. specialize (Hm s).
  run_cases; try discriminate.
  - apply Hk.
  - intros H. injection H as -> ->. eapply Hm. reflexivity.
Qed.

Lemma never_diverges_ret {A} (a : A) : never_diverges (@ret W A a).
Proof. intros s s'. discriminate. Qed.

Lemma never_diverges_throw {A} e : never_diverges (@throw W A e).
Proof. intros s s'. discriminate. Qed.

Lemma never_diverges_lift {A} (r : Exn + A) : never_diverges (@lift W A r).
Proof. destruct r; [apply never_diverges_throw | apply never_diverges_ret]. Qed.

Lemma never_diverges_modify f : never_diverges (@modify_stats W f).
Proof. intros s s'. discriminate. Qed.

Lemma never_diverges_get_stats : never_diverges (@get_stats W).
Proof. intros s s'. discriminate. Qed.

Lemma never_diverges_bind {A B} (m : M W A) (k : A -> M W B) :
  never_diverges m -> (forall a, never_diverges (k a)) ->
  never_diverges (bind m k).
Proof.
  intros Hm Hk s s'. unfold bind. specialize (Hm s).
  run_cases; try discriminate.
  - apply Hk.
  - intros H. injection H as ->. eapply Hm. reflexivity.
Qed.

Lemma never_diverges_try_catch {A} (m : M W A) h :
  never_diverges m -> (forall e, never_diverges (h e)) ->
  never_diverges (try_catch m h).
Proof.
  intros Hm Hh s s'. unfold try_catch. specialize (Hm s).
  run_cases; try discriminate.
  - apply Hh.
  - intros H. injection H as ->. eapply Hm. reflexivity.
Qed.

Lemma never_diverges_attempt {A} (m : M W A) :
  never_diverges m -> never_diverges (attempt m).
Proof.
  intros Hm s s'. unfold attempt. specialize (Hm s).
  run_cases; try discriminate.
  intros H. injection H as ->. eapply Hm. reflexivity.
Qed.

Lemma never_diverges_now (os : World W) : never_diverges (now os).
Proof. intros s s'. unfold now. destruct (clock os (world s)). discriminate. Qed.

Lemma never_diverges_do_fetch (os : World W) url :
  never_diverges (do_fetch os url).
Proof.
  intros s s'. unfold do_fetch.
  destruct (fetch os (world s) url) as [[e|r] w]; discriminate.
Qed.

Lemma never_diverges_do_fs (os : World W) op : never_diverges (do_fs os op).
Proof.
  intros s s'. unfold do_fs.
  destruct (fsop os (world s) op) as [[e|] w]; discriminate.
Qed.

(** What a run that neither throws nor diverges is left with. *)
Lemma returns_or_throws {A} (m : M W A) s :
  never_diverges m ->
  (exists a s', m s = (Ret a, s')) \/ (exists e s', m s = (Throw e, s')).
Proof.
  intros Hm. destruct (m s) as [[a|e|] s'] eqn:E.
  - left. eauto.
  - right. eauto.
  - exfalso. eapply Hm. exact E.
Qed.

End Outcomes.

Ltac nd_tac :=
  repeat first
    [ apply never_diverges_bind | apply never_diverges_try_catch
    | apply never_diverges_attempt | apply never_diverges_ret
    | apply never_diverges_throw | apply never_diverges_lift
    | apply never_diverges_now | apply never_diverges_do_fetch
    | apply never_diverges_do_fs | apply never_diverges_modify
    | apply never_diverges_get_stats
    | match goal with
      | |- forall _, _ => intro
      | |- never_diverges (if ?b then _ else _) => destruct b
      | |- never_diverges (match ?x with _ => _ end) => destruct x
      end ].

(* ================================================================== *)
(** * The client and the file manager leave the statistics alone *)

Ltac steps_tac HR :=
  repeat first
    [ apply (steps_bind _ HR) | apply (steps_try_catch _ HR)
    | apply steps_attempt | apply (steps_ret _ HR)
    | apply (steps_throw _ HR) | apply (steps_lift _ HR)
    | apply (steps_now _ HR) | apply (steps_do_fetch _ HR)
    | apply (steps_do_fs _ HR) | apply (steps_get_stats _ HR)
    | match goal with
      | |- forall _, _ => intro
      | |- steps _ (if ?b then _ else _) => destruct b
      | |- steps _ (match ?x with _ => _ end) => destruct x
      end ].

Section Frames.
Context {W : Type} (os : World W) (penv : Config.ProcessEnv).
Variable R : State W -> State W -> Prop.
Hypothesis HR : stats_order R.

Lemma steps_fm_constructor : steps R (FileManager.constructor os penv).
Proof. unfold FileManager.constructor. steps_tac HR. Qed.

Lemma steps_saveCollectionData fm env coll data :
  steps R (FileManager.saveCollectionData os fm env coll data).
Proof.
  unfold FileManager.saveCollectionData, FileManager.ensureDir. steps_tac HR.
Qed.

Lemma steps_saveCollectionSchema fm env coll sch :
  steps R (FileManager.saveCollectionSchema os penv fm env coll sch).
Proof.
  unfold FileManager.saveCollectionSchema, FileManager.ensureDir. steps_tac HR.
Qed.

Lemma steps_saveMetadata fm env metadata :
  steps R (FileManager.saveMetadata os fm env metadata).
Proof.
  unfold FileManager.saveMetadata, FileManager.ensureDir. steps_tac HR.
Qed.

Lemma steps_addLog fm env lvl msg ex :
  steps R (FileManager.addLog os penv fm env lvl msg ex).
Proof. unfold FileManager.addLog, FileManager.ensureDir. steps_tac HR. Qed.

Lemma steps_createBackupStructure fm env :
  steps R (FileManager.createBackupStructure os penv fm env).
Proof.
  unfold FileManager.createBackupStructure, FileManager.ensureDir.
  steps_tac HR.
Qed.

Lemma steps_generateSummary fm env colls total duration :
  steps R (FileManager.generateSummary os fm env colls total duration).
Proof. unfold FileManager.generateSummary. steps_tac HR. Qed.

Lemma steps_request cl path : steps R (FetchPayloadClient.request os cl path).
Proof. unfold FetchPayloadClient.request. steps_tac HR. Qed.

Lemma steps_limitedRequest {A} (m : M W A) :
  steps R m -> steps R (FetchPayloadClient.limitedRequest m).
Proof.
  intros Hm. unfold FetchPayloadClient.limitedRequest, FetchPayloadClient.delay.
  steps_tac HR. exact Hm.
Qed.

Lemma steps_getAccess cl : steps R (FetchPayloadClient.getAccess os cl).
Proof.
  unfold FetchPayloadClient.getAccess.
  apply steps_limitedRequest, steps_request.
Qed.

Lemma steps_client_discoverCollections cl :
  steps R (FetchPayloadClient.discoverCollections os cl).
Proof.
  unfold FetchPayloadClient.discoverCollections.
  apply (steps_try_catch _ HR); [| steps_tac HR].
  apply (steps_bind _ HR); [apply steps_getAccess | steps_tac HR].
Qed.

Lemma steps_getCollectionCount cl coll :
  steps R (FetchPayloadClient.getCollectionCount os cl coll).
Proof.
  unfold FetchPayloadClient.getCollectionCount.
  apply steps_limitedRequest.
  apply (steps_bind _ HR); [apply steps_request | steps_tac HR].
Qed.

Lemma steps_getCollectionData cl coll options :
  steps R (FetchPayloadClient.getCollectionData os penv cl coll options).
Proof.
  unfold FetchPayloadClient.getCollectionData.
  apply steps_limitedRequest, steps_request.
Qed.

Lemma steps_getAllCollectionData_loop fuel cl coll options :
  forall allDocs currentPage,
    steps R (FetchPayloadClient.getAllCollectionData_loop os penv fuel cl coll
               options allDocs currentPage).
Proof.
  induction fuel as [|fuel IH]; intros allDocs currentPage; simpl.
  - intros s. apply (so_refl R HR).
  - apply (steps_bind _ HR).
    + apply (steps_try_catch _ HR); [| steps_tac HR].
      apply (steps_bind _ HR); [apply steps_getCollectionData | steps_tac HR].
    + intros [[docs' hasNext] page']. destruct hasNext.
      * apply IH.
      * apply (steps_ret _ HR).
Qed.

Lemma steps_getAllCollectionData fuel cl coll options :
  steps R (FetchPayloadClient.getAllCollectionData os penv fuel cl coll options).
Proof. apply steps_getAllCollectionData_loop. Qed.

Lemma steps_getCollectionSchema cl coll :
  steps R (FetchPayloadClient.getCollectionSchema os penv cl coll).
Proof.
  unfold FetchPayloadClient.getCollectionSchema.
  apply (steps_try_catch _ HR); [| steps_tac HR].
  apply (steps_bind _ HR); [apply steps_getCollectionData | steps_tac HR].
Qed.

End Frames.

(* ================================================================== *)
(** * Everything but pagination comes to an end *)

Section Termination.
Context {W : Type} (os : World W) (penv : Config.ProcessEnv).

Lemma never_diverges_addLog fm env lvl msg ex :
  never_diverges (FileManager.addLog os penv fm env lvl msg ex).
Proof. unfold FileManager.addLog, FileManager.ensureDir. nd_tac. Qed.

Lemma never_diverges_request cl path :
  never_diverges (FetchPayloadClient.request os cl path).
Proof. unfold FetchPayloadClient.request. nd_tac. Qed.

Lemma never_diverges_getAccess cl :
  never_diverges (FetchPayloadClient.getAccess os cl).
Proof.
  unfold FetchPayloadClient.getAccess, FetchPayloadClient.limitedRequest,
    FetchPayloadClient.delay.
  apply never_diverges_bind; [nd_tac | intro; apply never_diverges_request].
Qed.

Lemma never_diverges_getCollectionCount cl coll :
  never_diverges (FetchPayloadClient.getCollectionCount os cl coll).
Proof.
  unfold FetchPayloadClient.getCollectionCount,
    FetchPayloadClient.limitedRequest, FetchPayloadClient.delay.
  apply never_diverges_bind; [nd_tac | intro].
  apply never_diverges_bind; [apply never_diverges_request | nd_tac].
Qed.

Lemma never_diverges_getCollectionData cl coll options :
  never_diverges (FetchPayloadClient.getCollectionData os penv cl coll options).
Proof.
  unfold FetchPayloadClient.getCollectionData,
    FetchPayloadClient.limitedRequest, FetchPayloadClient.delay.
  apply never_diverges_bind; [nd_tac | intro; apply never_diverges_request].
Qed.

(** [getCollectionSchema] returns a descriptor whatever happens: it never
    throws. *)
Lemma getCollectionSchema_returns cl coll s :
  exists sch s',
    FetchPayloadClient.getCollectionSchema os penv cl coll s = (Ret sch, s').
Proof.
  unfold FetchPayloadClient.getCollectionSchema, try_catch.
  match goal with |- context [match ?m s with _ => _ end] =>
    destruct (m s) as [[sch|e|] s'] eqn:E end.
  - eauto.
  - unfold ret. eauto.
  - exfalso. revert E.
    apply never_diverges_bind; [apply never_diverges_getCollectionData |].
    nd_tac.
Qed.

Lemma never_diverges_client_discoverCollections cl :
  never_diverges (FetchPayloadClient.discoverCollections os cl).
Proof.
  unfold FetchPayloadClient.discoverCollections.
  apply never_diverges_try_catch; [| nd_tac].
  apply never_diverges_bind; [apply never_diverges_getAccess | nd_tac].
Qed.

(** [validateConnection] answers with a boolean whatever happens. *)
Lemma validateConnection_returns cl s :
  exists b s', BackupService.validateConnection os cl s = (Ret b, s').
Proof.
  unfold BackupService.validateConnection, try_catch.
  match goal with |- context [match ?m s with _ => _ end] =>
    destruct (m s) as [[b|e|] s'] eqn:E end.
  - eauto.
  - unfold ret. eauto.
  - exfalso. revert E.
    apply never_diverges_bind; [apply never_diverges_getAccess | nd_tac].
Qed.

End Termination.

(* ================================================================== *)
(** * The orchestrator and its statistics *)

Ltac frame_lemma :=
  first
    [ apply steps_addLog | apply steps_saveCollectionData
    | apply steps_saveCollectionSchema | apply steps_saveMetadata
    | apply steps_generateSummary | apply steps_createBackupStructure
    | apply steps_fm_constructor | apply steps_getAccess
    | apply steps_client_discoverCollections | apply steps_getCollectionCount
    | apply steps_getCollectionSchema | apply steps_getAllCollectionData ];
  solve [ assumption | apply grows_order | apply same_stats_order ].

Section ServiceFacts.
Context {W : Type} (os : World W) (penv : Config.ProcessEnv).
Implicit Types s : State W.

Lemma steps_modify_grows f :
  (forall st, stats_le st (f st)) -> steps (@grows W) (modify_stats f).
Proof. intros Hf s. apply Hf. Qed.

Lemma stats_le_set_startTime d st : stats_le st (BackupService.set_startTime d st).
Proof.
  unfold stats_le; simpl. repeat split; try lia.
  exists []. now rewrite app_nil_r.
Qed.

Lemma stats_le_set_endTime d st : stats_le st (BackupService.set_endTime d st).
Proof.
  unfold stats_le; simpl. repeat split; try lia.
  exists []. now rewrite app_nil_r.
Qed.

Lemma stats_le_set_totalCollections n st :
  stats_le st (BackupService.set_totalCollections n st).
Proof.
  unfold stats_le; simpl. repeat split; try lia.
  exists []. now rewrite app_nil_r.
Qed.

Lemma stats_le_add_totalRecords n st :
  0 <= n -> stats_le st (BackupService.add_totalRecords n st).
Proof.
  intros Hn. unfold stats_le; simpl. repeat split; try lia.
  exists []. now rewrite app_nil_r.
Qed.

Lemma stats_le_add_successfulCollections st :
  stats_le st (BackupService.add_successfulCollections 1 st).
Proof.
  unfold stats_le; simpl. repeat split; try lia.
  exists []. now rewrite app_nil_r.
Qed.

Lemma stats_le_add_failedCollections st :
  stats_le st (BackupService.add_failedCollections 1 st).
Proof.
  unfold stats_le; simpl. repeat split; try lia.
  exists []. now rewrite app_nil_r.
Qed.

Lemma stats_le_push_errors e st : stats_le st (BackupService.push_errors e st).
Proof.
  unfold stats_le; simpl. repeat split; try lia. now exists [e].
Qed.

Ltac grows_tac :=
  repeat first
    [ frame_lemma
    | apply (steps_bind _ grows_order) | apply (steps_try_catch _ grows_order)
    | apply steps_attempt | apply (steps_ret _ grows_order)
    | apply (steps_throw _ grows_order) | apply (steps_lift _ grows_order)
    | apply (steps_now _ grows_order) | apply (steps_get_stats _ grows_order)
    | apply steps_modify_grows; intro;
      first [ apply stats_le_set_startTime | apply stats_le_set_endTime
            | apply stats_le_set_totalCollections
            | apply stats_le_add_totalRecords; lia
            | apply stats_le_add_successfulCollections
            | apply stats_le_add_failedCollections
            | apply stats_le_push_errors ]
    | match goal with
      | |- forall _, _ => intro
      | |- steps _ (if ?b then _ else _) => destruct b
      | |- steps _ (match ?x with _ => _ end) => destruct x
      end ].

Lemma grows_validateConnection cl :
  steps grows (BackupService.validateConnection os cl).
Proof. unfold BackupService.validateConnection. grows_tac. Qed.

Lemma grows_analyzeCollection cl fm env infos coll :
  steps grows (BackupService.analyzeCollection os penv cl fm env infos coll).
Proof. unfold BackupService.analyzeCollection. grows_tac. Qed.

Lemma grows_analyzeCollections cl fm env colls :
  forall infos,
    steps grows (BackupService.analyzeCollections os penv cl fm env colls infos).
Proof.
  induction colls as [|coll rest IH]; intros infos; simpl.
  - grows_tac.
  - apply (steps_bind _ grows_order); [apply grows_analyzeCollection | apply IH].
Qed.

Lemma grows_discoverCollections cl fm env :
  steps grows (BackupService.discoverCollections os penv cl fm env).
Proof.
  unfold BackupService.discoverCollections.
  apply (steps_try_catch _ grows_order); [| grows_tac].
  apply (steps_bind _ grows_order); [grows_tac | intro].
  apply (steps_bind _ grows_order); [grows_tac | intro].
  apply grows_analyzeCollections.
Qed.

Lemma grows_backupCollection fuel cl fm env info :
  steps grows (BackupService.backupCollection os penv fuel cl fm env info).
Proof. unfold BackupService.backupCollection. grows_tac. Qed.

Lemma grows_backupCollections fuel cl fm env colls :
  steps grows (BackupService.backupCollections os penv fuel cl fm env colls).
Proof.
  induction colls as [|col rest IH]; simpl.
  - grows_tac.
  - apply (steps_bind _ grows_order); [apply grows_backupCollection | intro; apply IH].
Qed.

Lemma grows_getBackupResult env fm colls :
  steps grows (@BackupService.getBackupResult W env fm colls).
Proof. unfold BackupService.getBackupResult. grows_tac. Qed.

Lemma grows_generateFinalReport env fm colls :
  steps grows (BackupService.generateFinalReport os env fm colls).
Proof.
  unfold BackupService.generateFinalReport, BackupService.getBackupResult.
  grows_tac.
Qed.

(** No run of [performBackup] lowers a counter or drops an error entry:
    the statistics are initialised by the constructor alone. *)
Lemma grows_performBackup fuel env :
  steps grows (BackupService.performBackup os penv fuel env).
Proof.
  unfold BackupService.performBackup.
  apply (steps_bind _ grows_order); [grows_tac | intro].
  apply (steps_bind _ grows_order); [grows_tac | intro].
  apply (steps_try_catch _ grows_order).
  - do 3 (apply (steps_bind _ grows_order); [grows_tac | intro]).
    apply (steps_bind _ grows_order); [apply grows_validateConnection | intro].
    destruct (negb _); [grows_tac |].
    apply (steps_bind _ grows_order); [grows_tac | intro].
    apply (steps_bind _ grows_order); [apply grows_discoverCollections | intro].
    apply (steps_bind _ grows_order); [grows_tac | intro].
    destruct (_ =? _)%nat; [apply grows_getBackupResult |].
    apply (steps_bind _ grows_order); [apply grows_backupCollections | intro].
    apply grows_generateFinalReport.
  - intro. apply (steps_bind _ grows_order); [grows_tac | intro].
    apply grows_getBackupResult.
Qed.

Lemma success_flag st :
  (failedCollections st =? 0) && (length (errors st) =? 0)%nat = true <->
  failedCollections st = 0 /\ length (errors st) = 0%nat.
Proof. now rewrite andb_true_iff, Z.eqb_eq, Nat.eqb_eq. Qed.

Lemma getBackupResult_reflects env fm colls :
  returns reflects_stats (@BackupService.getBackupResult W env fm colls).
Proof.
  intros s r s' H. unfold BackupService.getBackupResult in H.
  cbv [bind get_stats ret] in H. injection H as <- <-.
  split; [| reflexivity].
  unfold success_matches; simpl. apply success_flag.
Qed.

Lemma generateFinalReport_reflects env fm colls :
  returns reflects_stats (BackupService.generateFinalReport os env fm colls).
Proof.
  unfold BackupService.generateFinalReport.
  do 5 (apply returns_bind; intro).
  apply getBackupResult_reflects.
Qed.

Lemma performBackup_reflects fuel env :
  returns reflects_stats (BackupService.performBackup os penv fuel env).
Proof.
  unfold BackupService.performBackup.
  do 2 (apply returns_bind; intro).
  apply returns_try_catch.
  - do 4 (apply returns_bind; intro).
    destruct (negb _); [apply returns_throw |].
    do 3 (apply returns_bind; intro).
    destruct (_ =? _)%nat; [apply getBackupResult_reflects |].
    apply returns_bind; intro. apply generateFinalReport_reflects.
  - intro. apply returns_bind; intro. apply getBackupResult_reflects.
Qed.

(** The top-level [catch] lets nothing out. *)
Lemma performBackup_never_throws fuel env :
  never_throws (BackupService.performBackup os penv fuel env).
Proof.
  unfold BackupService.performBackup.
  apply never_throws_bind.
  { intros s e s'. unfold now. destruct (clock os (world s)). discriminate. }
  intro. apply never_throws_bind.
  { intros s e s'. discriminate. }
  intro. apply never_throws_try_catch. intro.
  apply never_throws_bind.
  { intros s e' s'. discriminate. }
  intro. intros s e' s'. unfold BackupService.getBackupResult.
  cbv [bind get_stats ret]. discriminate.
Qed.

End ServiceFacts.

(* ================================================================== *)
(** * The file manager does not look at the statistics *)

Section Oblivious.
Context {W : Type} (os : World W) (penv : Config.ProcessEnv).

Lemma oblivious_ret {A} (a : A) : oblivious (@ret W A a).
Proof. intros f s. reflexivity. Qed.

Lemma oblivious_bind {A B} (m : M W A) (k : A -> M W B) :
  oblivious m -> (forall a, oblivious (k a)) -> oblivious (bind m k).
Proof.
  intros Hm Hk f s. unfold bind. rewrite Hm.
  destruct (m s) as [[a|e|] s']; simpl; auto. apply Hk.
Qed.

Lemma oblivious_now : oblivious (now os).
Proof.
  intros f s. unfold now, with_stats; simpl.
  destruct (clock os (world s)). reflexivity.
Qed.

Lemma oblivious_do_fs op : oblivious (do_fs os op).
Proof.
  intros f s. unfold do_fs, with_stats; simpl.
  destruct (fsop os (world s) op) as [[e|] w]; reflexivity.
Qed.

Lemma oblivious_addLog fm env lvl msg ex :
  oblivious (FileManager.addLog os penv fm env lvl msg ex).
Proof.
  unfold FileManager.addLog, FileManager.ensureDir.
  destruct (negb _); [apply oblivious_ret |].
  apply oblivious_bind; [apply oblivious_do_fs | intro].
  apply oblivious_bind; [apply oblivious_now | intro].
  apply oblivious_do_fs.
Qed.

End Oblivious.

(* ================================================================== *)
(** * The result of a run *)

(** C1. For every completed run of [performBackup], whatever mix of
    skipped, successful and failed collections it went through, the result
    carries the statistics of the instance as they are at the end of the run,
    and its [success] flag is true if and only if those statistics have
    [failedCollections] equal to 0 and an empty [errors] list. *)
Theorem success_iff_no_failure {W : Type} (os : World W)
  (penv : Config.ProcessEnv) (fuel : nat) (env : string)
  (s s' : State W) (r : BackupResult) :
  BackupService.performBackup os penv fuel env s = (Ret r, s') ->
  statistics r = stats s' /\
  (success r = true <->
   failedCollections (statistics r) = 0
   /\ length (errors (statistics r)) = 0%nat).
Proof.
  intros Hrun.
  destruct (performBackup_reflects os penv fuel env s r s' Hrun) as [Hs Hst].
  split; [exact Hst | exact Hs].
Qed.

(** A run over [users] (two documents) and [posts] (empty) completes with
    [success] true; C1 at that run. *)
Lemma success_iff_no_failure_witness :
  exists r s',
    BackupService.performBackup (Example.online ["users"; "posts"])
      Example.penv 10 "test" Example.fresh = (Ret r, s')
    /\ success r = true
    /\ statistics r = stats s'
    /\ (success r = true <->
        failedCollections (statistics r) = 0
        /\ length (errors (statistics r)) = 0%nat).
Proof.
  eexists. eexists.
  split; [vm_compute; reflexivity |].
  split; [reflexivity |].
  apply (success_iff_no_failure (Example.online ["users"; "posts"])
           Example.penv 10 "test" Example.fresh).
  vm_compute. reflexivity.
Defined.

(** C10. The statistics are initialised by the constructor alone and
    [performBackup] resets none of [totalRecords], [successfulCollections],
    [failedCollections] and [errors]: when [performBackup] is invoked a
    second time on an instance, the statistics of the second result include
    the counts and the error entries the first run ended with, and the second
    [success] is false whenever the first run recorded an error or a failed
    collection. *)
Theorem second_run_accumulates {W : Type} (os : World W)
  (penv : Config.ProcessEnv) (fuel1 fuel2 : nat) (env1 env2 : string)
  (s0 s1 s2 : State W) (r1 r2 : BackupResult) :
  stats s0 = BackupService.initial_stats ->
  BackupService.performBackup os penv fuel1 env1 s0 = (Ret r1, s1) ->
  BackupService.performBackup os penv fuel2 env2 s1 = (Ret r2, s2) ->
  totalRecords (statistics r1) <= totalRecords (statistics r2)
  /\ successfulCollections (statistics r1) <= successfulCollections (statistics r2)
  /\ failedCollections (statistics r1) <= failedCollections (statistics r2)
  /\ (exists added,
        errors (statistics r2) = (errors (statistics r1) ++ added)%list)
  /\ (failedCollections (statistics r1) <> 0 \/ errors (statistics r1) <> [] ->
      success r2 = false).
Proof.
  intros Hinit Hrun1 Hrun2.
  destruct (performBackup_reflects os penv fuel1 env1 s0 r1 s1 Hrun1) as [_ E1].
  destruct (performBackup_reflects os penv fuel2 env2 s1 r2 s2 Hrun2) as [Hs2 E2].
  pose proof (grows_performBackup os penv fuel1 env1 s0) as G1.
  pose proof (grows_performBackup os penv fuel2 env2 s1) as G2.
  rewrite Hrun1 in G1. rewrite Hrun2 in G2. unfold grows in G1, G2.
  simpl in G1, G2. rewrite Hinit in G1. rewrite <- E1 in G1, G2.
  rewrite <- E2 in G2.
  destruct G1 as (_ & _ & Hf0 & _). simpl in Hf0.
  destruct G2 as (Ht & Hsc & Hf & added & He).
  repeat split; try assumption.
  - exists added. exact He.
  - intros Hfirst. destruct (success r2) eqn:Hsucc; [| reflexivity].
    exfalso. apply Hs2 in Hsucc. destruct Hsucc as [Hz Hlen].
    destruct Hfirst as [Hne | Hne].
    + lia.
    + rewrite He, length_app in Hlen.
      destruct (errors (statistics r1)); [now apply Hne | discriminate].
Qed.

(** Two runs on one instance, the first meeting a collection whose count is
    refused: the second result repeats the first run's error and fails. *)
Lemma second_run_accumulates_witness :
  exists r1 s1 r2 s2,
    BackupService.performBackup (Example.online ["users"; "secret"])
      Example.penv 10 "test" Example.fresh = (Ret r1, s1)
    /\ BackupService.performBackup (Example.online ["users"; "secret"])
         Example.penv 10 "test" s1 = (Ret r2, s2)
    /\ length (errors (statistics r1)) = 1%nat
    /\ length (errors (statistics r2)) = 2%nat
    /\ totalRecords (statistics r1) = 2
    /\ totalRecords (statistics r2) = 4
    /\ (totalRecords (statistics r1) <= totalRecords (statistics r2)
        /\ successfulCollections (statistics r1)
           <= successfulCollections (statistics r2)
        /\ failedCollections (statistics r1) <= failedCollections (statistics r2)
        /\ (exists added,
              errors (statistics r2) = (errors (statistics r1) ++ added)%list)
        /\ (failedCollections (statistics r1) <> 0
            \/ errors (statistics r1) <> [] -> success r2 = false)).
Proof.
  eexists. eexists. eexists. eexists.
  split; [vm_compute; reflexivity |].
  split; [vm_compute; reflexivity |].
  do 4 (split; [reflexivity |]).
  eapply (second_run_accumulates (Example.online ["users"; "secret"])
            Example.penv 10 10 "test" "test" Example.fresh).
  - reflexivity.
  - vm_compute. reflexivity.
  - vm_compute. reflexivity.
Defined.

(* ================================================================== *)
(** * One collection *)

(** C7. For a collection whose count is 0, [backupCollection] returns true
    and leaves the whole state as it was: no interaction with the file
    system is added to the trace (no data or schema artifact is written) and
    [this.stats] is untouched ([totalRecords], [successfulCollections],
    [failedCollections] and [errors] alike). *)
Theorem empty_collection_skipped {W : Type} (os : World W)
  (penv : Config.ProcessEnv) (fuel : nat) (client : FetchPayloadClient.t)
  (fileManager : FileManager.t) (env : string) (info : CollectionInfo)
  (s : State W) :
  count info = Some 0 ->
  BackupService.backupCollection os penv fuel client fileManager env info s
  = (Ret true, s).
Proof.
  intros Hcount. unfold BackupService.backupCollection.
  rewrite Hcount. reflexivity.
Qed.

Lemma empty_collection_skipped_witness :
  count Example.posts_info = Some 0
  /\ BackupService.backupCollection (Example.online ["users"; "posts"])
       Example.penv 10 Example.client Example.fileManager "test"
       Example.posts_info Example.fresh
     = (Ret true, Example.fresh).
Proof.
  split; [reflexivity |].
  apply (empty_collection_skipped (Example.online ["users"; "posts"])).
  reflexivity.
Defined.

(** C4. For a collection with [count > 0] whose full retrieval and
    persistence complete successfully (the documents are retrieved, the data
    file and the schema file are saved, the log entry is appended),
    [backupCollection] returns true, having increased [totalRecords] by
    exactly the number of documents [getAllCollectionData] returned and
    [successfulCollections] by exactly 1; [failedCollections] and [errors]
    are as before.  The calls are taken in the order the code makes them,
    each from the state the one before left; the file manager does not look
    at the statistics ([oblivious_addLog]), so the append is asked of the
    state the schema save left. *)
Theorem successful_backup_counts {W : Type} (os : World W)
  (penv : Config.ProcessEnv) (fuel : nat) (client : FetchPayloadClient.t)
  (fileManager : FileManager.t) (env : string) (info : CollectionInfo)
  (data : list Json) (dataPath : Path) (schemaPath : option Path)
  (s s1 s2 s3 s4 : State W) :
  BackupService.positive (count info) = true ->
  FetchPayloadClient.getAllCollectionData os penv fuel client (name info)
    FetchPayloadClient.Options.empty s = (Ret data, s1) ->
  FileManager.saveCollectionData os fileManager env (name info) data s1
  = (Ret dataPath, s2) ->
  FileManager.saveCollectionSchema os penv fileManager env (name info)
    (schema info) s2 = (Ret schemaPath, s3) ->
  FileManager.addLog os penv fileManager env "INFO"
    ("Collection backup successful: " ++ name info)
    (ExtraBackedUp (name info) (Z.of_nat (length data)) (count info)) s3
  = (Ret tt, s4) ->
  exists s',
    BackupService.backupCollection os penv fuel client fileManager env info s
    = (Ret true, s')
    /\ totalRecords (stats s') = totalRecords (stats s) + Z.of_nat (length data)
    /\ successfulCollections (stats s') = successfulCollections (stats s) + 1
    /\ failedCollections (stats s') = failedCollections (stats s)
    /\ errors (stats s') = errors (stats s)
    /\ trace s' = trace s4.
Proof.
  intros Hpos Hget Hdata Hschema Hlog.
  assert (Hnz : BackupService.is_zero (count info) = false).
  { destruct (count info) as [n|]; simpl in *; [| reflexivity].
    apply Z.eqb_neq. apply Z.gtb_lt in Hpos. lia. }
  pose proof (steps_getAllCollectionData os penv _ same_stats_order fuel client
                (name info) FetchPayloadClient.Options.empty s) as F1.
  pose proof (steps_saveCollectionData os _ same_stats_order fileManager env
                (name info) data s1) as F2.
  pose proof (steps_saveCollectionSchema os penv _ same_stats_order fileManager
                env (name info) (schema info) s2) as F3.
  pose proof (steps_addLog os penv _ same_stats_order fileManager env "INFO"
                ("Collection backup successful: " ++ name info)
                (ExtraBackedUp (name info) (Z.of_nat (length data)) (count info))
                s3) as F4.
  rewrite Hget in F1. rewrite Hdata in F2. rewrite Hschema in F3.
  rewrite Hlog in F4. unfold same_stats in F1, F2, F3, F4.
  simpl snd in F1, F2, F3, F4.
  set (f := fun st => BackupService.add_successfulCollections 1
                        (BackupService.add_totalRecords
                           (Z.of_nat (length data)) st)).
  exists (with_stats f s4).
  split.
  - unfold BackupService.backupCollection. rewrite Hnz.
    unfold try_catch, bind at 1. rewrite Hget.
    unfold bind at 1. rewrite Hdata.
    unfold bind at 1. rewrite Hschema.
    unfold bind at 1, modify_stats at 1.
    unfold bind at 1, modify_stats at 1. simpl stats. simpl trace. simpl world.
    unfold bind at 1.
    change (mkState _ (trace s3) (world s3)) with (with_stats f s3).
    rewrite (oblivious_addLog os penv). rewrite Hlog. reflexivity.
  - unfold with_stats, f; simpl. rewrite F4, F3, F2, F1. auto.
Qed.

(** The [users] collection of the example API: two documents are
    retrieved, saved and counted. *)
Lemma successful_backup_counts_witness :
  exists s',
    BackupService.backupCollection (Example.online ["users"; "posts"])
      Example.penv 10 Example.client Example.fileManager "test"
      Example.users_info Example.fresh = (Ret true, s')
    /\ totalRecords (stats s') = 2
    /\ successfulCollections (stats s') = 1.
Proof.
  edestruct (successful_backup_counts (Example.online ["users"; "posts"])
               Example.penv 10 Example.client Example.fileManager "test"
               Example.users_info) as (s' & Hrun & Ht & Hs & _).
  - reflexivity.
  - vm_compute. reflexivity.
  - vm_compute. reflexivity.
  - vm_compute. reflexivity.
  - vm_compute. reflexivity.
  - exists s'. split; [exact Hrun |]. split; [exact Ht | exact Hs].
Defined.

(* ================================================================== *)
(** * Pagination *)

Section Pagination.
Context {W : Type} (os : World W) (penv : Config.ProcessEnv).

(** One round of the loop: when the request for the current page fails,
    the accumulator is returned as it is, in the state the request left. *)
Lemma getAllCollectionData_loop_failure fuel client coll options allDocs p s e s' :
  FetchPayloadClient.getCollectionData os penv client coll
    (FetchPayloadClient.Options.with_page options p) s = (Throw e, s') ->
  FetchPayloadClient.getAllCollectionData_loop os penv (S fuel) client coll
    options allDocs p s = (Ret allDocs, s').
Proof.
  intros Hfail. simpl. unfold bind at 1, try_catch, bind at 1.
  rewrite Hfail. reflexivity.
Qed.

Lemma getAllCollectionData_loop_until_failure client coll options :
  forall pages p s s',
    pages_until_failure os penv client coll options p s pages s' ->
    forall fuel allDocs,
      (length pages < fuel)%nat ->
      FetchPayloadClient.getAllCollectionData_loop os penv fuel client coll
        options allDocs p s
      = (Ret (allDocs ++ concat pages)%list, s').
Proof.
  intros pages p s s' Hpages.
  induction Hpages as [p s s' e Hfail | p s s1 s' o doc rest pages Hpage Hdocs
                                         Hmore Hrest IH];
    intros fuel allDocs Hfuel.
  - destruct fuel as [|fuel]; [simpl in Hfuel; lia |].
    rewrite (getAllCollectionData_loop_failure fuel client coll options
               allDocs p s e s' Hfail).
    simpl. now rewrite app_nil_r.
  - destruct fuel as [|fuel]; [simpl in Hfuel; lia |].
    simpl in Hfuel.
    simpl. unfold bind at 1, try_catch, bind at 1. rewrite Hpage.
    simpl. rewrite Hdocs. simpl. rewrite Hmore.
    rewrite IH by lia. now rewrite <- app_assoc.
Qed.

(** Whatever the pages are, the loop lets no exception out. *)
Lemma getAllCollectionData_never_throws fuel client coll options :
  never_throws
    (FetchPayloadClient.getAllCollectionData os penv fuel client coll options).
Proof.
  unfold FetchPayloadClient.getAllCollectionData.
  generalize (@nil Json) as allDocs. generalize 1 as currentPage.
  induction fuel as [|fuel IH]; intros currentPage allDocs s e s'; simpl.
  - discriminate.
  - unfold bind at 1, try_catch.
    match goal with |- context [match ?m s with _ => _ end] =>
      destruct (m s) as [[[[docs' hasNext] page']|e'|] s1] eqn:E end;
      simpl; try discriminate.
    destruct hasNext; [apply IH | discriminate].
Qed.

End Pagination.

(** C2. When a page request of [getAllCollectionData] fails, pagination
    stops at once and the operation returns the documents of the pages
    retrieved before, in page order: the run ends in the state the failing
    request left (no further request is made) and returns normally (the
    failure does not propagate). *)
Theorem pagination_stops_at_failure {W : Type} (os : World W)
  (penv : Config.ProcessEnv) (client : FetchPayloadClient.t) (coll : string)
  (options : FetchPayloadClient.Options.t) (fuel : nat)
  (pages : list (list Json)) (s s' : State W) :
  pages_until_failure os penv client coll options 1 s pages s' ->
  (length pages < fuel)%nat ->
  FetchPayloadClient.getAllCollectionData os penv fuel client coll options s
  = (Ret (concat pages), s').
Proof.
  intros Hpages Hfuel. unfold FetchPayloadClient.getAllCollectionData.
  now rewrite (getAllCollectionData_loop_until_failure os penv client coll
                 options pages 1 s s' Hpages fuel [] Hfuel).
Qed.

(** The third page request of [articles] fails: exactly the documents of
    pages 1 and 2 are returned, after three requests. *)
Lemma pagination_stops_at_failure_witness :
  exists s',
    FetchPayloadClient.getAllCollectionData (Example.online ["articles"])
      Example.penv 10 Example.client "articles"
      FetchPayloadClient.Options.empty Example.fresh
    = (Ret [Example.article 1; Example.article 2; Example.article 3], s')
    /\ length (trace s') = 3%nat.
Proof.
  eexists. split.
  - apply (pagination_stops_at_failure (Example.online ["articles"])
             Example.penv Example.client "articles"
             FetchPayloadClient.Options.empty 10
             [[Example.article 1; Example.article 2]; [Example.article 3]]).
    + eapply PageRetrieved;
        [vm_compute; reflexivity | reflexivity | reflexivity |].
      eapply PageRetrieved;
        [vm_compute; reflexivity | reflexivity | reflexivity |].
      eapply PageFails. vm_compute. reflexivity.
    + simpl. lia.
  - reflexivity.
Defined.

(* ================================================================== *)
(** * Connection validation *)

Section Validation.
Context {W : Type} (os : World W) (penv : Config.ProcessEnv).

Lemma validateConnection_catches client s e s' :
  FetchPayloadClient.getAccess os client s = (Throw e, s') ->
  BackupService.validateConnection os client s = (Ret false, s').
Proof.
  intros H. unfold BackupService.validateConnection, try_catch, bind.
  rewrite H. reflexivity.
Qed.

Lemma now_returns s : exists d s', now os s = (Ret d, s') /\ stats s' = stats s.
Proof.
  unfold now. destruct (clock os (world s)) as [d w]. eexists. eexists.
  split; reflexivity.
Qed.

Lemma performBackup_stops fuel env cfg client s sv :
  Config.getEnvConfig penv env = inr cfg ->
  FetchPayloadClient.constructor penv cfg = inr client ->
  BackupService.validateConnection os client (at_validation os penv s)
  = (Ret false, sv) ->
  exists r,
    BackupService.performBackup os penv fuel env s
    = (Ret r, with_stats (BackupService.push_errors
                            (mkEntry None "general"
                               "API connection failed, cannot continue backup"))
                sv)
    /\ success r = false /\ backupPath r = None /\ collections r = [].
Proof.
  intros Hcfg Hclient Hvalidate.
  unfold at_validation in Hvalidate.
  unfold BackupService.performBackup.
  unfold bind at 1. unfold bind at 1 in Hvalidate.
  destruct (now_returns s) as (d & s0 & Hnow & _). rewrite Hnow in *.
  unfold bind at 1, modify_stats at 1.
  unfold bind at 1, modify_stats at 1 in Hvalidate.
  unfold try_catch. rewrite Hcfg.
  unfold bind at 1, lift at 1, ret at 1. rewrite Hclient.
  unfold bind at 1, lift at 1, ret at 1.
  unfold bind at 1.
  assert (Hfm : exists fm s1, FileManager.constructor os penv
            {| stats := BackupService.set_startTime d (stats s0);
               trace := trace s0; world := world s0 |} = (Ret fm, s1)).
  { unfold FileManager.constructor, bind.
    match goal with |- context [now os ?st] =>
      destruct (now_returns st) as (d' & s1 & Hnow' & _); rewrite Hnow' end.
    unfold ret. eauto. }
  destruct Hfm as (fm & s1 & Hfm). rewrite Hfm in *. simpl snd in Hvalidate.
  unfold bind at 1. rewrite Hvalidate. simpl negb. cbv iota.
  unfold throw. unfold bind, modify_stats, BackupService.getBackupResult,
    get_stats, ret.
  eexists. split; [reflexivity |]. simpl.
  split; [| split; reflexivity].
  apply andb_false_iff. right. apply Nat.eqb_neq.
  rewrite length_app. simpl. lia.
Qed.
End Validation.

(** C8. [validateConnection] turns an error thrown by [getAccess] into
    the answer false, and always answers with a boolean; and whenever it
    answers false in a run of [performBackup], the run ends there: its result
    has [success] false and no [backupPath], one entry of phase [general] is
    added to the errors, and the world is not interacted with after the
    validation (the trace and the state of the world are those validation
    left: no discovery, no backup). *)
Theorem connection_failure_aborts {W : Type} (os : World W)
  (penv : Config.ProcessEnv) (fuel : nat) (env : string)
  (cfg : Config.EnvConfig) (client : FetchPayloadClient.t) (s : State W) :
  Config.getEnvConfig penv env = inr cfg ->
  FetchPayloadClient.constructor penv cfg = inr client ->
  (forall t e t',
     FetchPayloadClient.getAccess os client t = (Throw e, t') ->
     BackupService.validateConnection os client t = (Ret false, t'))
  /\ (forall t, exists b t',
        BackupService.validateConnection os client t = (Ret b, t'))
  /\ (forall sv,
        BackupService.validateConnection os client (at_validation os penv s)
        = (Ret false, sv) ->
        exists r s' entry,
          BackupService.performBackup os penv fuel env s = (Ret r, s')
          /\ success r = false
          /\ backupPath r = None
          /\ trace s' = trace sv
          /\ world s' = world sv
          /\ errors (stats s') = (errors (stats sv) ++ [entry])%list
          /\ phase entry = "general").
Proof.
  intros Hcfg Hclient. split; [| split].
  - intros t e t'. apply validateConnection_catches.
  - intros t. apply validateConnection_returns.
  - intros sv Hvalidate.
    destruct (performBackup_stops os penv fuel env cfg client s sv Hcfg Hclient
                Hvalidate) as (r & Hrun & Hsucc & Hpath & _).
    eexists. eexists. eexists. split; [exact Hrun |].
    repeat split; try assumption.
Qed.

(** The server cannot be reached: [getAccess] throws, validation answers
    false, and the run ends after that single request. *)
Lemma connection_failure_aborts_witness :
  exists e t' r s',
    FetchPayloadClient.getAccess Example.offline Example.client
      (at_validation Example.offline Example.penv Example.fresh)
    = (Throw e, t')
    /\ BackupService.performBackup Example.offline Example.penv 10 "test"
         Example.fresh = (Ret r, s')
    /\ success r = false
    /\ backupPath r = None
    /\ trace s' = [EvNow; EvNow; EvFetch "https://cms.test/api/access"].
Proof.
  destruct (connection_failure_aborts Example.offline Example.penv 10 "test"
              Example.cfg Example.client Example.fresh)
    as (Hcatch & _ & Hstop); [reflexivity | reflexivity |].
  eexists. eexists.
  assert (Haccess :
    FetchPayloadClient.getAccess Example.offline Example.client
      (at_validation Example.offline Example.penv Example.fresh)
    = (Throw (mkExn "FetchError" "connect ECONNREFUSED"),
       mkState (BackupService.set_startTime (Example.tick 0)
                  BackupService.initial_stats)
         [EvNow; EvNow; EvFetch "https://cms.test/api/access"] 3%nat)).
  { vm_compute. reflexivity. }
  destruct (Hstop _ (Hcatch _ _ _ Haccess))
    as (r & s' & entry & Hrun & Hsucc & Hpath & Htrace & _).
  exists r, s'. split; [exact Haccess |].
  split; [exact Hrun |]. split; [exact Hsucc |]. split; [exact Hpath |].
  exact Htrace.
Defined.

(* ================================================================== *)
(** * Discovery *)

Section Discovery.
Context {W : Type} (os : World W) (penv : Config.ProcessEnv).
Variables (client : FetchPayloadClient.t) (fileManager : FileManager.t)
  (env : string).
Hypothesis Hlog : log_writes_succeed os fileManager env.

Lemma do_fs_succeeds op s :
  fst (fsop os (world s) op) = None ->
  exists s', do_fs os op s = (Ret tt, s') /\ stats s' = stats s.
Proof.
  intros H. unfold do_fs. destruct (fsop os (world s) op) as [r w].
  simpl in H. subst r. eexists. split; reflexivity.
Qed.

Lemma addLog_succeeds lvl msg ex s :
  exists s',
    FileManager.addLog os penv fileManager env lvl msg ex s = (Ret tt, s')
    /\ stats s' = stats s.
Proof.
  unfold FileManager.addLog, FileManager.ensureDir.
  change (Config.saveDetailedLogs (Config.BACKUP_CONFIG penv)) with true.
  change (negb true) with false. cbv beta iota zeta.
  destruct (do_fs_succeeds
              (EnsureDir (FileManager.dirname (FileManager.getLogPath fileManager env)))
              s (proj1 (Hlog (world s)))) as (s1 & Hdir & Hs1).
  unfold bind at 1. rewrite Hdir.
  unfold bind at 1.
  destruct (now_returns os s1) as (d & s2 & Hnow & Hs2). rewrite Hnow.
  destruct (do_fs_succeeds
              (AppendFile (FileManager.getLogPath fileManager env)
                 (mkLogEntry (iso d) lvl msg ex))
              s2 (proj2 (Hlog (world s2)) _)) as (s3 & Happend & Hs3).
  rewrite Happend. exists s3. split; [reflexivity | congruence].
Qed.

(** The descriptor of a schema probe whose request failed. *)
Lemma getCollectionSchema_absorbs coll s e s' :
  FetchPayloadClient.getCollectionData os penv client coll
    (FetchPayloadClient.Options.mk None (Some 1) None None) s = (Throw e, s') ->
  FetchPayloadClient.getCollectionSchema os penv client coll s
  = (Ret (mkSchema coll [] 0 None (Some (message e))), s').
Proof.
  intros H. unfold FetchPayloadClient.getCollectionSchema, try_catch, bind.
  rewrite H. reflexivity.
Qed.

End Discovery.

Section DiscoveryLoop.
Context {W : Type} (os : World W) (penv : Config.ProcessEnv).
Variables (client : FetchPayloadClient.t) (fileManager : FileManager.t)
  (env : string).

(** One round of the loop when the count probe returns and the log line is
    appended: the collection is added and nothing is recorded. *)
Lemma analyzeCollection_probed infos coll cnt sch s s1 s2 s3 :
  FetchPayloadClient.getCollectionCount os client coll s = (Ret cnt, s1) ->
  FetchPayloadClient.getCollectionSchema os penv client coll s1 = (Ret sch, s2) ->
  analysis_logged os penv fileManager env coll cnt sch s2 s3 ->
  BackupService.analyzeCollection os penv client fileManager env infos coll s
  = (Ret (infos ++ [mkInfo coll cnt sch (BackupService.positive cnt)])%list, s3)
  /\ stats s3 = stats s.
Proof.
  intros Hcount Hschema Hlogged. unfold analysis_logged in Hlogged.
  pose proof (steps_getCollectionCount os _ same_stats_order client coll s) as F.
  pose proof (steps_getCollectionSchema os penv _ same_stats_order client coll s1)
    as F1.
  pose proof (steps_addLog os penv _ same_stats_order fileManager env "INFO"
                ("Collection analysis complete: " ++ coll)
                (ExtraAnalysis coll cnt
                   (orDefault (Some (Z.of_nat (length (fields sch)))) 0)) s2)
    as F2.
  rewrite Hcount in F. rewrite Hschema in F1. rewrite Hlogged in F2.
  unfold same_stats in F, F1, F2. cbn [snd] in F, F1, F2.
  split; [| congruence].
  unfold BackupService.analyzeCollection.
  unfold bind at 1, attempt at 1, bind at 1. rewrite Hcount.
  unfold bind at 1. rewrite Hschema. unfold ret at 1.
  unfold bind at 1, attempt. rewrite Hlogged. reflexivity.
Qed.

(** One round of the loop when the count probe throws and the log line of
    the failure is appended: the collection is left out and recorded. *)
Lemma analyzeCollection_refused infos coll e s s1 s2 :
  FetchPayloadClient.getCollectionCount os client coll s = (Throw e, s1) ->
  failure_logged os penv fileManager env coll e s1 s2 ->
  BackupService.analyzeCollection os penv client fileManager env infos coll s
  = (Ret infos,
     with_stats (BackupService.push_errors (discovery_entry (coll, e))) s2)
  /\ stats s2 = stats s.
Proof.
  intros Hcount Hlogged. unfold failure_logged in Hlogged.
  pose proof (steps_getCollectionCount os _ same_stats_order client coll s) as F.
  pose proof (steps_addLog os penv _ same_stats_order fileManager env "WARN"
                ("Collection analysis failed: " ++ coll)
                (ExtraError coll (message e)) s1) as F1.
  rewrite Hcount in F. rewrite Hlogged in F1.
  unfold same_stats in F, F1. cbn [snd] in F, F1.
  split; [| congruence].
  unfold BackupService.analyzeCollection.
  unfold bind at 1, attempt, bind at 1. rewrite Hcount.
  unfold bind at 1. rewrite Hlogged. reflexivity.
Qed.

(** The loop, for the answers the world gives along the run. *)
Lemma probes_along_run colls s thrown s' :
  probes_along os penv client fileManager env colls s thrown s' ->
  forall infos,
    exists new,
      BackupService.analyzeCollections os penv client fileManager env colls
        infos s = (Ret (infos ++ new)%list, s')
      /\ errors (stats s')
         = (errors (stats s) ++ map discovery_entry thrown)%list
      /\ (thrown = [] -> map name new = colls)
      /\ (forall bad e,
            thrown = [(bad, e)] ->
            exists before after,
              colls = (before ++ bad :: after)%list
              /\ map name new = (before ++ after)%list).
Proof.
  induction 1 as [s | coll rest s s1 s2 s3 s' cnt sch thrown Hc Hs Hl Hrest IH
                    | coll rest s s1 s2 s' e thrown Hc Hl Hrest IH];
    intros infos.
  - exists []. cbn. rewrite !app_nil_r.
    split; [reflexivity |]. split; [reflexivity |]. split; [reflexivity |].
    discriminate.
  - destruct (analyzeCollection_probed infos coll cnt sch s s1 s2 s3 Hc Hs Hl)
      as [Hstep Hstats].
    destruct (IH (infos ++ [mkInfo coll cnt sch (BackupService.positive cnt)])%list)
      as (new & Hloop & Herr & Hnone & Hone).
    exists (mkInfo coll cnt sch (BackupService.positive cnt) :: new).
    cbn [BackupService.analyzeCollections]. unfold bind. rewrite Hstep, Hloop.
    split. { now rewrite <- app_assoc. }
    split. { now rewrite Herr, Hstats. }
    split.
    + intros Hnil. cbn [map name]. now rewrite (Hnone Hnil).
    + intros bad e Hthrown.
      destruct (Hone bad e Hthrown) as (before & after & -> & Hnames).
      exists (coll :: before), after. cbn [map name app].
      split; [reflexivity | now rewrite Hnames].
  - destruct (analyzeCollection_refused infos coll e s s1 s2 Hc Hl)
      as [Hstep Hstats].
    destruct (IH infos) as (new & Hloop & Herr & Hnone & Hone).
    exists new.
    cbn [BackupService.analyzeCollections]. unfold bind. rewrite Hstep, Hloop.
    split; [reflexivity |].
    split.
    { rewrite Herr. unfold with_stats. cbn [stats errors BackupService.push_errors map].
      rewrite Hstats. now rewrite <- app_assoc. }
    split; [discriminate |].
    intros bad e0 Hthrown. injection Hthrown as -> -> ->.
    exists [], rest. split; [reflexivity |]. now apply Hnone.
Qed.

(** [discoverCollections] once the client has listed [colls] and the log
    line of the list is appended. *)
Lemma discoverCollections_logged colls s s1 s2 :
  FetchPayloadClient.discoverCollections os client s = (Ret colls, s1) ->
  names_logged os penv fileManager env colls s1 s2 ->
  stats s2 = stats s
  /\ BackupService.discoverCollections os penv client fileManager env s
     = match BackupService.analyzeCollections os penv client fileManager env
               colls [] s2 with
       | (Throw e, s') => (Throw e, s')
       | r => r
       end.
Proof.
  intros Hnames Hlogged. unfold names_logged in Hlogged.
  pose proof (steps_client_discoverCollections os _ same_stats_order client s)
    as F.
  pose proof (steps_addLog os penv _ same_stats_order fileManager env "INFO"
                ("Discovered " ++ string_of_Z (Z.of_nat (length colls))
                 ++ " collections") (ExtraCollections colls) s1) as F1.
  rewrite Hnames in F. rewrite Hlogged in F1.
  unfold same_stats in F, F1. cbn [snd] in F, F1.
  split; [congruence |].
  unfold BackupService.discoverCollections, try_catch.
  unfold bind at 1. rewrite Hnames. unfold bind at 1. rewrite Hlogged.
  reflexivity.
Qed.

End DiscoveryLoop.

Section DiscoveryRun.
Context {W : Type} (os : World W) (penv : Config.ProcessEnv).
Variables (client : FetchPayloadClient.t) (fileManager : FileManager.t)
  (env : string).

Lemma analyzeCollections_app before after :
  forall infos s,
    BackupService.analyzeCollections os penv client fileManager env
      (before ++ after)%list infos s
    = match BackupService.analyzeCollections os penv client fileManager env
              before infos s with
      | (Ret infos1, s1) =>
          BackupService.analyzeCollections os penv client fileManager env
            after infos1 s1
      | (Throw e, s1) => (Throw e, s1)
      | (Diverge, s1) => (Diverge, s1)
      end.
Proof.
  induction before as [|coll rest IH]; intros infos s; [reflexivity |].
  cbn [app BackupService.analyzeCollections]. unfold bind.
  destruct (BackupService.analyzeCollection os penv client fileManager env
              infos coll s) as [[infos1 | e |] s1]; [apply IH | |]; reflexivity.
Qed.

End DiscoveryRun.




(** C3 as stated fails. The schema request of [media] is answered with an
    HTTP 500 whenever it is made, yet discovery returns [media] and records
    no error. *)
Lemma schema_failure_not_excluded :
  schema_request_fails (Example.online ["media"]) Example.penv Example.client
    "media"
  /\ exists infos s',
       BackupService.discoverCollections (Example.online ["media"])
         Example.penv Example.client Example.fileManager "test" Example.fresh
       = (Ret infos, s')
       /\ map name infos = ["media"]
       /\ errors (stats s') = [].
Proof.
  split.
  - intros s. eexists. eexists. vm_compute. reflexivity.
  - eexists. eexists. split; [vm_compute; reflexivity |].
    split; reflexivity.
Qed.

(** C3, amended. For a collection whose count probe returns and whose
    schema probe meets a failing request, in the states the run reaches
    them, [getCollectionSchema] absorbs the failure: when the log line of the
    analysis is appended, the collection is in the returned sequence, with
    its count and a descriptor that has no fields and carries the message of
    the error, and its analysis records nothing: [stats.errors] gains the
    entries of the names whose count probe threw along the run, and no
    other. *)
Theorem schema_failure_is_absorbed {W : Type} (os : World W)
  (penv : Config.ProcessEnv) (client : FetchPayloadClient.t)
  (fileManager : FileManager.t) (env : string) (before after : list string)
  (coll : string) (cnt : option Z) (e : Exn)
  (thrown_before thrown_after : list (string * Exn))
  (s s1 s2 s3 s4 s5 s6 s' : State W) :
  FetchPayloadClient.discoverCollections os client s
  = (Ret (before ++ coll :: after)%list, s1) ->
  names_logged os penv fileManager env (before ++ coll :: after)%list s1 s2 ->
  probes_along os penv client fileManager env before s2 thrown_before s3 ->
  FetchPayloadClient.getCollectionCount os client coll s3 = (Ret cnt, s4) ->
  FetchPayloadClient.getCollectionData os penv client coll
    (FetchPayloadClient.Options.mk None (Some 1) None None) s4
  = (Throw e, s5) ->
  analysis_logged os penv fileManager env coll cnt
    (mkSchema coll [] 0 None (Some (message e))) s5 s6 ->
  probes_along os penv client fileManager env after s6 thrown_after s' ->
  exists infos,
    BackupService.discoverCollections os penv client fileManager env s
    = (Ret infos, s')
    /\ In (mkInfo coll cnt (mkSchema coll [] 0 None (Some (message e)))
             (BackupService.positive cnt)) infos
    /\ errors (stats s')
       = (errors (stats s)
          ++ map discovery_entry (thrown_before ++ thrown_after))%list.
Proof.
  intros Hnames Hlogged Hbefore Hcount Hdata Hanalysis Hafter.
  destruct (discoverCollections_logged os penv client fileManager env _
              s s1 s2 Hnames Hlogged) as [Hstats Hrun].
  destruct (probes_along_run os penv client fileManager env before s2
              thrown_before s3 Hbefore []) as (new1 & Hloop1 & Herr1 & _).
  pose proof (getCollectionSchema_absorbs os penv client coll s4 e s5 Hdata)
    as Hschema.
  destruct (analyzeCollection_probed os penv client fileManager env
              ([] ++ new1)%list coll cnt _ s3 s4 s5 s6 Hcount Hschema Hanalysis)
    as [Hstep Hstats3].
  destruct (probes_along_run os penv client fileManager env after s6
              thrown_after s' Hafter
              (([] ++ new1)
               ++ [mkInfo coll cnt (mkSchema coll [] 0 None (Some (message e)))
                     (BackupService.positive cnt)])%list)
    as (new2 & Hloop2 & Herr2 & _).
  rewrite analyzeCollections_app, Hloop1 in Hrun.
  cbn [BackupService.analyzeCollections] in Hrun. unfold bind in Hrun.
  rewrite Hstep, Hloop2 in Hrun.
  eexists. split; [exact Hrun |].
  split.
  - apply in_or_app. left. apply in_or_app. right. now left.
  - rewrite Herr2, Hstats3, Herr1, Hstats, map_app. now rewrite app_assoc.
Qed.

(** Of [users] and [media], the schema request of [media] is answered with
    an HTTP 500: [media] is returned, with the error in its descriptor, and
    nothing is recorded. *)
Lemma schema_failure_is_absorbed_witness :
  exists infos s',
    BackupService.discoverCollections (Example.online ["users"; "media"])
      Example.penv Example.client Example.fileManager "test" Example.fresh
    = (Ret infos, s')
    /\ In (mkInfo "media" (Some 5)
             (mkSchema "media" [] 0 None
                (Some "HTTP 500: Internal Server Error")) true) infos
    /\ errors (stats s') = [].
Proof.
  edestruct (schema_failure_is_absorbed (Example.online ["users"; "media"])
               Example.penv Example.client Example.fileManager "test"
               ["users"] [] "media" (Some 5)
               (Error "HTTP 500: Internal Server Error") [] []
               Example.fresh)
    as (infos & Hrun & Hin & Herr).
  - vm_compute. reflexivity.
  - unfold names_logged. vm_compute. reflexivity.
  - eapply ProbeReturns;
      [ vm_compute; reflexivity | vm_compute; reflexivity
      | unfold analysis_logged; vm_compute; reflexivity | ].
    apply ProbesDone.
  - vm_compute. reflexivity.
  - vm_compute. reflexivity.
  - unfold analysis_logged. vm_compute. reflexivity.
  - apply ProbesDone.
  - exists infos. eexists. split; [exact Hrun |].
    split; [exact Hin | exact Herr].
Defined.

(* ================================================================== *)
(** * Failures during the backup of a collection *)

Section BackupFailure.
Context {W : Type} (os : World W) (penv : Config.ProcessEnv).
Variables (client : FetchPayloadClient.t) (fileManager : FileManager.t)
  (env : string).

(** When saving the data throws and the log can be written, the failure is
    recorded and [backupCollection] returns false. *)
Lemma backup_failure_recorded fuel info data e s s1 s2 :
  log_writes_succeed os fileManager env ->
  BackupService.positive (count info) = true ->
  FetchPayloadClient.getAllCollectionData os penv fuel client (name info)
    FetchPayloadClient.Options.empty s = (Ret data, s1) ->
  FileManager.saveCollectionData os fileManager env (name info) data s1
  = (Throw e, s2) ->
  exists s',
    BackupService.backupCollection os penv fuel client fileManager env info s
    = (Ret false, s')
    /\ failedCollections (stats s') = failedCollections (stats s) + 1
    /\ errors (stats s')
       = (errors (stats s) ++ [mkEntry (Some (name info)) "backup" (message e)])%list
    /\ totalRecords (stats s') = totalRecords (stats s)
    /\ successfulCollections (stats s') = successfulCollections (stats s).
Proof.
  intros Hlog Hpos Hget Hsave.
  assert (Hnz : BackupService.is_zero (count info) = false).
  { destruct (count info) as [n|]; simpl in *; [| reflexivity].
    apply Z.eqb_neq. apply Z.gtb_lt in Hpos. lia. }
  pose proof (steps_getAllCollectionData os penv _ same_stats_order fuel client
                (name info) FetchPayloadClient.Options.empty s) as F1.
  pose proof (steps_saveCollectionData os _ same_stats_order fileManager env
                (name info) data s1) as F2.
  rewrite Hget in F1. rewrite Hsave in F2. unfold same_stats in *. simpl in *.
  unfold BackupService.backupCollection. rewrite Hnz.
  unfold try_catch, bind at 1. rewrite Hget.
  unfold bind at 1. rewrite Hsave.
  unfold bind at 1, modify_stats at 1.
  unfold bind at 1, modify_stats at 1. simpl stats. simpl trace. simpl world.
  unfold bind at 1.
  match goal with |- context [FileManager.addLog os penv fileManager env ?l ?m ?x ?st] =>
    destruct (addLog_succeeds os penv fileManager env Hlog l m x st)
      as (s3 & Herror & Hs3) end.
  rewrite Herror. unfold ret. eexists. split; [reflexivity |].
  rewrite Hs3. simpl. rewrite F2, F1. auto.
Qed.

End BackupFailure.

(** C5 fails on the code when a log entry cannot be appended.

    First run: the documents of [users] (count 2) are retrieved and the data
    and schema files saved; [totalRecords] and [successfulCollections] are
    increased; then appending the log entry of the success (interaction
    number 9, still inside the [try]) fails. The [catch] counts a failure:
    the collection ends counted both as successful and as failed, with
    [totalRecords] changed.

    Second run, on a full disk: writing the data file fails, the [catch]
    counts and records the failure, and then appending the error to the log
    fails too, inside the handler: that exception leaves [backupCollection],
    which does not return false. *)
Lemma backup_exception_mishandled :
  BackupService.positive (count Example.users_info) = true
  /\ (exists s',
        BackupService.backupCollection (Example.flaky_disk 9) Example.penv 10
          Example.client Example.fileManager "test" Example.users_info
          Example.fresh = (Ret false, s')
        /\ totalRecords (stats s') = 2
        /\ successfulCollections (stats s') = 1
        /\ failedCollections (stats s') = 1
        /\ errors (stats s')
           = [mkEntry (Some "users") "backup" "EIO: i/o error, write"])
  /\ (exists e s',
        BackupService.backupCollection Example.disk_full Example.penv 10
          Example.client Example.fileManager "test" Example.users_info
          Example.fresh = (Throw e, s')
        /\ totalRecords (stats s') = 0
        /\ successfulCollections (stats s') = 0
        /\ failedCollections (stats s') = 1
        /\ errors (stats s')
           = [mkEntry (Some "users") "backup"
                "ENOSPC: no space left on device, write"]).
Proof.
  split; [reflexivity |]. split.
  - eexists. split; [vm_compute; reflexivity |].
    repeat split; reflexivity.
  - eexists. eexists. split; [vm_compute; reflexivity |].
    repeat split; reflexivity.
Qed.

(* ================================================================== *)
(** * Further properties of the code *)

(** [performBackup] lets no exception out: a run returns a result, unless
    the pagination of some collection never ends. *)
Theorem run_returns_or_diverges {W : Type} (os : World W)
  (penv : Config.ProcessEnv) (fuel : nat) (env : string) (s : State W) :
  (exists r s', BackupService.performBackup os penv fuel env s = (Ret r, s'))
  \/ (exists s', BackupService.performBackup os penv fuel env s = (Diverge, s')).
Proof.
  destruct (BackupService.performBackup os penv fuel env s) as [[r|e|] s'] eqn:E.
  - left. eauto.
  - exfalso. eapply performBackup_never_throws. exact E.
  - right. eauto.
Qed.

(** [getCollectionSchema] returns a descriptor whatever the request does. *)
Theorem schema_probe_returns {W : Type} (os : World W)
  (penv : Config.ProcessEnv) (client : FetchPayloadClient.t) (coll : string)
  (s : State W) :
  exists descriptor s',
    FetchPayloadClient.getCollectionSchema os penv client coll s
    = (Ret descriptor, s')
    /\ schema_collection descriptor = coll.
Proof.
  unfold FetchPayloadClient.getCollectionSchema, try_catch.
  match goal with |- context [match ?m s with _ => _ end] =>
    destruct (m s) as [[sch|e|] s'] eqn:E end.
  - exists sch, s'. split; [reflexivity |].
    revert E. unfold bind.
    repeat match goal with
           | |- context [match ?x with _ => _ end] => destruct x
           | |- context [if ?x then _ else _] => destruct x
           end; simpl; try discriminate;
      intros H; injection H as <- _; reflexivity.
  - unfold ret. eexists. eexists. split; reflexivity.
  - exfalso. revert E.
    apply never_diverges_bind; [apply never_diverges_getCollectionData |].
    nd_tac.
Qed.

(** The scenario of the specification: access lists [users] and [posts],
    [users] counts 2 and [posts] 0. The run succeeds with 2 collections, 2
    records and 1 successful collection; a data file holding the two
    documents is written for [users], no data or schema file for [posts]. *)
Lemma scenario_users_and_posts :
  exists r s',
    BackupService.performBackup (Example.online ["users"; "posts"])
      Example.penv 10 "test" Example.fresh = (Ret r, s')
    /\ success r = true
    /\ totalCollections (statistics r) = 2
    /\ totalRecords (statistics r) = 2
    /\ successfulCollections (statistics r) = 1
    /\ errors (statistics r) = []
    /\ In (EvFs (WriteJson
                   (FileManager.getCollectionDataPath Example.fileManager
                      "test" "users")
                   (DataFile "users" "2024-01-15T14:30:25.000Z" 2
                      [Example.user 1 "ann"; Example.user 2 "bob"])))
          (trace s')
    /\ existsb (writes_to (FileManager.getCollectionDataPath
                             Example.fileManager "test" "posts")) (trace s')
       = false
    /\ existsb (writes_to (FileManager.getCollectionSchemaPath
                             Example.fileManager "test" "posts")) (trace s')
       = false.
Proof.
  eexists. eexists. split; [vm_compute; reflexivity |].
  do 5 (split; [reflexivity |]).
  split; [| split; vm_compute; reflexivity].
  simpl. intuition.
Qed.



(* ================================================================== *)
(** * The configuration of an environment *)

(** [getEnvConfig] returns a configuration exactly for [test] and [prod],
    and only when both variables of the environment are set and not empty;
    the configuration then holds these two values. In every other case it
    throws. *)
Theorem getEnvConfig_returns_iff (penv : Config.ProcessEnv) (env : string)
  (cfg : Config.EnvConfig) :
  Config.getEnvConfig penv env = inr cfg <->
  ((env = "test"
    /\ Config.TEST_API_BASE penv = Some (Config.api_base cfg)
    /\ Config.TEST_API_KEY penv = Some (Config.api_key cfg))
   \/ (env = "prod"
       /\ Config.PROD_API_BASE penv = Some (Config.api_base cfg)
       /\ Config.PROD_API_KEY penv = Some (Config.api_key cfg)))
  /\ Config.api_base cfg <> "" /\ Config.api_key cfg <> "".
Proof.
  assert (Hentry : forall b k,
    match b, k with
    | Some base, Some key =>
        if negb (truthy_str (Some base)) || negb (truthy_str (Some key))
        then inl (Config.missing_variables env)
        else inr (Config.mkEnvConfig base key)
    | _, _ => inl (Config.missing_variables env)
    end = inr cfg <->
    (b = Some (Config.api_base cfg) /\ k = Some (Config.api_key cfg))
    /\ Config.api_base cfg <> "" /\ Config.api_key cfg <> "").
  { intros b k. destruct cfg as [cb ck]. simpl. split.
    - destruct b as [[|c base]|], k as [[|c' key]|]; simpl; try discriminate.
      intros H. injection H as <- <-. repeat split; discriminate.
    - intros [[-> ->] [Hb Hk]].
      destruct cb; [now contradiction Hb |]. destruct ck; [now contradiction Hk |].
      reflexivity. }
  unfold Config.getEnvConfig, Config.CONFIG. simpl Config.lookup.
  destruct (String.eqb env "test") eqn:Htest.
  - apply String.eqb_eq in Htest. subst env. simpl.
    rewrite Hentry. split.
    + intros [[Hb Hk] Hne]. split; [left; auto | exact Hne].
    + intros [[(_ & Hb & Hk) | (Hprod & _)] Hne]; [| discriminate].
      split; [split; assumption | exact Hne].
  - destruct (String.eqb env "prod") eqn:Hprod.
    + apply String.eqb_eq in Hprod. subst env. simpl.
      rewrite Hentry. split.
      * intros [[Hb Hk] Hne]. split; [right; auto | exact Hne].
      * intros [[(Ht & _) | (_ & Hb & Hk)] Hne]; [discriminate |].
        split; [split; assumption | exact Hne].
    + apply String.eqb_neq in Htest, Hprod. split.
      * destruct (existsb (String.eqb env) Config.inherited_names);
          discriminate.
      * intros [[(He & _) | (He & _)] _]; contradiction.
Qed.

(* ================================================================== *)
(** * One request *)

Section Request.
Context {W : Type} (os : World W).

Lemma request_cases client path s :
  let url := FetchPayloadClient.baseURL client ++ path in
  let s1 := mkState (stats s) (trace s ++ [EvFetch url])
              (snd (fetch os (world s) url)) in
  FetchPayloadClient.request os client path s
  = match fst (fetch os (world s) url) with
    | Rejected e =>
        (Throw (if String.eqb (ename e) "AbortError"
                then Error ("Request timeout: " ++ path) else e), s1)
    | Resolved r =>
        if ok r
        then if truthy_str (contentType r)
                && includes "application/json" (default (contentType r) "")
             then match json r with
                  | inr p => (Ret p, s1)
                  | inl e =>
                      (Throw (if String.eqb (ename e) "AbortError"
                              then Error ("Request timeout: " ++ path)
                              else e), s1)
                  end
             else match text r with
                  | inr body => (Ret (PText body), s1)
                  | inl e =>
                      (Throw (if String.eqb (ename e) "AbortError"
                              then Error ("Request timeout: " ++ path)
                              else e), s1)
                  end
        else match text r with
             | inr _ =>
                 (Throw (Error ("HTTP " ++ string_of_Z (status r) ++ ": "
                                ++ statusText r)), s1)
             | inl e =>
                 (Throw (if String.eqb (ename e) "AbortError"
                         then Error ("Request timeout: " ++ path)
                         else e), s1)
             end
    end.
Proof.
  cbv zeta. unfold FetchPayloadClient.request, try_catch, bind, do_fetch.
  destruct (fetch os (world s) (FetchPayloadClient.baseURL client ++ path))
    as [[e | r] w]; simpl.
  - destruct (String.eqb (ename e) "AbortError"); reflexivity.
  - destruct (ok r); simpl.
    + destruct (truthy_str (contentType r)
                && includes "application/json" (default (contentType r) ""));
        simpl.
      * destruct (json r) as [e | p]; simpl; [| reflexivity].
        destruct (String.eqb (ename e) "AbortError"); reflexivity.
      * destruct (text r) as [e | body]; simpl; [| reflexivity].
        destruct (String.eqb (ename e) "AbortError"); reflexivity.
    + destruct (text r) as [e | body]; simpl.
      * destruct (String.eqb (ename e) "AbortError"); reflexivity.
      * reflexivity.
Qed.

End Request.

(** [request] makes exactly one [fetch], to the base URL followed by the
    path, whatever the outcome (there is no retry), and leaves the
    statistics alone. *)
Theorem request_single_fetch {W : Type} (os : World W)
  (client : FetchPayloadClient.t) (path : string) (s : State W) :
  trace (snd (FetchPayloadClient.request os client path s))
  = (trace s ++ [EvFetch (FetchPayloadClient.baseURL client ++ path)])%list
  /\ stats (snd (FetchPayloadClient.request os client path s)) = stats s.
Proof.
  rewrite request_cases. cbv zeta.
  repeat match goal with
         | |- context [match ?x with _ => _ end] => destruct x
         | |- context [if ?x then _ else _] => destruct x
         end; split; reflexivity.
Qed.

(** [request] returns data only from a response with a 2xx status: the
    parsed JSON body when the content type names [application/json], the
    text of the body otherwise. *)
Theorem request_returns_only_ok {W : Type} (os : World W)
  (client : FetchPayloadClient.t) (path : string) (s s' : State W)
  (p : Payload) :
  FetchPayloadClient.request os client path s = (Ret p, s') ->
  exists r,
    fst (fetch os (world s) (FetchPayloadClient.baseURL client ++ path))
    = Resolved r
    /\ 200 <= status r <= 299
    /\ (if truthy_str (contentType r)
           && includes "application/json" (default (contentType r) "")
        then json r = inr p
        else exists body, text r = inr body /\ p = PText body).
Proof.
  rewrite request_cases. cbv zeta.
  destruct (fst (fetch os (world s) _)) as [e | r]; [discriminate |].
  destruct (ok r) eqn:Hok.
  - intros H. exists r. split; [reflexivity |].
    split. { unfold ok in Hok. apply andb_true_iff in Hok. lia. }
    destruct (truthy_str (contentType r) && _).
    + destruct (json r) as [e | p']; [discriminate |]. now injection H as ->.
    + destruct (text r) as [e | body]; [discriminate |].
      injection H as <- _. now exists body.
  - destruct (text r); discriminate.
Qed.

Lemma request_returns_only_ok_witness :
  exists p s' r,
    FetchPayloadClient.request (Example.online ["users"]) Example.client
      "/users/count" Example.fresh = (Ret p, s')
    /\ fst (fetch (Example.online ["users"]) (world Example.fresh)
              (FetchPayloadClient.baseURL Example.client ++ "/users/count"))
       = Resolved r
    /\ 200 <= status r <= 299.
Proof.
  eexists. eexists.
  edestruct (request_returns_only_ok (Example.online ["users"]) Example.client
               "/users/count" Example.fresh) as (r & Hr & Hs & _).
  - vm_compute. reflexivity.
  - exists r. split; [vm_compute; reflexivity |]. split; [exact Hr | exact Hs].
Defined.

(** No exception named [AbortError] leaves [request]: when [fetch] is
    aborted by the timeout, the exception thrown is an [Error] whose message
    is [Request timeout: ] followed by the path. *)
Theorem request_reports_timeout {W : Type} (os : World W)
  (client : FetchPayloadClient.t) (path : string) (s s' : State W) (e : Exn) :
  FetchPayloadClient.request os client path s = (Throw e, s') ->
  ename e <> "AbortError"
  /\ (forall e0,
        fst (fetch os (world s) (FetchPayloadClient.baseURL client ++ path))
        = Rejected e0 ->
        ename e0 = "AbortError" ->
        e = Error ("Request timeout: " ++ path)).
Proof.
  rewrite request_cases. cbv zeta.
  assert (Hconv : forall e1,
            ename (if String.eqb (ename e1) "AbortError"
                   then Error ("Request timeout: " ++ path) else e1)
            <> "AbortError").
  { intros e1. destruct (String.eqb (ename e1) "AbortError") eqn:E.
    - discriminate.
    - now apply String.eqb_neq. }
  destruct (fst (fetch os (world s) _)) as [e1 | r].
  - intros H. injection H as <- _. split; [apply Hconv |].
    intros e0 He0 Hname. injection He0 as ->.
    apply String.eqb_eq in Hname. now rewrite Hname.
  - intros H. split; [| discriminate].
    destruct (ok r).
    + destruct (truthy_str (contentType r) && _).
      * destruct (json r); [| discriminate]. injection H as <- _. apply Hconv.
      * destruct (text r); [| discriminate]. injection H as <- _. apply Hconv.
    + destruct (text r); injection H as <- _; [apply Hconv | discriminate].
Qed.

Lemma request_reports_timeout_witness :
  exists s',
    FetchPayloadClient.request Worlds.timing_out Example.client "/access"
      Example.fresh = (Throw (Error "Request timeout: /access"), s')
    /\ ename (Error "Request timeout: /access") <> "AbortError".
Proof.
  eexists. split; [vm_compute; reflexivity |].
  eapply (request_reports_timeout Worlds.timing_out Example.client "/access"
            Example.fresh).
  vm_compute. reflexivity.
Defined.

(* ================================================================== *)
(** * Full retrieval *)

Section FullRetrieval.
Context {W : Type} (os : World W) (penv : Config.ProcessEnv).
Variables (client : FetchPayloadClient.t) (coll : string)
  (options : FetchPayloadClient.Options.t).

Lemma getCollectionData_single_fetch opts s :
  trace (snd (FetchPayloadClient.getCollectionData os penv client coll opts s))
  = (trace s ++ [EvFetch (data_url penv client coll opts)])%list.
Proof.
  unfold FetchPayloadClient.getCollectionData, FetchPayloadClient.limitedRequest,
    FetchPayloadClient.delay, data_url.
  unfold bind at 1, ret at 1.
  match goal with |- context [FetchPayloadClient.request os client ?path s] =>
    destruct (request_single_fetch os client path s) as [Ht _]; rewrite Ht end.
  reflexivity.
Qed.

Ltac stop_here :=
  exists 1%nat; simpl; rewrite Z.add_0_r;
  split; [assumption | split; [assumption | assumption]].

Lemma getAllCollectionData_loop_requests fuel :
  forall allDocs p s,
    exists k,
      (k <= fuel)%nat /\ (fuel <> 0%nat -> (1 <= k)%nat)
      /\ trace (snd (FetchPayloadClient.getAllCollectionData_loop os penv fuel
                       client coll options allDocs p s))
         = (trace s
            ++ map (fun i => EvFetch
                      (data_url penv client coll
                         (FetchPayloadClient.Options.with_page options
                            (p + Z.of_nat i))))
                   (seq 0 k))%list.
Proof.
  induction fuel as [|fuel IH]; intros allDocs p s.
  - exists 0%nat. simpl. rewrite app_nil_r. repeat split; auto. congruence.
  - assert (Hnz : S fuel <> 0%nat -> (1 <= 1)%nat) by lia.
    assert (Hle : (1 <= S fuel)%nat) by lia.
    simpl.
    pose proof (getCollectionData_single_fetch
                  (FetchPayloadClient.Options.with_page options p) s) as Hone.
    unfold bind at 1, try_catch, bind at 1.
    destruct (FetchPayloadClient.getCollectionData os penv client coll
                (FetchPayloadClient.Options.with_page options p) s)
      as [[payload | e |] s1]; simpl in Hone.
    + destruct payload as [| body | o]; simpl; try stop_here.
      destruct (docs o) as [[| doc rest] |]; simpl; try stop_here.
      destruct (FetchPayloadClient.more_pages (hasNextPage o) (nextPage o) p);
        try stop_here.
      destruct (IH (allDocs ++ doc :: rest)%list (p + 1) s1)
        as (k & Hk & Hk1 & Htrace).
      exists (S k). split; [lia |]. split; [lia |].
      rewrite Htrace, Hone. rewrite <- app_assoc. f_equal.
      simpl. rewrite Z.add_0_r. f_equal.
      rewrite <- seq_shift, map_map. apply map_ext. intros i.
      do 3 f_equal. lia.
    + stop_here.
    + stop_here.
Qed.

Lemma getAllCollectionData_loop_until_end :
  forall pages p s s',
    pages_until_end os penv client coll options p s pages s' ->
    forall fuel allDocs,
      (length pages < fuel)%nat ->
      FetchPayloadClient.getAllCollectionData_loop os penv fuel client coll
        options allDocs p s
      = (Ret (allDocs ++ concat pages)%list, s').
Proof.
  intros pages p s s' Hpages.
  induction Hpages as [p s s' o doc rest Hpage Hdocs Hmore
                      | p s s' payload Hpage Hdocs
                      | p s s1 s' o doc rest pages Hpage Hdocs Hmore Hrest IH];
    intros fuel allDocs Hfuel;
    (destruct fuel as [|fuel]; [simpl in Hfuel; lia |]); simpl.
  - unfold bind at 1, try_catch, bind at 1. rewrite Hpage.
    simpl. rewrite Hdocs. simpl. rewrite Hmore. now rewrite app_nil_r.
  - unfold bind at 1, try_catch, bind at 1. rewrite Hpage.
    unfold bind at 1. destruct Hdocs as [-> | ->]; simpl;
      now rewrite app_nil_r.
  - simpl in Hfuel.
    unfold bind at 1, try_catch, bind at 1. rewrite Hpage.
    simpl. rewrite Hdocs. simpl. rewrite Hmore.
    rewrite IH by lia. now rewrite <- app_assoc.
Qed.

End FullRetrieval.

(** [getAllCollectionData] lets no exception out, whatever the pages are: a
    run returns documents, unless the pagination never ends. *)
Theorem full_retrieval_never_throws {W : Type} (os : World W)
  (penv : Config.ProcessEnv) (fuel : nat) (client : FetchPayloadClient.t)
  (coll : string) (options : FetchPayloadClient.Options.t) (s : State W) :
  (exists documents s',
     FetchPayloadClient.getAllCollectionData os penv fuel client coll options s
     = (Ret documents, s'))
  \/ (exists s',
        FetchPayloadClient.getAllCollectionData os penv fuel client coll
          options s = (Diverge, s')).
Proof.
  destruct (FetchPayloadClient.getAllCollectionData os penv fuel client coll
              options s) as [[documents | e |] s'] eqn:E.
  - left. eauto.
  - exfalso. eapply getAllCollectionData_never_throws. exact E.
  - right. eauto.
Qed.

(** The requests of [getAllCollectionData] are those for pages 1, 2, ..., k,
    in this order and each made once, whatever ends the pagination; nothing
    else is done to the world. The limit, the depth and the page numbers are
    taken among the integers JavaScript counts exactly and writes in plain
    digits, as they are written in the URL. *)
Theorem pagination_requests_in_order {W : Type} (os : World W)
  (penv : Config.ProcessEnv) (fuel : nat) (client : FetchPayloadClient.t)
  (coll : string) (options : FetchPayloadClient.Options.t) (s : State W) :
  safe_integer (default (FetchPayloadClient.Options.limit options)
                  (Config.batchSize (Config.RATE_LIMIT_CONFIG penv))) ->
  safe_integer (default (FetchPayloadClient.Options.depth options) 2) ->
  safe_integer (1 + Z.of_nat fuel) ->
  exists k,
    (k <= fuel)%nat /\ (fuel <> 0%nat -> (1 <= k)%nat)
    /\ trace (snd (FetchPayloadClient.getAllCollectionData os penv fuel client
                     coll options s))
       = (trace s
          ++ map (fun i => EvFetch
                    (data_url penv client coll
                       (FetchPayloadClient.Options.with_page options
                          (1 + Z.of_nat i))))
                 (seq 0 k))%list.
Proof. intros _ _ _. apply getAllCollectionData_loop_requests. Qed.

(** The three pages of [notes] are asked for, in order. *)
Lemma pagination_requests_in_order_witness :
  exists k,
    (k <= 10)%nat /\ (10%nat <> 0%nat -> (1 <= k)%nat)
    /\ trace (snd (FetchPayloadClient.getAllCollectionData Worlds.paged
                     Example.penv 10 Example.client "notes"
                     FetchPayloadClient.Options.empty Example.fresh))
       = (trace Example.fresh
          ++ map (fun i => EvFetch
                    (data_url Example.penv Example.client "notes"
                       (FetchPayloadClient.Options.with_page
                          FetchPayloadClient.Options.empty (1 + Z.of_nat i))))
                 (seq 0 k))%list.
Proof.
  apply (pagination_requests_in_order Worlds.paged Example.penv 10
           Example.client "notes" FetchPayloadClient.Options.empty
           Example.fresh).
  - unfold safe_integer. vm_compute. split; reflexivity.
  - unfold safe_integer. vm_compute. split; reflexivity.
  - unfold safe_integer. vm_compute. split; reflexivity.
Defined.

(** When no page request fails, [getAllCollectionData] returns the
    documents of all the pages, in page order: it goes on as long as a page
    has documents and says that more follows ([hasNextPage], or a [nextPage]
    beyond the current page), and ends with the first page that says nothing
    follows or has no documents. *)
Theorem full_retrieval_concatenates_pages {W : Type} (os : World W)
  (penv : Config.ProcessEnv) (client : FetchPayloadClient.t) (coll : string)
  (options : FetchPayloadClient.Options.t) (fuel : nat)
  (pages : list (list Json)) (s s' : State W) :
  pages_until_end os penv client coll options 1 s pages s' ->
  (length pages < fuel)%nat ->
  FetchPayloadClient.getAllCollectionData os penv fuel client coll options s
  = (Ret (concat pages), s').
Proof.
  intros Hpages Hfuel. unfold FetchPayloadClient.getAllCollectionData.
  now rewrite (getAllCollectionData_loop_until_end os penv client coll options
                 pages 1 s s' Hpages fuel [] Hfuel).
Qed.

(** The five [notes], in three pages, the third reached through [nextPage]
    alone. *)
Lemma full_retrieval_concatenates_pages_witness :
  exists s',
    FetchPayloadClient.getAllCollectionData Worlds.paged Example.penv 10
      Example.client "notes" FetchPayloadClient.Options.empty Example.fresh
    = (Ret [Worlds.note 1; Worlds.note 2; Worlds.note 3; Worlds.note 4;
            Worlds.note 5], s')
    /\ length (trace s') = 3%nat.
Proof.
  eexists. split.
  - apply (full_retrieval_concatenates_pages Worlds.paged Example.penv
             Example.client "notes" FetchPayloadClient.Options.empty 10
             [[Worlds.note 1; Worlds.note 2]; [Worlds.note 3; Worlds.note 4];
              [Worlds.note 5]]).
    + eapply PageIsFollowed;
        [vm_compute; reflexivity | reflexivity | reflexivity |].
      eapply PageIsFollowed;
        [vm_compute; reflexivity | reflexivity | reflexivity |].
      eapply PageIsLast; [vm_compute; reflexivity | reflexivity | reflexivity].
    + simpl. lia.
  - reflexivity.
Defined.

(* ================================================================== *)
(** * The probes *)

(** The descriptor [getCollectionSchema] returns carries an [error] exactly
    when the request for the sample failed, or its body was [null], or the
    sample document was [null]; such a descriptor has no fields, no sample
    and a total of 0, like the one of an empty collection. *)
Theorem schema_error_iff_failure {W : Type} (os : World W)
  (penv : Config.ProcessEnv) (client : FetchPayloadClient.t) (coll : string)
  (s s' : State W) (descriptor : SchemaDescriptor) :
  FetchPayloadClient.getCollectionSchema os penv client coll s
  = (Ret descriptor, s') ->
  (schema_error descriptor = None <->
   exists payload,
     FetchPayloadClient.getCollectionData os penv client coll
       (FetchPayloadClient.Options.mk None (Some 1) None None) s
     = (Ret payload, s')
     /\ payload <> PNull /\ first_doc payload <> Some JNull)
  /\ (schema_error descriptor <> None ->
      fields descriptor = [] /\ sampleDoc descriptor = None
      /\ schema_totalDocs descriptor = 0).
Proof.
  unfold FetchPayloadClient.getCollectionSchema, try_catch, bind at 1.
  destruct (FetchPayloadClient.getCollectionData os penv client coll
              (FetchPayloadClient.Options.mk None (Some 1) None None) s)
    as [[payload | e |] s1] eqn:Hdata.
  - destruct payload as [| body | o]; simpl.
    + intros H. injection H as <- <-. simpl. split.
      * split; [discriminate |].
        intros (payload & Heq & Hnull & _). injection Heq as <-.
        now contradiction Hnull.
      * auto.
    + intros H. injection H as <- <-. simpl. split.
      * split; [| reflexivity]. intros _. exists (PText body).
        repeat split; discriminate.
      * intros Hne. now contradiction Hne.
    + destruct (docs o) as [[| sample rest] |] eqn:Hdocs; simpl.
      * intros H. injection H as <- <-. simpl. split.
        -- split; [| reflexivity]. intros _. exists (PObject o).
           split; [reflexivity |]. split; [discriminate |].
           simpl. rewrite Hdocs. discriminate.
        -- intros Hne. now contradiction Hne.
      * destruct sample; simpl; intros H; injection H as <- <-; simpl.
        1: { split; [| auto]. split; [discriminate |].
             intros (payload & Heq & _ & Hfirst). injection Heq as <-.
             simpl in Hfirst. rewrite Hdocs in Hfirst.
             now contradiction Hfirst. }
        all: (split;
              [ split; [| reflexivity]; intros _; exists (PObject o);
                split; [reflexivity |]; split; [discriminate |];
                simpl; rewrite Hdocs; discriminate
              | intros Hne; now contradiction Hne ]).
      * intros H. injection H as <- <-. simpl. split.
        -- split; [| reflexivity]. intros _. exists (PObject o).
           split; [reflexivity |]. split; [discriminate |].
           simpl. rewrite Hdocs. discriminate.
        -- intros Hne. now contradiction Hne.
  - simpl. intros H. injection H as <- <-. simpl. split.
    + split; [discriminate |]. intros (payload & Heq & _). discriminate.
    + auto.
  - discriminate.
Qed.

(** The schema request of [media] fails: the descriptor carries the error
    and nothing else. *)
Lemma schema_error_iff_failure_witness :
  exists descriptor s',
    FetchPayloadClient.getCollectionSchema (Example.online ["media"])
      Example.penv Example.client "media" Example.fresh = (Ret descriptor, s')
    /\ schema_error descriptor = Some "HTTP 500: Internal Server Error"
    /\ fields descriptor = [] /\ sampleDoc descriptor = None
    /\ schema_totalDocs descriptor = 0.
Proof.
  eexists. eexists. split; [vm_compute; reflexivity |].
  split; [reflexivity |].
  eapply (schema_error_iff_failure (Example.online ["media"]) Example.penv
            Example.client "media" Example.fresh).
  - vm_compute. reflexivity.
  - discriminate.
Defined.

(** [validateConnection] answers true exactly when the access request
    returned a body that is not [null] (be it a text that is no JSON at
    all); it makes that one request and nothing else. *)
Theorem validation_passes_iff {W : Type} (os : World W)
  (client : FetchPayloadClient.t) (s s' : State W) :
  BackupService.validateConnection os client s = (Ret true, s') <->
  exists payload,
    FetchPayloadClient.getAccess os client s = (Ret payload, s')
    /\ payload <> PNull.
Proof.
  unfold BackupService.validateConnection, try_catch, bind at 1.
  destruct (FetchPayloadClient.getAccess os client s)
    as [[payload | e |] s1] eqn:Haccess.
  - destruct payload as [| body | o]; simpl; split.
    + discriminate.
    + intros (payload & Heq & Hnull). injection Heq as <- _.
      now contradiction Hnull.
    + intros H. injection H as <-. exists (PText body).
      split; [reflexivity | discriminate].
    + intros (payload & Heq & _). now injection Heq as _ <-.
    + intros H. injection H as <-. exists (PObject o).
      split; [reflexivity | discriminate].
    + intros (payload & Heq & _). now injection Heq as _ <-.
  - simpl. split; [discriminate |]. intros (payload & Heq & _). discriminate.
  - split; [discriminate |]. intros (payload & Heq & _). discriminate.
Qed.

(* ================================================================== *)
(** * Invariants of the statistics *)

(** What holds of every assignment to [this.stats] holds of the
    operations of the service: [R] relates the states around each
    assignment, and so the states around each operation. *)
Section Walk.
Context {W : Type} (os : World W) (penv : Config.ProcessEnv).
Variable R : State W -> State W -> Prop.
Hypothesis HR : stats_order R.
Hypothesis Hstart : forall d, steps R (modify_stats (BackupService.set_startTime d)).
Hypothesis Hend : forall d, steps R (modify_stats (BackupService.set_endTime d)).
Hypothesis Htotal :
  forall n, steps R (modify_stats (BackupService.set_totalCollections n)).
Hypothesis Hrecords :
  forall n, 0 <= n -> steps R (modify_stats (BackupService.add_totalRecords n)).
Hypothesis Hsuccessful :
  steps R (modify_stats (BackupService.add_successfulCollections 1)).
Hypothesis Hfailed :
  forall coll msg (k : M W bool),
    steps R k ->
    steps R (modify_stats (BackupService.add_failedCollections 1) ;;;
             modify_stats (BackupService.push_errors
                             (mkEntry (Some coll) "backup" msg)) ;;;
             k).
Hypothesis Hdiscovery :
  forall coll msg,
    steps R (modify_stats (BackupService.push_errors
                             (mkEntry (Some coll) "discovery" msg))).
Hypothesis Hgeneral :
  forall msg,
    steps R (modify_stats (BackupService.push_errors
                             (mkEntry None "general" msg))).

Ltac walk :=
  repeat first
    [ frame_lemma
    | apply Hstart | apply Hend | apply Htotal | apply Hrecords; lia
    | apply Hsuccessful | apply Hfailed | apply Hdiscovery | apply Hgeneral
    | apply (steps_bind _ HR) | apply (steps_try_catch _ HR)
    | apply steps_attempt | apply (steps_ret _ HR)
    | apply (steps_throw _ HR) | apply (steps_lift _ HR)
    | apply (steps_now _ HR) | apply (steps_get_stats _ HR)
    | match goal with
      | |- forall _, _ => intro
      | |- steps _ (if ?b then _ else _) => destruct b
      | |- steps _ (match ?x with _ => _ end) => destruct x
      end ].

Lemma walk_validateConnection client :
  steps R (BackupService.validateConnection os client).
Proof. unfold BackupService.validateConnection. walk. Qed.

Lemma walk_analyzeCollection client fm env infos coll :
  steps R (BackupService.analyzeCollection os penv client fm env infos coll).
Proof. unfold BackupService.analyzeCollection. walk. Qed.

Lemma walk_analyzeCollections client fm env colls :
  forall infos,
    steps R (BackupService.analyzeCollections os penv client fm env colls infos).
Proof.
  induction colls as [|coll rest IH]; intros infos; simpl.
  - walk.
  - apply (steps_bind _ HR); [apply walk_analyzeCollection | apply IH].
Qed.

Lemma walk_discoverCollections client fm env :
  steps R (BackupService.discoverCollections os penv client fm env).
Proof.
  unfold BackupService.discoverCollections.
  apply (steps_try_catch _ HR); [| walk].
  apply (steps_bind _ HR); [walk | intro].
  apply (steps_bind _ HR); [walk | intro].
  apply walk_analyzeCollections.
Qed.

Lemma walk_backupCollection fuel client fm env info :
  steps R (BackupService.backupCollection os penv fuel client fm env info).
Proof. unfold BackupService.backupCollection. walk. Qed.

Lemma walk_backupCollections fuel client fm env colls :
  steps R (BackupService.backupCollections os penv fuel client fm env colls).
Proof.
  induction colls as [|col rest IH]; simpl.
  - walk.
  - apply (steps_bind _ HR); [apply walk_backupCollection | intro; apply IH].
Qed.

Lemma walk_getBackupResult env fm colls :
  steps R (@BackupService.getBackupResult W env fm colls).
Proof. unfold BackupService.getBackupResult. walk. Qed.

Lemma walk_generateFinalReport env fm colls :
  steps R (BackupService.generateFinalReport os env fm colls).
Proof.
  unfold BackupService.generateFinalReport, BackupService.getBackupResult.
  walk.
Qed.

Lemma walk_performBackup fuel env :
  steps R (BackupService.performBackup os penv fuel env).
Proof.
  unfold BackupService.performBackup.
  apply (steps_bind _ HR); [walk | intro].
  apply (steps_bind _ HR); [walk | intro].
  apply (steps_try_catch _ HR).
  - do 3 (apply (steps_bind _ HR); [walk | intro]).
    apply (steps_bind _ HR); [apply walk_validateConnection | intro].
    destruct (negb _); [walk |].
    apply (steps_bind _ HR); [walk | intro].
    apply (steps_bind _ HR); [apply walk_discoverCollections | intro].
    apply (steps_bind _ HR); [walk | intro].
    destruct (_ =? _)%nat; [apply walk_getBackupResult |].
    apply (steps_bind _ HR); [apply walk_backupCollections | intro].
    apply walk_generateFinalReport.
  - intro. apply (steps_bind _ HR); [walk | intro].
    apply walk_getBackupResult.
Qed.

End Walk.

Section Keeps.
Context {W : Type} (os : World W) (penv : Config.ProcessEnv).
Variable I : BackupStats -> Prop.

Lemma keeps_order : stats_order (@keeps W I).
Proof.
  split; unfold keeps.
  - intros s s' E. now rewrite E.
  - auto.
Qed.

Lemma steps_modify_keeps f :
  (forall st, I st -> I (f st)) -> steps (@keeps W I) (modify_stats f).
Proof. intros Hf s Hs. unfold modify_stats. simpl. now apply Hf. Qed.

Lemma steps_modify_pair_keeps {A} f g (k : M W A) :
  (forall st, I st -> I (g (f st))) ->
  steps (keeps I) k ->
  steps (keeps I) (modify_stats f ;;; modify_stats g ;;; k).
Proof.
  intros Hfg Hk s HI. unfold bind, modify_stats. simpl.
  apply Hk. simpl. now apply Hfg.
Qed.

Hypothesis HI : service_invariant I.

(** An invariant of the statistics that survives the assignments survives a
    run of [performBackup], however the run ends. *)
Lemma performBackup_keeps fuel env :
  steps (keeps I) (BackupService.performBackup os penv fuel env).
Proof.
  apply walk_performBackup.
  - apply keeps_order.
  - intros d. apply steps_modify_keeps. intros st. apply (inv_startTime I HI).
  - intros d. apply steps_modify_keeps. intros st. apply (inv_endTime I HI).
  - intros n. apply steps_modify_keeps. intros st.
    apply (inv_totalCollections I HI).
  - intros n Hn. apply steps_modify_keeps. intros st.
    now apply (inv_totalRecords I HI).
  - apply steps_modify_keeps. intros st.
    apply (inv_successfulCollections I HI).
  - intros coll msg k Hk. apply steps_modify_pair_keeps; [| exact Hk].
    intros st. apply (inv_failure I HI).
  - intros coll msg. apply steps_modify_keeps. intros st.
    apply (inv_discovery I HI).
  - intros msg. apply steps_modify_keeps. intros st.
    apply (inv_general I HI).
Qed.

End Keeps.

Lemma failures_match_invariant : service_invariant failures_match.
Proof.
  split; unfold failures_match; simpl; intros; try assumption.
  - rewrite filter_app, length_app. simpl. lia.
  - rewrite filter_app. simpl. now rewrite app_nil_r.
  - rewrite filter_app. simpl. now rewrite app_nil_r.
Qed.

Lemma well_formed_invariant :
  service_invariant (fun st => Forall well_formed_entry (errors st)).
Proof.
  split; simpl; intros; try assumption;
    apply Forall_app; (split; [assumption |]); constructor; auto;
    unfold well_formed_entry; simpl.
  - left. eauto.
  - left. eauto.
  - right. auto.
Qed.

(** [failedCollections] always equals the number of entries of phase
    [backup] in [errors]: the two are only ever changed together. So on an
    instance for which this holds when [performBackup] is called (a new one
    does), the result is a success exactly when [errors] is empty. *)
Theorem failures_are_backup_entries {W : Type} (os : World W)
  (penv : Config.ProcessEnv) (fuel : nat) (env : string)
  (s s' : State W) (r : BackupResult) :
  failures_match (stats s) ->
  BackupService.performBackup os penv fuel env s = (Ret r, s') ->
  failedCollections (statistics r)
  = Z.of_nat (length (filter is_backup_entry (errors (statistics r))))
  /\ (success r = true <-> errors (statistics r) = []).
Proof.
  intros Hinv Hrun.
  pose proof (performBackup_keeps os penv failures_match
                failures_match_invariant fuel env s) as Hkept.
  specialize (Hkept Hinv).
  destruct (performBackup_reflects os penv fuel env s r s' Hrun) as [Hs Hst].
  unfold keeps in Hkept. rewrite Hrun in Hkept. simpl in Hkept.
  rewrite <- Hst in Hkept.
  split; [exact Hkept |].
  unfold success_matches in Hs. rewrite Hs. split.
  - intros [_ Hlen]. now apply length_zero_iff_nil.
  - intros Hnil. unfold failures_match in Hkept.
    rewrite Hnil in *. simpl in Hkept. now split.
Qed.

Lemma failures_are_backup_entries_witness :
  exists r s',
    BackupService.performBackup (Example.online ["users"; "secret"])
      Example.penv 10 "test" Example.fresh = (Ret r, s')
    /\ failedCollections (statistics r)
       = Z.of_nat (length (filter is_backup_entry (errors (statistics r))))
    /\ (success r = true <-> errors (statistics r) = []).
Proof.
  eexists. eexists. split; [vm_compute; reflexivity |].
  eapply (failures_are_backup_entries (Example.online ["users"; "secret"])
           Example.penv 10 "test" Example.fresh).
  - reflexivity.
  - vm_compute. reflexivity.
Defined.

(** Every entry of [errors] has phase [discovery] or [backup] and names a
    collection, or has phase [general] and names none: no run of
    [performBackup] records anything else. *)
Theorem entries_are_well_formed {W : Type} (os : World W)
  (penv : Config.ProcessEnv) (fuel : nat) (env : string)
  (s s' : State W) (r : BackupResult) :
  Forall well_formed_entry (errors (stats s)) ->
  BackupService.performBackup os penv fuel env s = (Ret r, s') ->
  Forall well_formed_entry (errors (statistics r)).
Proof.
  intros Hinv Hrun.
  pose proof (performBackup_keeps os penv _ well_formed_invariant fuel env s)
    as Hkept.
  specialize (Hkept Hinv).
  destruct (performBackup_reflects os penv fuel env s r s' Hrun) as [_ Hst].
  unfold keeps in Hkept. rewrite Hrun in Hkept. simpl in Hkept.
  now rewrite Hst.
Qed.

Lemma entries_are_well_formed_witness :
  exists r s',
    BackupService.performBackup (Example.online ["users"; "secret"])
      Example.penv 10 "test" Example.fresh = (Ret r, s')
    /\ length (errors (statistics r)) = 1%nat
    /\ Forall well_formed_entry (errors (statistics r)).
Proof.
  eexists. eexists. split; [vm_compute; reflexivity |].
  split; [reflexivity |].
  eapply (entries_are_well_formed (Example.online ["users"; "secret"])
           Example.penv 10 "test" Example.fresh).
  - constructor.
  - vm_compute. reflexivity.
Defined.

(* ================================================================== *)
(** * What [backupCollection] does to the statistics *)

Ltac bind_case H :=
  match type of H with
  | bind ?m ?k ?t = _ =>
      let E := fresh "E" in
      unfold bind at 1 in H;
      destruct (m t) as [[?a|?e|] ?s] eqn:E;
      cbv beta iota in H
  end.

Section BackupEffect.
Context {W : Type} (os : World W) (penv : Config.ProcessEnv).
Implicit Types s t : State W.

Lemma unchanged {A} (m : M W A) s :
  steps (@same_stats W) m -> stats (snd (m s)) = stats s.
Proof. intros H. apply H. Qed.

Lemma never_diverges_saveCollectionData fm env coll data :
  never_diverges (FileManager.saveCollectionData os fm env coll data).
Proof.
  unfold FileManager.saveCollectionData, FileManager.ensureDir. nd_tac.
Qed.

Lemma never_diverges_saveCollectionSchema fm env coll sch :
  never_diverges (FileManager.saveCollectionSchema os penv fm env coll sch).
Proof.
  unfold FileManager.saveCollectionSchema, FileManager.ensureDir. nd_tac.
Qed.

(** The [catch] block: the failure is recorded, then the log entry is
    appended, which may throw. *)
Lemma backup_catch_effect fm env coll lmsg ex (e : Exn) t r t' :
  (modify_stats (BackupService.add_failedCollections 1) ;;;
   modify_stats (BackupService.push_errors
                   (mkEntry (Some coll) "backup" (message e))) ;;;
   FileManager.addLog os penv fm env "ERROR" lmsg ex ;;;
   ret false) t = (r, t') ->
  (r = Ret false \/ exists e', r = Throw e')
  /\ stats t'
     = BackupService.push_errors (mkEntry (Some coll) "backup" (message e))
         (BackupService.add_failedCollections 1 (stats t)).
Proof.
  unfold bind at 1 2. unfold modify_stats at 1 2.
  cbv beta iota zeta. cbn [stats trace world].
  match goal with |- context [bind ?m _ ?t2] =>
    pose proof (unchanged m t2
                  (steps_addLog os penv _ same_stats_order fm env _ _ _)) as Hst;
    pose proof (never_diverges_addLog os penv fm env "ERROR" lmsg ex t2) as Hnd;
    unfold bind; destruct (m t2) as [[u|e'|] t3] eqn:E
  end; cbn [fst snd stats] in Hst; unfold ret; intros H; inversion H; subst.
  - split; [now left | exact Hst].
  - split; [right; eauto | exact Hst].
  - exfalso. now apply (Hnd t').
Qed.

(** The [try] block: when it is left by an exception or by the end of the
    fuel, the counters are as they were or a success has been counted. *)
Lemma backup_try_effect fuel cl fm env coll sch lmsg cnt s r s1 :
  (data <- FetchPayloadClient.getAllCollectionData os penv fuel cl coll
             FetchPayloadClient.Options.empty ;;
   FileManager.saveCollectionData os fm env coll data ;;;
   FileManager.saveCollectionSchema os penv fm env coll sch ;;;
   modify_stats (BackupService.add_totalRecords (Z.of_nat (length data))) ;;;
   modify_stats (BackupService.add_successfulCollections 1) ;;;
   FileManager.addLog os penv fm env "INFO" lmsg
     (ExtraBackedUp coll (Z.of_nat (length data)) cnt) ;;;
   ret true) s = (r, s1) ->
  (r = Diverge /\ stats s1 = stats s)
  \/ (r <> Diverge /\ r <> Ret false
      /\ ((stats s1 = stats s /\ exists e, r = Throw e)
          \/ exists n, 0 <= n
               /\ stats s1 = BackupService.add_successfulCollections 1
                               (BackupService.add_totalRecords n (stats s)))).
Proof.
  intros H.
  bind_case H.
  2, 3: pose proof (unchanged _ s
          (steps_getAllCollectionData os penv _ same_stats_order fuel cl coll
             FetchPayloadClient.Options.empty)) as F1;
        rewrite E in F1; cbn [snd] in F1; inversion H; subst.
  2: { right. repeat split; try discriminate. left. eauto. }
  2: { left. now split. }
  pose proof (unchanged _ s
          (steps_getAllCollectionData os penv _ same_stats_order fuel cl coll
             FetchPayloadClient.Options.empty)) as F1.
  rewrite E in F1. cbn [snd] in F1. clear E.
  bind_case H.
  all: match type of E with ?m ?t = _ =>
         pose proof (unchanged m t
           (steps_saveCollectionData os _ same_stats_order fm env coll _)) as F2;
         pose proof (never_diverges_saveCollectionData fm env coll a t) as N2;
         rewrite E in F2, N2; cbn [snd] in F2 end.
  2: { inversion H; subst. right. repeat split; try discriminate.
       left. split; [congruence | eauto]. }
  2: { exfalso. now apply (N2 s2). }
  clear E N2.
  bind_case H.
  all: match type of E with ?m ?t = _ =>
         pose proof (unchanged m t
           (steps_saveCollectionSchema os penv _ same_stats_order fm env coll
              sch)) as F3;
         pose proof (never_diverges_saveCollectionSchema fm env coll sch t)
           as N3;
         rewrite E in F3, N3; cbn [snd] in F3 end.
  2: { inversion H; subst. right. repeat split; try discriminate.
       left. split; [congruence | eauto]. }
  2: { exfalso. now apply (N3 s3). }
  clear E N3.
  unfold bind at 1 2 in H. unfold modify_stats at 1 2 in H.
  cbv beta iota zeta in H. cbn [stats trace world] in H.
  bind_case H.
  all: match type of E with ?m ?t = _ =>
         pose proof (unchanged m t
           (steps_addLog os penv _ same_stats_order fm env _ _ _)) as F4;
         assert (N4 : forall s', m t <> (Diverge, s'))
           by (intro; apply never_diverges_addLog);
         rewrite E in F4, N4; cbn [snd stats] in F4 end.
  3: { exfalso. now apply (N4 s4). }
  all: inversion H; subst; right; repeat split; try discriminate; right;
    exists (Z.of_nat (length a)); (split; [lia |]);
    rewrite F4; congruence.
Qed.

(** All that [backupCollection] can do to the statistics, for each way it
    can end. *)
Lemma backupCollection_effect fuel cl fm env info s r s' :
  BackupService.backupCollection os penv fuel cl fm env info s = (r, s') ->
  at_most_one_success (stats s) (stats s')
  /\ totalCollections (stats s') = totalCollections (stats s)
  /\ ((r = Ret true /\ no_failure_recorded (stats s) (stats s'))
      \/ ((r = Ret false \/ exists e, r = Throw e)
          /\ failure_recorded (name info) (stats s) (stats s'))
      \/ (r = Diverge /\ stats s' = stats s)).
Proof.
  unfold BackupService.backupCollection.
  destruct (BackupService.is_zero (count info)).
  { unfold ret. intros H. inversion H; subst.
    unfold at_most_one_success, no_failure_recorded. auto 6. }
  unfold try_catch.
  match goal with |- context [match ?m s with _ => _ end] =>
    destruct (m s) as [[b|e|] s1] eqn:Etry
  end; apply backup_try_effect in Etry;
  destruct Etry as [[Hr Hst] | (Hnd & Hnf & [[Hst [e' He']] | (n & Hn & Hst)])];
  try discriminate; try congruence; intros H.
  - inversion H; subst. rewrite Hst.
    unfold at_most_one_success, no_failure_recorded. simpl.
    split; [right; lia |]. split; [reflexivity |]. left.
    destruct b; [auto | congruence].
  - apply backup_catch_effect in H. destruct H as [Hres H]. rewrite H, Hst.
    unfold at_most_one_success, failure_recorded. simpl.
    split; [left; auto |]. split; [reflexivity |]. right. left.
    split; [exact Hres |]. split; [reflexivity | eauto].
  - apply backup_catch_effect in H. destruct H as [Hres H]. rewrite H, Hst.
    unfold at_most_one_success, failure_recorded. simpl.
    split; [right; lia |]. split; [reflexivity |]. right. left.
    split; [exact Hres |]. split; [reflexivity | eauto].
  - inversion H; subst. rewrite Hst.
    unfold at_most_one_success. auto 7.
Qed.

End BackupEffect.

(** The boolean returned by [backupCollection] tells what was recorded:
    [true] when no failure was recorded, [false] when [failedCollections]
    was increased by one and one entry of phase [backup] naming the
    collection was appended to [errors]. *)
Theorem backupCollection_result_is_truthful {W : Type} (os : World W)
  (penv : Config.ProcessEnv) (fuel : nat) (client : FetchPayloadClient.t)
  (fileManager : FileManager.t) (env : string) (info : CollectionInfo)
  (s s' : State W) (b : bool) :
  BackupService.backupCollection os penv fuel client fileManager env info s
  = (Ret b, s') ->
  (b = true /\ no_failure_recorded (stats s) (stats s'))
  \/ (b = false /\ failure_recorded (name info) (stats s) (stats s')).
Proof.
  intros H. apply backupCollection_effect in H.
  destruct H as (_ & _ & [[Hb Hrec] | [[[Hb | [e Hb]] Hrec] | [Hb _]]]);
    try discriminate.
  - left. split; [congruence | exact Hrec].
  - right. split; [congruence | exact Hrec].
Qed.

Lemma backupCollection_result_is_truthful_witness :
  exists s',
    BackupService.backupCollection (Example.flaky_disk 9) Example.penv 10
      Example.client Example.fileManager "test" Example.users_info
      Example.fresh = (Ret false, s')
    /\ failure_recorded "users" (stats Example.fresh) (stats s').
Proof.
  eexists. split; [vm_compute; reflexivity |].
  edestruct (backupCollection_result_is_truthful (Example.flaky_disk 9)
               Example.penv 10 Example.client Example.fileManager "test"
               Example.users_info Example.fresh)
    as [[Hb _] | [_ H]].
  - vm_compute. reflexivity.
  - discriminate Hb.
  - exact H.
Defined.

(* ================================================================== *)
(** * The counters against the number of collections *)

Section Hoare.
Context {W : Type}.

Lemma hoare_bind {A B} P (Q1 : A -> BackupStats -> Prop) Q Qx
  (m : M W A) (k : A -> M W B) :
  hoare P m Q1 Qx ->
  (forall a, hoare (Q1 a) (k a) Q Qx) ->
  hoare P (bind m k) Q Qx.
Proof.
  intros Hm Hk s HP. specialize (Hm s HP). unfold bind.
  destruct (m s) as [[a|e|] s1]; [| exact Hm | exact Hm].
  apply (Hk a s1 Hm).
Qed.

Lemma hoare_try_catch {A} P Q (Q1x Qx : BackupStats -> Prop)
  (m : M W A) (h : Exn -> M W A) :
  hoare P m Q Q1x ->
  (forall e, hoare Q1x (h e) Q Qx) ->
  (forall st, Q1x st -> Qx st) ->
  hoare P (try_catch m h) Q Qx.
Proof.
  intros Hm Hh Hx s HP. specialize (Hm s HP). unfold try_catch.
  destruct (m s) as [[a|e|] s1]; [exact Hm | | now apply Hx].
  apply (Hh e s1 Hm).
Qed.

Lemma hoare_weaken {A} (P P' : BackupStats -> Prop)
  (Q Q' : A -> BackupStats -> Prop) (Qx Qx' : BackupStats -> Prop)
  (m : M W A) :
  hoare P m Q Qx ->
  (forall st, P' st -> P st) ->
  (forall a st, Q a st -> Q' a st) ->
  (forall st, Qx st -> Qx' st) ->
  hoare P' m Q' Qx'.
Proof.
  intros Hm HP HQ HQx s HP'. specialize (Hm s (HP _ HP')).
  destruct (m s) as [[a|e|] s1]; auto.
Qed.

Lemma hoare_keeps {A} (I : BackupStats -> Prop) (m : M W A) :
  steps (keeps I) m -> hoare I m (fun _ => I) I.
Proof.
  intros Hm s HI. specialize (Hm s HI).
  destruct (m s) as [[a|e|] s1]; exact Hm.
Qed.

Lemma hoare_modify (P Q Qx : BackupStats -> Prop) f :
  (forall st, P st -> Q (f st)) ->
  hoare P (@modify_stats W f) (fun _ => Q) Qx.
Proof. intros Hf s HP. simpl. now apply Hf. Qed.

(** A step that keeps [I], inside a block left with [Qx] by an exception. *)
Lemma hoare_kept {A} (I Qx : BackupStats -> Prop) (m : M W A) :
  steps (keeps I) m -> (forall st, I st -> Qx st) ->
  hoare I m (fun _ => I) Qx.
Proof.
  intros Hm Hx. apply (hoare_weaken I I (fun _ => I) (fun _ => I) I Qx);
    auto using hoare_keeps.
Qed.

End Hoare.

Section Accounting.
Context {W : Type} (os : World W) (penv : Config.ProcessEnv).

Lemma attempted_bounded n j st :
  j <= n -> attempted n j st -> counters_bounded st.
Proof. unfold attempted, counters_bounded. intros Hj (-> & Hs & Hf). lia. Qed.

Lemma attempted_more n j j' st :
  j <= j' -> attempted n j st -> attempted n j' st.
Proof. unfold attempted. intros Hj (Ht & Hs & Hf). repeat split; lia. Qed.

Lemma hoare_backupCollection fuel cl fm env info n j :
  hoare (attempted n j)
    (BackupService.backupCollection os penv fuel cl fm env info)
    (fun _ => attempted n (j + 1)) (attempted n (j + 1)).
Proof.
  intros s Hs.
  destruct (BackupService.backupCollection os penv fuel cl fm env info s)
    as [r s'] eqn:E.
  apply backupCollection_effect in E.
  destruct E as (Hsucc & Htot & Hfail).
  assert (H : attempted n (j + 1) (stats s')).
  { unfold attempted in *. unfold at_most_one_success in Hsucc.
    unfold no_failure_recorded, failure_recorded in Hfail.
    destruct Hs as (Ht & Hs1 & Hs2). rewrite Htot.
    split; [exact Ht |].
    destruct Hsucc as [[Hsucc _] | [Hsucc _]];
      destruct Hfail as [[_ [Hfail _]] | [[_ [Hfail _]] | [_ Hfail]]];
      try rewrite Hfail in *; lia. }
  destruct r; exact H.
Qed.

Lemma hoare_backupCollections fuel cl fm env colls :
  forall n j,
    hoare (attempted n j)
      (BackupService.backupCollections os penv fuel cl fm env colls)
      (fun _ => attempted n (j + Z.of_nat (length colls)))
      (attempted n (j + Z.of_nat (length colls))).
Proof.
  induction colls as [|col rest IH]; intros n j.
  - intros s Hs. simpl. eapply attempted_more; [| exact Hs]. lia.
  - cbn [BackupService.backupCollections].
    apply hoare_bind with (Q1 := fun _ => attempted n (j + 1)).
    + eapply hoare_weaken;
        [apply (hoare_backupCollection fuel cl fm env col n j) | | |];
        cbv beta; try (intros; assumption).
      intros st. apply attempted_more. cbn [length]. lia.
    + intros _. eapply hoare_weaken; [apply (IH n (j + 1)) | | |];
        cbv beta; try (intros; assumption);
        intros; (eapply attempted_more; [| eassumption]); cbn [length]; lia.
Qed.

Lemma hoare_getBackupResult (P Qx : BackupStats -> Prop) env ofm colls :
  hoare P (@BackupService.getBackupResult W env ofm colls)
    (fun r st =>
       P st /\ statistics r = st
       /\ length (collections r) = length colls
       /\ (ofm = None -> backupPath r = None))
    Qx.
Proof.
  intros s HP. unfold BackupService.getBackupResult, bind, get_stats, ret.
  cbn [statistics collections backupPath]. rewrite length_map.
  repeat split; auto. intros ->. reflexivity.
Qed.

Lemma nothing_backed_up_bounded st : nothing_backed_up st -> counters_bounded st.
Proof. unfold nothing_backed_up, counters_bounded. lia. Qed.

Ltac kept :=
  apply hoare_kept;
  [ first [ apply steps_now | apply steps_lift | apply steps_get_stats
          | apply steps_fm_constructor | apply walk_validateConnection
          | apply steps_createBackupStructure | apply steps_saveMetadata
          | apply steps_generateSummary ];
    apply keeps_order
  | try exact nothing_backed_up_bounded ].

Lemma hoare_generateFinalReport env fm colls n :
  n = Z.of_nat (length colls) ->
  hoare (attempted n n)
    (BackupService.generateFinalReport os env fm colls)
    consistent_result counters_bounded.
Proof.
  intros Hn.
  assert (Hb : forall st, attempted n n st -> counters_bounded st)
    by (intro; apply attempted_bounded; lia).
  unfold BackupService.generateFinalReport.
  apply hoare_bind with (Q1 := fun _ => attempted n n); [kept; exact Hb |].
  intros d.
  apply hoare_bind with (Q1 := fun _ => attempted n n).
  { apply hoare_modify. unfold attempted. simpl. auto. }
  intros _.
  apply hoare_bind with (Q1 := fun _ => attempted n n); [kept; exact Hb |].
  intros st.
  apply hoare_bind with (Q1 := fun _ => attempted n n); [kept; exact Hb |].
  intros _.
  apply hoare_bind with (Q1 := fun _ => attempted n n); [kept; exact Hb |].
  intros _.
  eapply hoare_weaken;
    [apply (hoare_getBackupResult (attempted n n) counters_bounded) | | |];
    cbv beta; try (intros; assumption).
  intros r st' (Hat & Hst & Hlen & _).
  split; [exact Hst |]. split; [now apply Hb |].
  intros _. rewrite Hlen. unfold attempted in Hat. lia.
Qed.

(** From an instance that has backed up nothing yet, however the run ends
    the counters are bounded, and a result is consistent. *)
Lemma hoare_performBackup fuel env :
  hoare nothing_backed_up (BackupService.performBackup os penv fuel env)
    consistent_result counters_bounded.
Proof.
  unfold BackupService.performBackup.
  apply hoare_bind with (Q1 := fun _ => nothing_backed_up); [kept |].
  intros d.
  apply hoare_bind with (Q1 := fun _ => nothing_backed_up).
  { apply hoare_modify. unfold nothing_backed_up. simpl. auto. }
  intros _.
  apply hoare_try_catch with (Q1x := counters_bounded); [| | auto].
  - apply hoare_bind with (Q1 := fun _ => nothing_backed_up); [kept |].
    intros cfg.
    apply hoare_bind with (Q1 := fun _ => nothing_backed_up); [kept |].
    intros client.
    apply hoare_bind with (Q1 := fun _ => nothing_backed_up); [kept |].
    intros fm.
    apply hoare_bind with (Q1 := fun _ => nothing_backed_up); [kept |].
    intros isConnected.
    destruct (negb isConnected).
    { intros s Hs. simpl. now apply nothing_backed_up_bounded. }
    apply hoare_bind with (Q1 := fun _ => nothing_backed_up); [kept |].
    intros _.
    apply hoare_bind with (Q1 := fun _ => nothing_backed_up).
    { apply hoare_kept; [| exact nothing_backed_up_bounded].
      apply walk_discoverCollections; [apply keeps_order |].
      intros coll msg s. unfold keeps, nothing_backed_up. simpl. auto. }
    intros colls.
    set (n := Z.of_nat (length colls)).
    apply hoare_bind with (Q1 := fun _ => attempted n 0).
    { apply hoare_modify. unfold nothing_backed_up, attempted. simpl.
      intros st (Hs & Hf & _). lia. }
    intros _.
    destruct (length colls =? 0)%nat.
    + eapply hoare_weaken;
        [apply (hoare_getBackupResult (attempted n 0) counters_bounded) | | |];
        cbv beta; try (intros; assumption).
      intros r st (Hat & Hst & Hlen & _).
      split; [exact Hst |].
      split; [apply (attempted_bounded n 0); [lia | exact Hat] |].
      intros _. rewrite Hlen. unfold attempted in Hat. lia.
    + apply hoare_bind with (Q1 := fun _ => attempted n n).
      * eapply hoare_weaken;
          [apply (hoare_backupCollections fuel client fm env colls n 0) | | |];
          cbv beta; try (intros; assumption).
        intros st. apply attempted_bounded. lia.
      * intros _. now apply hoare_generateFinalReport.
  - intros e.
    apply hoare_bind with (Q1 := fun _ => counters_bounded).
    { apply hoare_modify. unfold counters_bounded. simpl. auto. }
    intros _.
    eapply hoare_weaken;
      [apply (hoare_getBackupResult counters_bounded counters_bounded) | | |];
      cbv beta; try (intros; assumption).
    intros r st (Hb & Hst & _ & Hnone).
    split; [exact Hst |]. split; [exact Hb |].
    intros Hpath. now elim Hpath; apply Hnone.
Qed.

End Accounting.

(** On an instance that has not backed up anything yet, the result of
    [performBackup] never counts more successful or more failed collections
    than [totalCollections], and when it has a backup path it lists exactly
    [totalCollections] collections. *)
Theorem counters_bounded_by_collections {W : Type} (os : World W)
  (penv : Config.ProcessEnv) (fuel : nat) (env : string)
  (s s' : State W) (r : BackupResult) :
  nothing_backed_up (stats s) ->
  BackupService.performBackup os penv fuel env s = (Ret r, s') ->
  0 <= successfulCollections (statistics r) <= totalCollections (statistics r)
  /\ 0 <= failedCollections (statistics r) <= totalCollections (statistics r)
  /\ (backupPath r <> None ->
      totalCollections (statistics r) = Z.of_nat (length (collections r))).
Proof.
  intros Hs Hrun.
  pose proof (hoare_performBackup os penv fuel env s Hs) as H.
  rewrite Hrun in H. destruct H as (Hst & [Hsucc Hfail] & Hlen).
  rewrite Hst. auto.
Qed.

Lemma counters_bounded_by_collections_witness :
  exists r s',
    BackupService.performBackup (Example.online ["users"; "posts"; "secret"])
      Example.penv 10 "test" Example.fresh = (Ret r, s')
    /\ totalCollections (statistics r) = 2
    /\ 0 <= successfulCollections (statistics r)
         <= totalCollections (statistics r)
    /\ 0 <= failedCollections (statistics r)
         <= totalCollections (statistics r)
    /\ (backupPath r <> None ->
        totalCollections (statistics r) = Z.of_nat (length (collections r))).
Proof.
  eexists. eexists. split; [vm_compute; reflexivity |].
  split; [reflexivity |].
  eapply (counters_bounded_by_collections
            (Example.online ["users"; "posts"; "secret"]) Example.penv 10
            "test" Example.fresh).
  - unfold nothing_backed_up. simpl. lia.
  - vm_compute. reflexivity.
Defined.

(* ================================================================== *)
(** * The shape of the result *)

Section Shape.
Context {W : Type} (os : World W) (penv : Config.ProcessEnv).

Lemma getBackupResult_with_path env fm colls :
  returns (fun r (_ : State W) => result_shape env r)
    (@BackupService.getBackupResult W env (Some fm) colls).
Proof.
  intros s r s' H. unfold BackupService.getBackupResult in H.
  cbv [bind get_stats ret] in H. injection H as <- <-.
  split; [reflexivity |]. cbn [backupPath]. discriminate.
Qed.

Lemma general_catch_shape env (e : Exn) :
  returns (fun r (_ : State W) => result_shape env r)
    (modify_stats (BackupService.push_errors
                     (mkEntry None "general" (message e))) ;;;
     BackupService.getBackupResult env None []).
Proof.
  intros s r s' H. unfold BackupService.getBackupResult in H.
  cbv [bind get_stats ret modify_stats] in H. injection H as <- <-.
  split; [reflexivity |]. intros _. unfold aborted_result.
  cbn [success collections statistics stats errors BackupService.push_errors
       map].
  split; [| split; [reflexivity | eauto]].
  rewrite length_app. cbn [length].
  replace (length (errors (stats s)) + 1 =? 0)%nat with false.
  - apply andb_false_r.
  - symmetry. apply Nat.eqb_neq. lia.
Qed.

Lemma performBackup_shape fuel env :
  returns (fun r (_ : State W) => result_shape env r)
    (BackupService.performBackup os penv fuel env).
Proof.
  unfold BackupService.performBackup.
  do 2 (apply returns_bind; intro).
  apply returns_try_catch.
  - do 4 (apply returns_bind; intro).
    destruct (negb _); [apply returns_throw |].
    do 3 (apply returns_bind; intro).
    destruct (_ =? _)%nat; [apply getBackupResult_with_path |].
    apply returns_bind; intro.
    unfold BackupService.generateFinalReport.
    do 5 (apply returns_bind; intro).
    apply getBackupResult_with_path.
  - intro. apply general_catch_shape.
Qed.

End Shape.

(** The result of [performBackup] names the environment that was asked for.
    A result without backup path is the result of an aborted run: it is a
    failure, lists no collection, and the last entry of its errors is the
    general error that ended the run. So a successful result always has a
    backup path. *)
Theorem result_without_path_is_aborted {W : Type} (os : World W)
  (penv : Config.ProcessEnv) (fuel : nat) (env : string)
  (s s' : State W) (r : BackupResult) :
  BackupService.performBackup os penv fuel env s = (Ret r, s') ->
  environment r = env
  /\ (backupPath r = None -> aborted_result r)
  /\ (success r = true -> backupPath r <> None).
Proof.
  intros Hrun.
  pose proof (performBackup_shape os penv fuel env s r s' Hrun) as H.
  cbv beta in H.
  destruct H as [Henv Hnone].
  split; [exact Henv |]. split; [exact Hnone |].
  intros Hsucc Hpath. destruct (Hnone Hpath) as [Hfalse _]. congruence.
Qed.

Lemma result_without_path_is_aborted_witness :
  exists r s',
    BackupService.performBackup Example.offline Example.penv 10 "test"
      Example.fresh = (Ret r, s')
    /\ backupPath r = None
    /\ environment r = "test"
    /\ (backupPath r = None -> aborted_result r)
    /\ (success r = true -> backupPath r <> None).
Proof.
  eexists. eexists. split; [vm_compute; reflexivity |].
  split; [reflexivity |].
  eapply (result_without_path_is_aborted Example.offline Example.penv 10
            "test" Example.fresh).
  vm_compute. reflexivity.
Defined.

(* ================================================================== *)
(** * The discovery, whatever the log does *)

Section DiscoveryAccount.
Context {W : Type} (os : World W) (penv : Config.ProcessEnv).
Variables (client : FetchPayloadClient.t) (fileManager : FileManager.t)
  (env : string).

(** The [catch] block of the loop, when it returns. *)
Lemma discovery_catch_returns coll lmsg ex (e : Exn)
  (infos infos' : list CollectionInfo) s s' :
  (FileManager.addLog os penv fileManager env "WARN" lmsg ex ;;;
   modify_stats (BackupService.push_errors
                   (mkEntry (Some coll) "discovery" (message e))) ;;;
   ret infos) s = (Ret infos', s') ->
  infos' = infos
  /\ stats s'
     = BackupService.push_errors (mkEntry (Some coll) "discovery" (message e))
         (stats s).
Proof.
  intros H. bind_case H; try discriminate.
  pose proof (unchanged _ s
                (steps_addLog os penv _ same_stats_order fileManager env
                   "WARN" lmsg ex)) as F.
  rewrite E in F. cbn [snd] in F.
  cbv [bind modify_stats ret] in H. injection H as <- <-.
  cbn [stats]. now rewrite F.
Qed.

Lemma analyzeCollection_account infos coll s infos' s' :
  BackupService.analyzeCollection os penv client fileManager env infos coll s
  = (Ret infos', s') ->
  exists new es,
    infos' = (infos ++ new)%list
    /\ stats s' = record_all es (stats s)
    /\ analysed [coll] new es.
Proof.
  unfold BackupService.analyzeCollection. intros H.
  bind_case H; try discriminate.
  match type of E with ?m s = _ =>
    assert (F : stats s0 = stats s)
      by (pose proof (unchanged m s) as F; rewrite E in F; apply F;
          apply steps_attempt; apply (steps_bind _ same_stats_order);
          [frame_lemma | intro];
          apply (steps_bind _ same_stats_order); [frame_lemma | intro];
          apply (steps_ret _ same_stats_order))
  end.
  clear E. destruct a as [error | [cnt sch]].
  - apply discovery_catch_returns in H. destruct H as [-> Hst].
    exists [], [mkEntry (Some coll) "discovery" (message error)].
    split; [now rewrite app_nil_r |].
    split; [cbn; now rewrite Hst, F | apply analysed_failed; constructor].
  - bind_case H; try discriminate.
    match type of E with ?m s0 = _ =>
      assert (F1 : stats s1 = stats s0)
        by (pose proof (unchanged m s0) as F1; rewrite E in F1; apply F1;
            apply steps_attempt; frame_lemma)
    end.
    clear E. destruct a as [error | u].
    + apply discovery_catch_returns in H. destruct H as [-> Hst].
      exists [mkInfo coll cnt sch (BackupService.positive cnt)],
        [mkEntry (Some coll) "discovery" (message error)].
      split; [reflexivity |].
      split; [cbn; now rewrite Hst, F1, F | apply analysed_both; constructor].
    + injection H as <- <-.
      exists [mkInfo coll cnt sch (BackupService.positive cnt)], [].
      split; [reflexivity |].
      split; [cbn; now rewrite F1, F | apply analysed_kept; constructor].
Qed.

Lemma analysed_cons coll new es colls new' es' :
  analysed [coll] new es ->
  analysed colls new' es' ->
  analysed (coll :: colls) (new ++ new') (es ++ es').
Proof.
  intros H H'. inversion H as [| ? ? ? ? ? ? Hn | ? ? ? ? ? Hn | ? ? ? ? ? ? ? Hn];
    subst; inversion Hn; subst; cbn; now constructor.
Qed.

Lemma analyzeCollections_account colls :
  forall infos s infos' s',
    BackupService.analyzeCollections os penv client fileManager env colls infos s
    = (Ret infos', s') ->
    exists new es,
      infos' = (infos ++ new)%list
      /\ stats s' = record_all es (stats s)
      /\ analysed colls new es.
Proof.
  induction colls as [|coll rest IH]; intros infos s infos' s' H.
  - injection H as <- <-. exists [], [].
    split; [now rewrite app_nil_r |]. split; [reflexivity | constructor].
  - cbn [BackupService.analyzeCollections] in H.
    bind_case H; try discriminate.
    apply analyzeCollection_account in E.
    destruct E as (new1 & es1 & -> & Hst1 & Han1).
    apply IH in H. destruct H as (new2 & es2 & -> & Hst2 & Han2).
    exists (new1 ++ new2)%list, (es1 ++ es2)%list.
    split; [now rewrite app_assoc |].
    split; [| now apply analysed_cons].
    unfold record_all in *. now rewrite fold_left_app, <- Hst1.
Qed.

End DiscoveryAccount.

(** When [discoverCollections] returns, the API has listed names, and each
    of them, in order, has been kept in the returned sequence (with
    [hasData] telling whether its count is positive), or recorded as an
    error of phase [discovery], or both; nothing else has been returned and
    nothing else has been done to the statistics. *)
Theorem discovery_accounts_for_every_name {W : Type} (os : World W)
  (penv : Config.ProcessEnv) (client : FetchPayloadClient.t)
  (fileManager : FileManager.t) (env : string)
  (s s' : State W) (infos : list CollectionInfo) :
  BackupService.discoverCollections os penv client fileManager env s
  = (Ret infos, s') ->
  exists names s1 es,
    FetchPayloadClient.discoverCollections os client s = (Ret names, s1)
    /\ analysed names infos es
    /\ stats s' = record_all es (stats s).
Proof.
  unfold BackupService.discoverCollections, try_catch. intros H.
  match type of H with context [match ?m s with _ => _ end] =>
    destruct (m s) as [[a|e|] s2] eqn:Hbody
  end; try discriminate.
  injection H as -> ->.
  bind_case Hbody; try discriminate.
  pose proof (unchanged _ s
                (steps_client_discoverCollections os _ same_stats_order client))
    as F.
  rewrite E in F. cbn [snd] in F.
  bind_case Hbody; try discriminate.
  match type of E0 with ?m s0 = _ =>
    assert (F1 : stats s1 = stats s0)
      by (pose proof (unchanged m s0) as F1; rewrite E0 in F1; apply F1;
          frame_lemma)
  end.
  apply analyzeCollections_account in Hbody.
  destruct Hbody as (new & es & -> & Hst & Han).
  exists a, s0, es. split; [reflexivity |]. split; [exact Han |].
  now rewrite Hst, F1, F.
Qed.

Lemma discovery_accounts_for_every_name_witness :
  exists infos s' names s1 es,
    BackupService.discoverCollections
      (Example.online ["users"; "secret"; "posts"]) Example.penv
      Example.client Example.fileManager "test" Example.fresh = (Ret infos, s')
    /\ FetchPayloadClient.discoverCollections
         (Example.online ["users"; "secret"; "posts"]) Example.client
         Example.fresh = (Ret names, s1)
    /\ names = ["users"; "secret"; "posts"]
    /\ analysed names infos es
    /\ stats s' = record_all es (stats Example.fresh).
Proof.
  destruct (BackupService.discoverCollections
              (Example.online ["users"; "secret"; "posts"]) Example.penv
              Example.client Example.fileManager "test" Example.fresh)
    as [[infos | e |] s'] eqn:Hrun; try (vm_compute in Hrun; discriminate).
  destruct (discovery_accounts_for_every_name _ _ _ _ _ _ _ _ Hrun)
    as (names & s1 & es & Hnames & Han & Hst).
  exists infos, s', names, s1, es.
  split; [reflexivity |]. split; [exact Hnames |].
  split; [| split; [exact Han | exact Hst]].
  vm_compute in Hnames. now injection Hnames as <- _.
Defined.

(* ================================================================== *)
(** * The connection test *)

Section ConnectionTest.
Context {W : Type} (os : World W) (penv : Config.ProcessEnv).

Lemma request_outcome client path s :
  exists r,
    FetchPayloadClient.request os client path s
    = (r, fetched os (FetchPayloadClient.baseURL client ++ path) s)
    /\ r <> Diverge.
Proof.
  rewrite request_cases. cbv zeta. unfold fetched.
  repeat match goal with
         | |- context [match ?x with _ => _ end] => destruct x
         | |- context [if ?x then _ else _] => destruct x
         end; eexists; (split; [reflexivity | discriminate]).
Qed.

Lemma getAccess_outcome client s :
  exists r,
    FetchPayloadClient.getAccess os client s
    = (r, fetched os (access_url client) s)
    /\ r <> Diverge.
Proof.
  unfold FetchPayloadClient.getAccess, FetchPayloadClient.limitedRequest,
    FetchPayloadClient.delay.
  apply (request_outcome client "/access" s).
Qed.

Lemma getCollectionCount_outcome client coll s :
  exists r,
    FetchPayloadClient.getCollectionCount os client coll s
    = (r, fetched os (count_url client coll) s)
    /\ r <> Diverge.
Proof.
  unfold FetchPayloadClient.getCollectionCount,
    FetchPayloadClient.limitedRequest, FetchPayloadClient.delay.
  destruct (request_outcome client ("/" ++ coll ++ "/count") s)
    as (r & Hr & Hnd).
  unfold bind at 1. unfold ret at 1. unfold bind. rewrite Hr.
  unfold count_url.
  destruct r as [p | e |]; [| eexists; split; [reflexivity | discriminate]
                            | now elim Hnd].
  destruct (FetchPayloadClient.member p "totalDocs" totalDocs None);
    eexists; (split; [reflexivity | discriminate]).
Qed.

Lemma probeCounts_returns client colls :
  forall s,
    TestConnection.probeCounts os client colls s
    = (Ret tt, probed os client colls s).
Proof.
  induction colls as [|coll rest IH]; intros s; [reflexivity |].
  cbn [TestConnection.probeCounts probed].
  destruct (getCollectionCount_outcome client coll s) as (r & Hr & Hnd).
  unfold bind at 1. unfold try_catch. unfold bind at 1. rewrite Hr.
  destruct r as [n | e |]; [| | now elim Hnd]; unfold ret at 1; apply IH.
Qed.

Lemma probed_trace client colls :
  forall s,
    trace (probed os client colls s)
    = (trace s ++ map (fun c => EvFetch (count_url client c)) colls)%list
    /\ stats (probed os client colls s) = stats s.
Proof.
  induction colls as [|coll rest IH]; intros s; cbn [probed map].
  - now rewrite app_nil_r.
  - destruct (IH (fetched os (count_url client coll) s)) as [-> ->].
    unfold fetched; cbn [trace stats]. now rewrite <- app_assoc.
Qed.

Lemma testConnection_cases env s :
  TestConnection.testConnection os penv env s
  = match Config.getEnvConfig penv env with
    | inl _ => (Ret false, s)
    | inr cfg =>
        match FetchPayloadClient.constructor penv cfg with
        | inl _ => (Ret false, s)
        | inr client =>
            match FetchPayloadClient.getAccess os client s with
            | (Ret PNull, s1) => (Ret false, s1)
            | (Ret access, s1) =>
                (Ret true, probed os client (firstn 5 (listed access)) s1)
            | (Throw _, s1) => (Ret false, s1)
            | (Diverge, s1) => (Diverge, s1)
            end
        end
    end.
Proof.
  unfold TestConnection.testConnection, try_catch.
  unfold bind at 1. destruct (Config.getEnvConfig penv env) as [e | cfg];
    [reflexivity |].
  cbn [lift]. unfold ret at 1.
  unfold bind at 1.
  destruct (FetchPayloadClient.constructor penv cfg) as [e | client];
    [reflexivity |].
  cbn [lift]. unfold ret at 1.
  unfold bind at 1.
  destruct (FetchPayloadClient.getAccess os client s) as [[access | e |] s1];
    [| reflexivity | reflexivity].
  destruct access as [| body | o]; cbn [FetchPayloadClient.member lift listed].
  - reflexivity.
  - unfold bind, ret. cbn [default length firstn]. reflexivity.
  - unfold bind at 1 2. unfold ret at 1 2.
    destruct (0 <? length (default (access_collections o) []))%nat eqn:Hlen.
    + unfold bind. rewrite probeCounts_returns. reflexivity.
    + apply Nat.ltb_ge in Hlen.
      destruct (default (access_collections o) []); [reflexivity |].
      cbn [length] in Hlen. lia.
Qed.

End ConnectionTest.

(** [testConnection] always answers with a boolean: it never throws and
    always comes to an end. It makes at most six requests (the access
    document, then the counts of at most five collections), and nothing
    else: the statistics and the file system are not touched. *)
Theorem testConnection_always_answers {W : Type} (os : World W)
  (penv : Config.ProcessEnv) (env : string) (s : State W) :
  exists b s' urls,
    TestConnection.testConnection os penv env s = (Ret b, s')
    /\ trace s' = (trace s ++ map EvFetch urls)%list
    /\ (length urls <= 6)%nat
    /\ stats s' = stats s.
Proof.
  rewrite testConnection_cases.
  destruct (Config.getEnvConfig penv env) as [e | cfg].
  { exists false, s, []. cbn [map length]. rewrite app_nil_r.
    repeat split; lia. }
  destruct (FetchPayloadClient.constructor penv cfg) as [e | client].
  { exists false, s, []. cbn [map length]. rewrite app_nil_r.
    repeat split; lia. }
  destruct (getAccess_outcome os client s) as (r & -> & Hnd).
  assert (Hone : exists urls,
             trace (fetched os (access_url client) s)
             = (trace s ++ map EvFetch urls)%list
             /\ (length urls <= 6)%nat
             /\ stats (fetched os (access_url client) s) = stats s).
  { exists [access_url client]. cbn. split; [reflexivity |]. split; [lia | reflexivity]. }
  destruct r as [access | e |]; [| | now elim Hnd].
  2: { destruct Hone as (urls & H). eexists false, _, urls. split; [reflexivity | exact H]. }
  assert (Hall :
    exists urls,
      trace (probed os client (firstn 5 (listed access))
               (fetched os (access_url client) s))
      = (trace s ++ map EvFetch urls)%list
      /\ (length urls <= 6)%nat
      /\ stats (probed os client (firstn 5 (listed access))
                  (fetched os (access_url client) s)) = stats s).
  { exists (access_url client
            :: map (count_url client) (firstn 5 (listed access))).
    destruct (probed_trace os client (firstn 5 (listed access))
                (fetched os (access_url client) s)) as [-> ->].
    unfold fetched; cbn [trace stats map length].
    rewrite <- app_assoc, map_map. split; [reflexivity |].
    split; [| reflexivity].
    rewrite length_map.
    pose proof (firstn_le_length 5 (listed access)). lia. }
  destruct access as [| body | o].
  - destruct Hone as (urls & H). eexists false, _, urls. split; [reflexivity | exact H].
  - destruct Hall as (urls & H). eexists true, _, urls. split; [reflexivity | exact H].
  - destruct Hall as (urls & H). eexists true, _, urls. split; [reflexivity | exact H].
Qed.

(** [testConnection] answers [true] exactly when the configuration of the
    environment is complete, the client can be built and the access
    document is obtained and is not null. The counts are then asked for,
    of the first five collections it lists and in their order, and whether
    they fail makes no difference to the answer. *)
Theorem testConnection_true_iff {W : Type} (os : World W)
  (penv : Config.ProcessEnv) (env : string) (s s' : State W) :
  TestConnection.testConnection os penv env s = (Ret true, s')
  <-> exists cfg client access,
        Config.getEnvConfig penv env = inr cfg
        /\ FetchPayloadClient.constructor penv cfg = inr client
        /\ FetchPayloadClient.getAccess os client s
           = (Ret access, fetched os (access_url client) s)
        /\ access <> PNull
        /\ s' = probed os client (firstn 5 (listed access))
                  (fetched os (access_url client) s).
Proof.
  rewrite testConnection_cases. split.
  - destruct (Config.getEnvConfig penv env) as [e | cfg]; [discriminate |].
    destruct (FetchPayloadClient.constructor penv cfg) as [e | client] eqn:Hcl;
      [discriminate |].
    destruct (getAccess_outcome os client s) as (r & Hr & Hnd).
    rewrite Hr.
    destruct r as [access | e |]; [| discriminate | discriminate].
    intros H. exists cfg, client, access.
    split; [reflexivity |]. split; [exact Hcl |]. split; [exact Hr |].
    destruct access as [| body | o]; [discriminate | |];
      (split; [discriminate | congruence]).
  - intros (cfg & client & access & -> & -> & -> & Hnn & ->).
    destruct access; [now elim Hnn | reflexivity | reflexivity].
Qed.


(* ================================================================== *)
(** * The command line *)

Section Main.
Context {W : Type} (os : World W) (penv : Config.ProcessEnv).

Lemma parseArguments_cases args :
  Index.parseArguments penv args
  = if wants_help args then Index.ShowHelp
    else if Index.config_entry penv (requested_env args)
         then Index.Environment (requested_env args)
         else Index.Exited 1.
Proof.
  unfold Index.parseArguments, wants_help, requested_env.
  destruct (_ || _); [reflexivity |].
  now destruct (Index.config_entry penv _).
Qed.

(** Without a complete configuration, [performBackup] reads the clock,
    records the general error and returns. *)
Lemma performBackup_without_configuration fuel env e s :
  Config.getEnvConfig penv env = inl e ->
  exists r s',
    BackupService.performBackup os penv fuel env s = (Ret r, s')
    /\ success r = false
    /\ backupPath r = None
    /\ trace s' = (trace s ++ [EvNow])%list.
Proof.
  intros Hcfg. unfold BackupService.performBackup.
  unfold bind at 1. unfold now.
  destruct (clock os (world s)) as [d w].
  unfold bind at 1. unfold modify_stats at 1. cbn [stats trace world].
  unfold try_catch. unfold bind at 1. rewrite Hcfg. cbn [lift]. unfold throw.
  unfold bind, modify_stats, BackupService.getBackupResult, get_stats, ret.
  cbn [stats trace world errors BackupService.push_errors].
  eexists. eexists. split; [reflexivity |]. cbn [success backupPath].
  split; [| split; reflexivity].
  cbn [stats errors BackupService.push_errors BackupService.set_startTime].
  rewrite length_app. cbn [length].
  replace (length (errors (stats s)) + 1 =? 0)%nat
    with false; [apply andb_false_r |].
  symmetry. apply Nat.eqb_neq. lia.
Qed.

End Main.

(** The process ends with status 0 in two cases only. Either help was asked
    for: then [main] returns and nothing has been done. Or no help was
    asked for and the backup is clean: the configuration of the requested
    environment is complete, [performBackup] has returned a result for it
    that has a backup path, no failed collection and no error, and
    [process.exit(0)] is called. *)
Theorem status_zero_means_help_or_clean_backup {W : Type} (os : World W)
  (penv : Config.ProcessEnv) (fuel : nat) (args : list string)
  (s s' : State W) (ending : Index.Ending) :
  Index.main os penv fuel args s = (Ret ending, s') ->
  Index.exit_status ending = 0 ->
  (wants_help args = true /\ ending = Index.Returned /\ s' = s)
  \/ (wants_help args = false /\ ending = Index.Exit 0
      /\ exists cfg r,
           Config.getEnvConfig penv (requested_env args) = inr cfg
           /\ BackupService.performBackup os penv fuel (requested_env args) s
              = (Ret r, s')
           /\ success r = true
           /\ failedCollections (statistics r) = 0
           /\ errors (statistics r) = []
           /\ backupPath r <> None).
Proof.
  unfold Index.main, try_catch. rewrite parseArguments_cases.
  destruct (wants_help args).
  { unfold ret. intros H _. injection H as <- <-. left. now repeat split. }
  destruct (Index.config_entry penv (requested_env args)).
  2: { unfold ret. intros H Hz. injection H as <- <-. discriminate Hz. }
  unfold bind.
  destruct (BackupService.performBackup os penv fuel (requested_env args) s)
    as [[r | e |] s1] eqn:Hrun.
  2: { unfold ret. intros H Hz. injection H as <- <-. discriminate Hz. }
  2: { discriminate. }
  destruct (success r) eqn:Hsucc.
  2: { unfold ret. intros H Hz. injection H as <- <-. discriminate Hz. }
  unfold ret. intros H _. injection H as <- <-.
  right. split; [reflexivity |]. split; [reflexivity |].
  destruct (performBackup_reflects os penv fuel _ s r s1 Hrun) as [Hs _].
  destruct (performBackup_shape os penv fuel _ s r s1 Hrun) as [_ Hnone].
  apply Hs in Hsucc. destruct Hsucc as [Hfailed Herrors].
  apply length_zero_iff_nil in Herrors.
  assert (Hpath : backupPath r <> None).
  { intros Hp. destruct (Hnone Hp) as [Hfalse _].
    assert (success r = true) by (apply Hs; rewrite Herrors; now split).
    congruence. }
  destruct (Config.getEnvConfig penv (requested_env args)) as [e | cfg] eqn:Hcfg.
  - destruct (performBackup_without_configuration os penv fuel _ e s Hcfg)
      as (r' & s2 & Hrun' & _ & Hp & _).
    rewrite Hrun in Hrun'. injection Hrun' as <- <-. contradiction.
  - exists cfg, r. split; [reflexivity |]. split; [reflexivity |].
    split; [apply Hs; split; [exact Hfailed | now rewrite Herrors] |].
    split; [exact Hfailed |].
    split; [exact Herrors | exact Hpath].
Qed.

(** With [--help] after an environment name, the process ends with status 0
    and nothing has been done; with [test] alone and an API that lists
    [users] and [posts], [process.exit(0)] follows a backup without error. *)
Lemma status_zero_means_help_or_clean_backup_witness :
  (Index.main (Example.online ["users"; "posts"]) Example.penv 10
     ["prod"; "--help"] Example.fresh = (Ret Index.Returned, Example.fresh)
   /\ wants_help ["prod"; "--help"] = true)
  /\ exists s' cfg r,
       Index.main (Example.online ["users"; "posts"]) Example.penv 10 ["test"]
         Example.fresh = (Ret (Index.Exit 0), s')
       /\ Config.getEnvConfig Example.penv "test" = inr cfg
       /\ BackupService.performBackup (Example.online ["users"; "posts"])
            Example.penv 10 "test" Example.fresh = (Ret r, s')
       /\ errors (statistics r) = []
       /\ backupPath r <> None.
Proof.
  split.
  - destruct (status_zero_means_help_or_clean_backup
                (Example.online ["users"; "posts"]) Example.penv 10
                ["prod"; "--help"] Example.fresh Example.fresh Index.Returned)
      as [(Hhelp & _ & _) | (Hhelp & _)].
    + reflexivity.
    + reflexivity.
    + split; [reflexivity | exact Hhelp].
    + discriminate Hhelp.
  - destruct (Index.main (Example.online ["users"; "posts"]) Example.penv 10
                ["test"] Example.fresh) as [[[[| | ] | ] | e |] s'] eqn:Hrun;
      try (vm_compute in Hrun; discriminate).
    destruct (status_zero_means_help_or_clean_backup _ _ _ _ _ _ _ Hrun)
      as [(Hhelp & _) | (_ & _ & cfg & r & Hcfg & Hperf & _ & _ & Herr & Hpath)].
    + reflexivity.
    + discriminate Hhelp.
    + exists s', cfg, r. split; [reflexivity |].
      split; [exact Hcfg |]. split; [exact Hperf |].
      split; [exact Herr | exact Hpath].
Defined.

(** Unless help is asked for, when the configuration of the requested
    environment is not complete (unknown environment, missing URL or key)
    [main] exits with code 1 and has made no request and no call on the
    file system. *)
Theorem incomplete_configuration_touches_nothing {W : Type} (os : World W)
  (penv : Config.ProcessEnv) (fuel : nat) (args : list string) (e : Exn)
  (s : State W) :
  wants_help args = false ->
  Config.getEnvConfig penv (requested_env args) = inl e ->
  exists s',
    Index.main os penv fuel args s = (Ret (Index.Exit 1), s')
    /\ nothing_touched s s'.
Proof.
  intros Hhelp Hcfg. unfold Index.main, try_catch.
  rewrite parseArguments_cases, Hhelp.
  destruct (Index.config_entry penv (requested_env args)).
  - destruct (performBackup_without_configuration os penv fuel _ e s Hcfg)
      as (r & s' & Hrun & Hfalse & _ & Htrace).
    unfold bind. rewrite Hrun, Hfalse.
    exists s'. split; [reflexivity | now right].
  - exists s. split; [reflexivity | now left].
Qed.

Lemma incomplete_configuration_touches_nothing_witness :
  exists s',
    Index.main (Example.online ["users"]) Example.penv 10 ["staging"]
      Example.fresh = (Ret (Index.Exit 1), s')
    /\ nothing_touched Example.fresh s'.
Proof.
  apply (incomplete_configuration_touches_nothing
           (Example.online ["users"]) Example.penv 10 ["staging"]
           (Error "Unknown environment: staging. Available: test, prod")).
  - reflexivity.
  - vm_compute. reflexivity.
Defined.

(* ================================================================== *)
(** * The client's discovery and its basic test; the backup timestamp *)

(** [discoverCollections] of the client makes the one request for the
    access document. It returns the names the document lists (none when it
    has no [collections] member), and every failure, a null document
    included, is thrown again as an error whose message starts with
    [Failed to discover collections: ]. *)
Theorem client_discovery_lists_access {W : Type} (os : World W)
  (client : FetchPayloadClient.t) (s : State W) :
  exists r,
    FetchPayloadClient.discoverCollections os client s
    = (r, fetched os (access_url client) s)
    /\ match r with
       | Ret names =>
           exists access,
             FetchPayloadClient.getAccess os client s
             = (Ret access, fetched os (access_url client) s)
             /\ access <> PNull /\ names = listed access
       | Throw e =>
           exists cause,
             e = Error ("Failed to discover collections: " ++ cause)
       | Diverge => False
       end.
Proof.
  unfold FetchPayloadClient.discoverCollections, try_catch.
  destruct (getAccess_outcome os client s) as (r & Hr & Hnd).
  unfold bind at 1. rewrite Hr.
  destruct r as [access | e |]; [| | now elim Hnd].
  - destruct access as [| body | o];
      cbn [FetchPayloadClient.member lift]; unfold bind, ret, throw.
    + eexists. split; [reflexivity |]. eexists. reflexivity.
    + eexists. split; [reflexivity |]. exists (PText body).
      repeat split; discriminate.
    + destruct (length (default (access_collections o) []) =? 0)%nat eqn:Hlen;
        eexists; (split; [reflexivity |]); exists (PObject o);
        (split; [reflexivity |]); (split; [discriminate |]); cbn [listed].
      * apply Nat.eqb_eq in Hlen.
        now destruct (default (access_collections o) []).
      * reflexivity.
  - unfold throw. eexists. split; [reflexivity |]. eexists. reflexivity.
Qed.

(** [testBasicConnection] never throws: it makes the one request for the
    root of the API and answers [success: true] when it returns, and
    [success: false] with the message of the error when it throws. *)
Theorem testBasicConnection_reports {W : Type} (os : World W)
  (client : FetchPayloadClient.t) (s : State W) :
  exists r,
    FetchPayloadClient.request os client "/" s
    = (r, fetched os (FetchPayloadClient.baseURL client ++ "/") s)
    /\ FetchPayloadClient.testBasicConnection os client s
       = (Ret match r with
              | Throw e => (false, Some (message e))
              | _ => (true, None)
              end,
          fetched os (FetchPayloadClient.baseURL client ++ "/") s).
Proof.
  destruct (request_outcome os client "/" s) as (r & Hr & Hnd).
  exists r. split; [exact Hr |].
  unfold FetchPayloadClient.testBasicConnection, try_catch, bind.
  rewrite Hr. destruct r; [reflexivity | reflexivity | now elim Hnd].
Qed.

Lemma replace_colon_dot_chars str c :
  In c (list_ascii_of_string (FileManager.replace_colon_dot str)) ->
  c <> ":"%char /\ c <> "."%char.
Proof.
  induction str as [|a rest IH]; cbn; [contradiction |].
  intros [<- | Hin]; [| now apply IH].
  destruct (Ascii.eqb a ":") eqn:E1; [split; discriminate |].
  destruct (Ascii.eqb a ".") eqn:E2; [split; discriminate |].
  apply Ascii.eqb_neq in E1, E2. now split.
Qed.

Lemma replace_colon_dot_length str :
  String.length (FileManager.replace_colon_dot str) = String.length str.
Proof. induction str as [|a rest IH]; cbn; congruence. Qed.

(** A new [FileManager] reads the clock once and touches nothing else; its
    [backupTimestamp] has the length of the ISO date it was made from and
    contains neither [:] nor [.]. *)
Theorem backup_timestamp_has_no_colon {W : Type} (os : World W)
  (penv : Config.ProcessEnv) (s : State W) :
  exists fm s',
    FileManager.constructor os penv s = (Ret fm, s')
    /\ trace s' = (trace s ++ [EvNow])%list
    /\ String.length (FileManager.backupTimestamp fm)
       = String.length (iso (fst (clock os (world s))))
    /\ forall c,
         In c (list_ascii_of_string (FileManager.backupTimestamp fm)) ->
         c <> ":"%char /\ c <> "."%char.
Proof.
  unfold FileManager.constructor, bind, now, ret.
  destruct (clock os (world s)) as [d w].
  eexists. eexists. split; [reflexivity |].
  cbn [trace fst FileManager.backupTimestamp].
  split; [reflexivity |].
  split; [apply replace_colon_dot_length |].
  intros c. apply replace_colon_dot_chars.
Qed.
